(** * time-tracker: the storage module (types.ts, storage.ts) and the
      timer panel (App.tsx)

    A shallow embedding of the persistence layer, the entity repository,
    the timer operations, the CSV export and the handlers of the timer
    panel, followed by the properties the design specification states
    about them and by further properties read off the code.

    Conventions of the embedding.
    - A TypeScript optional field [f?: T] is an [option]; [None] is
      [undefined] (JSON.stringify drops such a field, so absent and
      undefined coincide after one save).
    - [duration] is a whole number of seconds, a [Z]; [hourlyRate] is a
      rational.  Timestamps stay ISO strings as in types.ts; the Date
      constructor and [toISOString] are parameters of the development.
    - The browser is a parameter: JSON.stringify / JSON.parse, the Date
      functions, the clock read by [new Date()] and the identifiers drawn
      by [crypto.randomUUID()].  The clock and the identifier source are
      oracles indexed by the number of reads so far, which the world
      counts.
    - [localStorage.setItem] may throw (quota): whether it accepts a text
      is a parameter, and a rejected write leaves the item as it was, as
      the [catch] of saveData has it.  The [catch] of loadData is modelled
      for a JSON syntax error; [getItem] is taken not to throw.
    - loadData hands out the module-level [defaultData] object itself when
      nothing usable is stored, and an object sharing its arrays when the
      stored object lacks one.  The world therefore carries the current
      contents of [defaultData], and every mutation of a handle writes
      through to it where the two alias. *)

From Stdlib Require Import ZArith QArith Qcanon Ascii Permutation Sorted.
From stdpp Require Import base option list strings numbers countable pretty.

Close Scope Q_scope.
Close Scope Qc_scope.

(** ** Data model (types.ts) *)

Module Client.
Record t := mk {
  id : string;
  name : string;
  email : option string;
  phone : option string;
  address : option string;
  notes : option string;
  createdAt : string }.
End Client.

Module Project.
Record t := mk {
  id : string;
  clientId : string;
  name : string;
  description : option string;
  hourlyRate : option Qc;
  createdAt : string }.
End Project.

Module TimeEntry.
Record t := mk {
  id : string;
  projectId : option string;
  clientId : option string;
  description : string;
  startTime : string;
  endTime : option string;
  duration : Z;
  isRunning : bool;
  createdAt : string }.
End TimeEntry.

Record AppData := mkAppData {
  clients : list Client.t;
  projects : list Project.t;
  timeEntries : list TimeEntry.t }.

(** [Omit<Client, 'id' | 'createdAt'>] and its two siblings: the argument
    of the add functions. *)

Module ClientFields.
Record t := mk {
  name : string;
  email : option string;
  phone : option string;
  address : option string;
  notes : option string }.
End ClientFields.

Module ProjectFields.
Record t := mk {
  clientId : string;
  name : string;
  description : option string;
  hourlyRate : option Qc }.
End ProjectFields.

Module TimeEntryFields.
Record t := mk {
  projectId : option string;
  clientId : option string;
  description : string;
  startTime : string;
  endTime : option string;
  duration : Z;
  isRunning : bool }.
End TimeEntryFields.

(** [Partial<Omit<...>>]: the argument of the update functions.  The outer
    [option] says whether the key is present in the object literal; for an
    optional field the inner one is the value, which may be [undefined]
    (the UI passes [clientId: selectedClient || undefined]). *)

Module ClientUpdates.
Record t := mk {
  name : option string;
  email : option (option string);
  phone : option (option string);
  address : option (option string);
  notes : option (option string) }.
Definition none : t := mk None None None None None.
End ClientUpdates.

Module ProjectUpdates.
Record t := mk {
  clientId : option string;
  name : option string;
  description : option (option string);
  hourlyRate : option (option Qc) }.
Definition none : t := mk None None None None.
End ProjectUpdates.

Module TimeEntryUpdates.
Record t := mk {
  projectId : option (option string);
  clientId : option (option string);
  description : option string;
  startTime : option string;
  endTime : option (option string);
  duration : option Z;
  isRunning : option bool }.
Definition none : t := mk None None None None None None None.
End TimeEntryUpdates.

(** [{ ...client, id: ..., createdAt: ... }] *)

Definition newClientOf (f : ClientFields.t) (id createdAt : string) : Client.t :=
  Client.mk id (ClientFields.name f) (ClientFields.email f)
    (ClientFields.phone f) (ClientFields.address f) (ClientFields.notes f)
    createdAt.

Definition newProjectOf (f : ProjectFields.t) (id createdAt : string) : Project.t :=
  Project.mk id (ProjectFields.clientId f) (ProjectFields.name f)
    (ProjectFields.description f) (ProjectFields.hourlyRate f) createdAt.

Definition newEntryOf (f : TimeEntryFields.t) (id createdAt : string) : TimeEntry.t :=
  TimeEntry.mk id (TimeEntryFields.projectId f) (TimeEntryFields.clientId f)
    (TimeEntryFields.description f) (TimeEntryFields.startTime f)
    (TimeEntryFields.endTime f) (TimeEntryFields.duration f)
    (TimeEntryFields.isRunning f) createdAt.

(** [{ ...old, ...updates }]: a key present in [updates] wins, every other
    field (and always [id] and [createdAt]) keeps the old value. *)

Definition spreadClient (c : Client.t) (u : ClientUpdates.t) : Client.t :=
  Client.mk (Client.id c)
    (default (Client.name c) (ClientUpdates.name u))
    (default (Client.email c) (ClientUpdates.email u))
    (default (Client.phone c) (ClientUpdates.phone u))
    (default (Client.address c) (ClientUpdates.address u))
    (default (Client.notes c) (ClientUpdates.notes u))
    (Client.createdAt c).

Definition spreadProject (p : Project.t) (u : ProjectUpdates.t) : Project.t :=
  Project.mk (Project.id p)
    (default (Project.clientId p) (ProjectUpdates.clientId u))
    (default (Project.name p) (ProjectUpdates.name u))
    (default (Project.description p) (ProjectUpdates.description u))
    (default (Project.hourlyRate p) (ProjectUpdates.hourlyRate u))
    (Project.createdAt p).

Definition spreadEntry (e : TimeEntry.t) (u : TimeEntryUpdates.t) : TimeEntry.t :=
  TimeEntry.mk (TimeEntry.id e)
    (default (TimeEntry.projectId e) (TimeEntryUpdates.projectId u))
    (default (TimeEntry.clientId e) (TimeEntryUpdates.clientId u))
    (default (TimeEntry.description e) (TimeEntryUpdates.description u))
    (default (TimeEntry.startTime e) (TimeEntryUpdates.startTime u))
    (default (TimeEntry.endTime e) (TimeEntryUpdates.endTime u))
    (default (TimeEntry.duration e) (TimeEntryUpdates.duration u))
    (default (TimeEntry.isRunning e) (TimeEntryUpdates.isRunning u))
    (TimeEntry.createdAt e).

Definition set_clients (l : list Client.t) (d : AppData) : AppData :=
  mkAppData l (projects d) (timeEntries d).

Definition set_projects (l : list Project.t) (d : AppData) : AppData :=
  mkAppData (clients d) l (timeEntries d).

Definition set_timeEntries (l : list TimeEntry.t) (d : AppData) : AppData :=
  mkAppData (clients d) (projects d) l.

(** The value of [defaultData] when the module is loaded. *)

Definition emptyData : AppData := mkAppData [] [] [].

(** ** What JSON.parse may return

    Seen through the type [AppData] the code asserts, a parsed value is
    either an object, of which only the three top-level keys matter (each
    present or not), or something else (null, a number, a boolean, a
    string, an array), which contributes none of the three keys to an
    object spread. *)

Record RawData := mkRawData {
  rawClients : option (list Client.t);
  rawProjects : option (list Project.t);
  rawTimeEntries : option (list TimeEntry.t) }.

Inductive JSValue :=
| JSObject (o : RawData)
| JSOther.

Definition rawOf (d : AppData) : RawData :=
  mkRawData (Some (clients d)) (Some (projects d)) (Some (timeEntries d)).

(** ** The world outside a call *)

Record World := mkWorld {
  defaultData : AppData;          (* current contents of the exported object *)
  localStorage : option string;   (* the item under STORAGE_KEY *)
  clockReads : nat;               (* how many times new Date() was evaluated *)
  uuidsDrawn : nat }.             (* how many times randomUUID() was called *)

Definition set_defaultData (d : AppData) (w : World) : World :=
  mkWorld d (localStorage w) (clockReads w) (uuidsDrawn w).

Definition set_localStorage (s : option string) (w : World) : World :=
  mkWorld (defaultData w) s (clockReads w) (uuidsDrawn w).

(** A world in which the module was just loaded. *)

Definition freshWorld (stored : option string) : World :=
  mkWorld emptyData stored 0 0.

(** Calls are state transformers over the world. *)

Definition M (A : Type) : Type := World → A * World.

Definition ret {A} (a : A) : M A := λ w, (a, w).

Definition bind {A B} (m : M A) (k : A → M B) : M B :=
  λ w, let '(a, w') := m w in k a w'.

Notation "x <- m ;; k" := (bind m (λ x, k))
  (at level 100, m at next level, right associativity,
   format "'[v' x  <-  m  ;;  '/' k ']'").
Notation "m ;;; k" := (bind m (λ _, k))
  (at level 100, right associativity,
   format "'[v' m  ;;;  '/' k ']'").

(** The object [data] a function holds after [const data = loadData()],
    with what it shares with [defaultData]. *)

Record Handle := mkHandle {
  data : AppData;
  isDefaultData : bool;        (* data === defaultData *)
  sharesClients : bool;        (* data.clients === defaultData.clients *)
  sharesProjects : bool;
  sharesTimeEntries : bool }.

(** [projectsToDelete.includes(e.projectId)]: an undefined [projectId] is
    never among the collected ids. *)

Definition includes (l : list string) (x : option string) : bool :=
  match x with
  | Some s => bool_decide (s ∈ l)
  | None => false
  end.

(** ** String and array helpers of the CSV export *)

Definition dquote : ascii := "034"%char.
Definition dot : ascii := "."%char.

(** [s.split(sep)] for a one-character separator. *)

Fixpoint split (sep : ascii) (s : string) : list string :=
  match s with
  | EmptyString => [EmptyString]
  | String c s' =>
      if decide (c = sep) then EmptyString :: split sep s'
      else match split sep s' with
           | piece :: pieces => String c piece :: pieces
           | [] => [String c EmptyString]
           end
  end.

(** [l.join(sep)] *)

Fixpoint join (sep : string) (l : list string) : string :=
  match l with
  | [] => EmptyString
  | [x] => x
  | x :: l' => x +:+ sep +:+ join sep l'
  end.

(** The global replace of the cell template: every double quote becomes
    two. *)

Fixpoint doubleQuotes (s : string) : string :=
  match s with
  | EmptyString => EmptyString
  | String c s' =>
      if decide (c = dquote) then String dquote (String dquote (doubleQuotes s'))
      else String c (doubleQuotes s')
  end.

(** The template literal that wraps a cell in double quotes. *)

Definition quoteCell (cell : string) : string :=
  String dquote (doubleQuotes cell +:+ String dquote EmptyString).

(** [s.padStart(n, '0')] *)

Definition padStart0 (n : nat) (s : string) : string :=
  String.string_of_list_ascii (replicate (n - String.length s) "0"%char) +:+ s.

(** [Array.prototype.sort(compare)] is stable; for a comparator that
    orders by a key it yields the one stable arrangement, which insertion
    from the right computes: [x] goes in front of the first [y] with
    [compare x y <= 0]. *)

Fixpoint insertBy {A} (compare : A → A → Z) (x : A) (l : list A) : list A :=
  match l with
  | [] => [x]
  | y :: l' =>
      if decide (compare x y ≤ 0)%Z then x :: l else y :: insertBy compare x l'
  end.

Definition sortBy {A} (compare : A → A → Z) (l : list A) : list A :=
  foldr (insertBy compare) [] l.

Definition headers : list string :=
  ["Datum"; "Kunde"; "Projekt"; "Beschreibung"; "Start"; "Ende";
   "Dauer (h)"; "Dauer (Std:Min)"].

(** [x || 'Unbekannt'] on a possibly missing name. *)

Definition orUnbekannt (name : option string) : string :=
  match name with
  | Some s => if decide (s = "") then "Unbekannt" else s
  | None => "Unbekannt"
  end.

(** ** The timer panel (App.tsx): its state

    The state hooks of the App component that the timer handlers read
    and write.  [selectedClient] and [selectedProject] hold what the
    entry on display has in [clientId] and [projectId], which may be
    undefined. *)

Module App.

Inductive TimerState := idle | running | paused.

Record t := mk {
  data : AppData;
  timerState : TimerState;
  currentEntry : option TimeEntry.t;
  elapsedTime : Z;
  selectedClient : option string;
  selectedProject : option string;
  description : string }.

End App.

(** [s || undefined] and [s || 'Keine Beschreibung'] *)

Definition orUndefined (s : option string) : option string :=
  match s with
  | Some s => if decide (s = "") then None else Some s
  | None => None
  end.

Definition orKeineBeschreibung (s : string) : string :=
  if decide (s = "") then "Keine Beschreibung" else s.

(** ** Duration display (storage.ts, lines 314-318; App.tsx)

    [%] is the remainder that takes the sign of the dividend, [Z.rem];
    Math.floor of a quotient is [/] on [Z]. *)

Definition formatDurationShort (seconds : Z) : string :=
  let hours := (seconds / 3600)%Z in
  let mins := (Z.rem seconds 3600 / 60)%Z in
  pretty hours +:+ "h " +:+ pretty mins +:+ "m".

Definition formatDuration (seconds : Z) : string :=
  let hours := (seconds / 3600)%Z in
  let mins := (Z.rem seconds 3600 / 60)%Z in
  let secs := Z.rem seconds 60 in
  padStart0 2 (pretty hours) +:+ ":" +:+ padStart0 2 (pretty mins)
  +:+ ":" +:+ padStart0 2 (pretty secs).

Section Storage.

(** ** The browser *)

Variable JSON_stringify : AppData → string.
Variable JSON_parse : string → option JSValue.   (* None: SyntaxError *)
Variable setItem_ok : string → bool.              (* false: setItem throws (quota) *)
Variable Date_getTime : string → Z.               (* new Date(s).getTime() *)
Variable toISOString : Z → string.                (* of a Date given by its epoch ms *)
Variable clock : nat → Z.                         (* the n-th reading of new Date() *)
Variable uuids : nat → string.                    (* the n-th crypto.randomUUID() *)
Variable toLocaleDateString : Z → string.         (* 'de-DE': d.m.yyyy *)
Variable toLocaleTimeString : Z → string.         (* 'de-DE', 2-digit hour and minute *)
Variable hoursToFixed2 : Z → string.              (* (seconds / 3600).toFixed(2) *)

Definition newDate : M Z :=
  λ w, (clock (clockReads w),
        mkWorld (defaultData w) (localStorage w) (S (clockReads w)) (uuidsDrawn w)).

Definition randomUUID : M string :=
  λ w, (uuids (uuidsDrawn w),
        mkWorld (defaultData w) (localStorage w) (clockReads w) (S (uuidsDrawn w))).

(** ** Persistent store (storage.ts, lines 11-29) *)

(** [{ ...defaultData, ...parsed }]: a fresh object; a key the parsed value
    lacks keeps the array of [defaultData] itself. *)

Definition spreadData (dflt : AppData) (parsed : JSValue) : Handle :=
  match parsed with
  | JSObject o =>
      mkHandle
        (mkAppData (default (clients dflt) (rawClients o))
                   (default (projects dflt) (rawProjects o))
                   (default (timeEntries dflt) (rawTimeEntries o)))
        false
        (bool_decide (rawClients o = None))
        (bool_decide (rawProjects o = None))
        (bool_decide (rawTimeEntries o = None))
  | JSOther => mkHandle dflt false true true true
  end.

Definition theDefaultData (w : World) : Handle :=
  mkHandle (defaultData w) true true true true.

(** The value loadData returns: [if (stored)] fails on a missing item and
    on the empty string; a SyntaxError of JSON.parse is caught. *)

Definition loaded (w : World) : Handle :=
  match localStorage w with
  | Some stored =>
      if bool_decide (stored = "") then theDefaultData w
      else match JSON_parse stored with
           | Some parsed => spreadData (defaultData w) parsed
           | None => theDefaultData w
           end
  | None => theDefaultData w
  end.

Definition loadData : M Handle := λ w, (loaded w, w).

(** A rejected write is caught and logged; the item stays as it was. *)

Definition saveData (d : AppData) : M unit :=
  λ w, (tt, if setItem_ok (JSON_stringify d)
            then set_localStorage (Some (JSON_stringify d)) w
            else w).

(** Writes through a handle.  [assign*] is [data.f = l], which reaches
    [defaultData] only when [data] is that very object; [inplace*] is a
    mutation of the array [data.f] or of the objects in it (push, indexed
    store, field store), which reaches [defaultData] whenever the array is
    shared. *)

Definition assignClients (l : list Client.t) (h : Handle) : M Handle :=
  λ w, (mkHandle (set_clients l (data h)) (isDefaultData h)
          (isDefaultData h) (sharesProjects h) (sharesTimeEntries h),
        if isDefaultData h then set_defaultData (set_clients l (defaultData w)) w
        else w).

Definition assignProjects (l : list Project.t) (h : Handle) : M Handle :=
  λ w, (mkHandle (set_projects l (data h)) (isDefaultData h)
          (sharesClients h) (isDefaultData h) (sharesTimeEntries h),
        if isDefaultData h then set_defaultData (set_projects l (defaultData w)) w
        else w).

Definition assignTimeEntries (l : list TimeEntry.t) (h : Handle) : M Handle :=
  λ w, (mkHandle (set_timeEntries l (data h)) (isDefaultData h)
          (sharesClients h) (sharesProjects h) (isDefaultData h),
        if isDefaultData h then set_defaultData (set_timeEntries l (defaultData w)) w
        else w).

Definition inplaceClients (l : list Client.t) (h : Handle) : M Handle :=
  λ w, (mkHandle (set_clients l (data h)) (isDefaultData h)
          (sharesClients h) (sharesProjects h) (sharesTimeEntries h),
        if sharesClients h then set_defaultData (set_clients l (defaultData w)) w
        else w).

Definition inplaceProjects (l : list Project.t) (h : Handle) : M Handle :=
  λ w, (mkHandle (set_projects l (data h)) (isDefaultData h)
          (sharesClients h) (sharesProjects h) (sharesTimeEntries h),
        if sharesProjects h then set_defaultData (set_projects l (defaultData w)) w
        else w).

Definition inplaceTimeEntries (l : list TimeEntry.t) (h : Handle) : M Handle :=
  λ w, (mkHandle (set_timeEntries l (data h)) (isDefaultData h)
          (sharesClients h) (sharesProjects h) (sharesTimeEntries h),
        if sharesTimeEntries h then set_defaultData (set_timeEntries l (defaultData w)) w
        else w).

(** ** Entity repository (storage.ts, lines 31-140) *)

Definition addClient (client : ClientFields.t) : M Client.t :=
  h <- loadData ;;
  id <- randomUUID ;;
  now <- newDate ;;
  let newClient := newClientOf client id (toISOString now) in
  h <- inplaceClients (clients (data h) ++ [newClient]) h ;;
  saveData (data h) ;;;
  ret newClient.

Definition updateClient (id : string) (updates : ClientUpdates.t) : M (option Client.t) :=
  h <- loadData ;;
  match list_find (λ c, Client.id c = id) (clients (data h)) with
  | None => ret None
  | Some (index, c) =>
      h <- inplaceClients (<[index := spreadClient c updates]> (clients (data h))) h ;;
      saveData (data h) ;;;
      ret (clients (data h) !! index)
  end.

Definition deleteClient (id : string) : M bool :=
  h <- loadData ;;
  let initialLength := length (clients (data h)) in
  h <- assignClients (filter (λ c, Client.id c ≠ id) (clients (data h))) h ;;
  let projectsToDelete :=
    Project.id <$> filter (λ p, Project.clientId p = id) (projects (data h)) in
  h <- assignProjects (filter (λ p, Project.clientId p ≠ id) (projects (data h))) h ;;
  h <- assignTimeEntries
         (filter (λ e, includes projectsToDelete (TimeEntry.projectId e) = false
                       ∧ TimeEntry.clientId e ≠ Some id)
                 (timeEntries (data h))) h ;;
  if decide (length (clients (data h)) < initialLength) then
    saveData (data h) ;;; ret true
  else ret false.

Definition addProject (project : ProjectFields.t) : M Project.t :=
  h <- loadData ;;
  id <- randomUUID ;;
  now <- newDate ;;
  let newProject := newProjectOf project id (toISOString now) in
  h <- inplaceProjects (projects (data h) ++ [newProject]) h ;;
  saveData (data h) ;;;
  ret newProject.

Definition updateProject (id : string) (updates : ProjectUpdates.t) : M (option Project.t) :=
  h <- loadData ;;
  match list_find (λ p, Project.id p = id) (projects (data h)) with
  | None => ret None
  | Some (index, p) =>
      h <- inplaceProjects (<[index := spreadProject p updates]> (projects (data h))) h ;;
      saveData (data h) ;;;
      ret (projects (data h) !! index)
  end.

Definition deleteProject (id : string) : M bool :=
  h <- loadData ;;
  let initialLength := length (projects (data h)) in
  h <- assignProjects (filter (λ p, Project.id p ≠ id) (projects (data h))) h ;;
  h <- assignTimeEntries
         (filter (λ e, TimeEntry.projectId e ≠ Some id) (timeEntries (data h))) h ;;
  if decide (length (projects (data h)) < initialLength) then
    saveData (data h) ;;; ret true
  else ret false.

Definition addTimeEntry (entry : TimeEntryFields.t) : M TimeEntry.t :=
  h <- loadData ;;
  id <- randomUUID ;;
  now <- newDate ;;
  let newEntry := newEntryOf entry id (toISOString now) in
  h <- inplaceTimeEntries (timeEntries (data h) ++ [newEntry]) h ;;
  saveData (data h) ;;;
  ret newEntry.

Definition updateTimeEntry (id : string) (updates : TimeEntryUpdates.t)
  : M (option TimeEntry.t) :=
  h <- loadData ;;
  match list_find (λ e, TimeEntry.id e = id) (timeEntries (data h)) with
  | None => ret None
  | Some (index, e) =>
      h <- inplaceTimeEntries (<[index := spreadEntry e updates]> (timeEntries (data h))) h ;;
      saveData (data h) ;;;
      ret (timeEntries (data h) !! index)
  end.

Definition deleteTimeEntry (id : string) : M bool :=
  h <- loadData ;;
  let initialLength := length (timeEntries (data h)) in
  h <- assignTimeEntries (filter (λ e, TimeEntry.id e ≠ id) (timeEntries (data h))) h ;;
  if decide (length (timeEntries (data h)) < initialLength) then
    saveData (data h) ;;; ret true
  else ret false.

(** ** Timer (storage.ts, lines 142-223) *)

(** [Math.floor((now.getTime() - startTime.getTime()) / 1000) + entry.duration];
    [/] on [Z] rounds towards minus infinity, as Math.floor does. *)

Definition elapsed (now : Z) (entry : TimeEntry.t) : Z :=
  ((now - Date_getTime (TimeEntry.startTime entry)) / 1000
   + TimeEntry.duration entry)%Z.

(** The body of the forEach in stopAllRunningTimers. *)

Definition closeEntry (now : Z) (entry : TimeEntry.t) : TimeEntry.t :=
  if TimeEntry.isRunning entry then
    TimeEntry.mk (TimeEntry.id entry) (TimeEntry.projectId entry)
      (TimeEntry.clientId entry) (TimeEntry.description entry)
      (TimeEntry.startTime entry) (Some (toISOString now))
      (elapsed now entry) false (TimeEntry.createdAt entry)
  else entry.

Definition stopAllRunningTimers : M unit :=
  h <- loadData ;;
  now <- newDate ;;
  h <- inplaceTimeEntries (closeEntry now <$> timeEntries (data h)) h ;;
  saveData (data h).

Definition startTimer (projectId clientId description : string) : M TimeEntry.t :=
  stopAllRunningTimers ;;;
  now <- newDate ;;
  addTimeEntry
    (TimeEntryFields.mk (Some projectId) (Some clientId) description
       (toISOString now) None 0 true).

Definition stopTimer (entryId : string) : M (option TimeEntry.t) :=
  h <- loadData ;;
  match list_find (λ e, TimeEntry.id e = entryId) (timeEntries (data h)) with
  | None => ret None
  | Some (_, entry) =>
      if negb (TimeEntry.isRunning entry) then ret None
      else
        now <- newDate ;;
        let duration := elapsed now entry in
        updateTimeEntry entryId
          (TimeEntryUpdates.mk None None None None
             (Some (Some (toISOString now))) (Some duration) (Some false))
  end.

Definition pauseTimer (entryId : string) : M (option TimeEntry.t) :=
  h <- loadData ;;
  match list_find (λ e, TimeEntry.id e = entryId) (timeEntries (data h)) with
  | None => ret None
  | Some (_, entry) =>
      if negb (TimeEntry.isRunning entry) then ret None
      else
        now <- newDate ;;
        let duration := elapsed now entry in
        updateTimeEntry entryId
          (TimeEntryUpdates.mk None None None None None (Some duration) (Some false))
  end.

Definition resumeTimer (entryId : string) : M (option TimeEntry.t) :=
  h <- loadData ;;
  match list_find (λ e, TimeEntry.id e = entryId) (timeEntries (data h)) with
  | None => ret None
  | Some (_, entry) =>
      if TimeEntry.isRunning entry then ret None
      else
        stopAllRunningTimers ;;;
        now <- newDate ;;
        updateTimeEntry entryId
          (TimeEntryUpdates.mk None None None (Some (toISOString now))
             None None (Some true))
  end.

Definition getRunningTimer : M (option TimeEntry.t) :=
  h <- loadData ;;
  ret (snd <$> list_find (λ e, TimeEntry.isRunning e = true) (timeEntries (data h))).

(** ** CSV export (storage.ts, lines 226-270) *)

Definition csvRow (d : AppData) (entry : TimeEntry.t) : list string :=
  let client :=
    snd <$> list_find (λ c, Some (Client.id c) = TimeEntry.clientId entry) (clients d) in
  let project :=
    snd <$> list_find (λ p, Some (Project.id p) = TimeEntry.projectId entry) (projects d) in
  let date := toLocaleDateString (Date_getTime (TimeEntry.startTime entry)) in
  let startTime := toLocaleTimeString (Date_getTime (TimeEntry.startTime entry)) in
  let endTime :=
    match TimeEntry.endTime entry with
    | Some s => if decide (s = "") then "-" else toLocaleTimeString (Date_getTime s)
    | None => "-"
    end in
  let hours := hoursToFixed2 (TimeEntry.duration entry) in
  let hoursInt := (TimeEntry.duration entry / 3600)%Z in
  let mins := (Z.rem (TimeEntry.duration entry) 3600 / 60)%Z in
  let formattedDuration := pretty hoursInt +:+ ":" +:+ padStart0 2 (pretty mins) in
  [ date;
    orUnbekannt (Client.name <$> client);
    orUnbekannt (Project.name <$> project);
    TimeEntry.description entry;
    startTime;
    endTime;
    hours;
    formattedDuration ].

(** [new Date(a[0].split('.').reverse().join('-')).getTime()] *)

Definition rowDate (row : list string) : Z :=
  Date_getTime (join "-" (reverse (split dot (hd "" row)))).

Definition byDateDescending (a b : list string) : Z :=
  (rowDate b - rowDate a)%Z.

Definition csvLine (row : list string) : string :=
  join ";" (quoteCell <$> row).

Definition newline : string := String "010"%char EmptyString.

Definition exportToCSV : M string :=
  h <- loadData ;;
  let rows := csvRow (data h) <$> timeEntries (data h) in
  let rows := sortBy byDateDescending rows in
  ret (join newline (csvLine <$> (headers :: rows))).

(** ** The timer panel (App.tsx): its handlers

    Each handler takes the state of the render in which it was created to
    the state after its updates; [refreshData] is [setData(loadData())]. *)

Definition handleStartTimer (ui : App.t) : M App.t :=
  timer <- startTimer "" "" "" ;;
  h <- loadData ;;
  ret (App.mk (data h) App.running (Some timer) 0 (Some "") (Some "") "").

Definition handlePauseTimer (ui : App.t) : M App.t :=
  match App.currentEntry ui with
  | Some entry =>
      pauseTimer (TimeEntry.id entry) ;;;
      let updated :=
        spreadEntry entry
          (TimeEntryUpdates.mk None None None None None None (Some false)) in
      h <- loadData ;;
      ret (App.mk (data h) App.paused (Some updated) (App.elapsedTime ui)
             (App.selectedClient ui) (App.selectedProject ui)
             (App.description ui))
  | None => ret ui
  end.

Definition handleResumeTimer (ui : App.t) : M App.t :=
  match App.currentEntry ui with
  | Some entry =>
      resumed <- resumeTimer (TimeEntry.id entry) ;;
      h <- loadData ;;
      ret (match resumed with
           | Some entry' =>
               App.mk (data h) App.running (Some entry') (App.elapsedTime ui)
                 (App.selectedClient ui) (App.selectedProject ui)
                 (App.description ui)
           | None =>
               App.mk (data h) (App.timerState ui) (App.currentEntry ui)
                 (App.elapsedTime ui) (App.selectedClient ui)
                 (App.selectedProject ui) (App.description ui)
           end)
  | None => ret ui
  end.

Definition handleStopTimer (ui : App.t) : M App.t :=
  match App.currentEntry ui with
  | Some entry =>
      updateTimeEntry (TimeEntry.id entry)
        (TimeEntryUpdates.mk
           (Some (orUndefined (App.selectedProject ui)))
           (Some (orUndefined (App.selectedClient ui)))
           (Some (orKeineBeschreibung (App.description ui)))
           None None None None) ;;;
      stopTimer (TimeEntry.id entry) ;;;
      h <- loadData ;;
      ret (App.mk (data h) App.idle None 0 (Some "") (Some "") "")
  | None => ret ui
  end.

(** The callback of the one-second interval, which is set up while the
    timer runs: [Date.now()] is one more reading of the clock. *)

Definition tick (ui : App.t) : M App.t :=
  match App.timerState ui, App.currentEntry ui with
  | App.running, Some entry =>
      now <- newDate ;;
      ret (App.mk (App.data ui) (App.timerState ui) (App.currentEntry ui)
             (elapsed now entry) (App.selectedClient ui)
             (App.selectedProject ui) (App.description ui))
  | _, _ => ret ui
  end.

(** The state after the first render and its effects: the initial values
    of the state hooks, then the running timer of the store, if any. *)

Definition mount : M App.t :=
  h <- loadData ;;
  running <- getRunningTimer ;;
  ret (match running with
       | Some entry =>
           App.mk (data h) App.running (Some entry) 0
             (TimeEntry.clientId entry) (TimeEntry.projectId entry)
             (TimeEntry.description entry)
       | None => App.mk (data h) App.idle None 0 (Some "") (Some "") ""
       end).

(** The list of recent entries on the dashboard: the entries that are
    idle and have a (non-empty) [endTime], latest end first, ten at
    most. *)

Definition ended (entry : TimeEntry.t) : Z :=
  Date_getTime (default "" (TimeEntry.endTime entry)).

Definition closed (entry : TimeEntry.t) : Prop :=
  TimeEntry.isRunning entry = false
  ∧ TimeEntry.endTime entry ≠ None
  ∧ TimeEntry.endTime entry ≠ Some "".

Definition recentEntries (d : AppData) : list TimeEntry.t :=
  take 10
    (sortBy (λ a b, (ended b - ended a)%Z) (filter closed (timeEntries d))).

(** ** The document a call sees

    What [loadData()] would return in a world. *)

Definition doc (w : World) : AppData := data (loaded w).

(** [w'] holds under STORAGE_KEY what [saveData d] leaves there when
    called in [w]: the serialisation of [d], or, had the write been
    rejected, the item of [w]. *)

Definition persisted (d : AppData) (w w' : World) : Prop :=
  localStorage w' = localStorage (snd (saveData d w)).

Definition stoppedAt (now : Z) (entry : TimeEntry.t) : TimeEntry.t :=
  spreadEntry entry
    (TimeEntryUpdates.mk None None None None
       (Some (Some (toISOString now))) (Some (elapsed now entry)) (Some false)).

Definition pausedAt (now : Z) (entry : TimeEntry.t) : TimeEntry.t :=
  spreadEntry entry
    (TimeEntryUpdates.mk None None None None None
       (Some (elapsed now entry)) (Some false)).

Definition resumedAt (now : Z) (entry : TimeEntry.t) : TimeEntry.t :=
  spreadEntry entry
    (TimeEntryUpdates.mk None None None (Some (toISOString now))
       None None (Some true)).

(** ** Sequences of timer calls *)

Inductive TimerCall :=
| StartTimer (projectId clientId description : string)
| StopTimer (entryId : string)
| PauseTimer (entryId : string)
| ResumeTimer (entryId : string).

(** The world a call leaves behind. *)

Definition call (c : TimerCall) (w : World) : World :=
  match c with
  | StartTimer projectId clientId description =>
      snd (startTimer projectId clientId description w)
  | StopTimer entryId => snd (stopTimer entryId w)
  | PauseTimer entryId => snd (pauseTimer entryId w)
  | ResumeTimer entryId => snd (resumeTimer entryId w)
  end.

(** The worlds after each call of a sequence, in order. *)

Fixpoint worldsAfter (cs : list TimerCall) (w : World) : list World :=
  match cs with
  | [] => []
  | c :: cs' => call c w :: worldsAfter cs' (call c w)
  end.

Definition running (d : AppData) : list TimeEntry.t :=
  filter (λ e, TimeEntry.isRunning e = true) (timeEntries d).

(** ** endTime and the stopped state

    resumeTimer tests [isRunning] only.  The calls below are those that
    keep to the documented precondition of resume: it is applied to an
    entry without [endTime] (or to an id for which it does nothing). *)

Definition admissible (c : TimerCall) (w : World) : Prop :=
  match c with
  | ResumeTimer entryId =>
      ∀ index entry,
        list_find (λ e, TimeEntry.id e = entryId) (timeEntries (doc w))
          = Some (index, entry) →
        TimeEntry.endTime entry = None
  | _ => True
  end.

Inductive reachableFrom (w0 : World) : World → Prop :=
| reach_here : reachableFrom w0 w0
| reach_call w c :
    reachableFrom w0 w → admissible c w → reachableFrom w0 (call c w).

(** An entry is permanently stopped when it is not running and no further
    admissible call makes it run again. *)

Definition permanentlyStopped (w : World) (entryId : string) : Prop :=
  ∀ w', reachableFrom w w' →
  ∀ e', e' ∈ timeEntries (doc w') → TimeEntry.id e' = entryId →
  TimeEntry.isRunning e' = false.

Definition timerInv (w : World) : Prop :=
  NoDup (TimeEntry.id <$> timeEntries (doc w))
  ∧ Forall (λ e, ∃ k, k < uuidsDrawn w ∧ TimeEntry.id e = uuids k)
      (timeEntries (doc w))
  ∧ Forall (λ e, TimeEntry.endTime e ≠ None → TimeEntry.isRunning e = false)
      (timeEntries (doc w)).

(** How an entry may change under a call: it keeps its id, and an
    [endTime], once set, stays set. *)

Definition evolves (e e' : TimeEntry.t) : Prop :=
  TimeEntry.id e' = TimeEntry.id e
  ∧ (TimeEntry.endTime e ≠ None → TimeEntry.endTime e' ≠ None).

Definition extends (es es' : list TimeEntry.t) : Prop :=
  ∃ l1 l2, es' = l1 ++ l2 ∧ Forall2 evolves es l1.

(** The date by which a row is ordered, read off the entry. *)

Definition entryDate (entry : TimeEntry.t) : Z :=
  Date_getTime
    (join "-" (reverse (split dot
       (toLocaleDateString (Date_getTime (TimeEntry.startTime entry)))))).

(** ** The exported functions and [defaultData]

    Every exported function that changes the world.  A world is settled
    when [defaultData] is as declared or the stored item is a saved
    document; every world reached from a freshly loaded module is settled,
    so what the calls write into [defaultData] is never read back. *)

Inductive ApiCall :=
| AddClient (client : ClientFields.t)
| UpdateClient (id : string) (updates : ClientUpdates.t)
| DeleteClient (id : string)
| AddProject (project : ProjectFields.t)
| UpdateProject (id : string) (updates : ProjectUpdates.t)
| DeleteProject (id : string)
| AddTimeEntry (entry : TimeEntryFields.t)
| UpdateTimeEntry (id : string) (updates : TimeEntryUpdates.t)
| DeleteTimeEntry (id : string)
| StopAllRunningTimers
| Timer (c : TimerCall).

Definition apiCall (c : ApiCall) (w : World) : World :=
  match c with
  | AddClient client => snd (addClient client w)
  | UpdateClient id updates => snd (updateClient id updates w)
  | DeleteClient id => snd (deleteClient id w)
  | AddProject project => snd (addProject project w)
  | UpdateProject id updates => snd (updateProject id updates w)
  | DeleteProject id => snd (deleteProject id w)
  | AddTimeEntry entry => snd (addTimeEntry entry w)
  | UpdateTimeEntry id updates => snd (updateTimeEntry id updates w)
  | DeleteTimeEntry id => snd (deleteTimeEntry id w)
  | StopAllRunningTimers => snd (stopAllRunningTimers w)
  | Timer c => call c w
  end.

Inductive apiReachable (w0 : World) : World → Prop :=
| api_here : apiReachable w0 w0
| api_call w c : apiReachable w0 w → apiReachable w0 (apiCall c w).

Definition saved (w : World) : Prop :=
  ∃ d, localStorage w = Some (JSON_stringify d).

Definition settled (w : World) : Prop :=
  defaultData w = emptyData ∨ saved w.

(** ** Identifiers

    An id is unused in a document when no entity has it and nothing
    refers to it. *)

Definition unusedId (id : string) (d : AppData) : Prop :=
  Forall (λ c, Client.id c ≠ id) (clients d)
  ∧ Forall (λ p, Project.id p ≠ id ∧ Project.clientId p ≠ id) (projects d)
  ∧ Forall (λ e, TimeEntry.id e ≠ id
                 ∧ TimeEntry.projectId e ≠ Some id
                 ∧ TimeEntry.clientId e ≠ Some id) (timeEntries d).

(** Ids that are pairwise distinct and that randomUUID will not return
    from now on. *)

Definition unissued (w : World) (id : string) : Prop :=
  ∀ k, uuidsDrawn w ≤ k → id ≠ uuids k.

Definition distinctIds (w : World) (ids : list string) : Prop :=
  NoDup ids ∧ Forall (unissued w) ids.

Definition idsInv (w : World) : Prop :=
  distinctIds w (Client.id <$> clients (doc w))
  ∧ distinctIds w (Project.id <$> projects (doc w))
  ∧ distinctIds w (TimeEntry.id <$> timeEntries (doc w)).

(** The world after a sequence of calls of the exported functions. *)

Definition apiCalls (cs : list ApiCall) (w : World) : World :=
  foldl (λ w c, apiCall c w) w cs.

(** The item under STORAGE_KEY in [w'] is that of [w], or a serialised
    document the store accepted. *)

Definition keptOrSaved (w w' : World) : Prop :=
  localStorage w' = localStorage w
  ∨ ∃ d, localStorage w' = Some (JSON_stringify d)
         ∧ setItem_ok (JSON_stringify d) = true.

(** ** The timer panel and the store

    What the user can do to the panel: the four buttons, the interval's
    tick, and an edit of the form (the project select, the description
    input, and the effect that selects the client of the project). *)

Inductive PanelEvent :=
| ClickStart
| ClickPause
| ClickResume
| ClickStop
| Tick
| Edit (selectedClient selectedProject : option string) (description : string).

Definition panel (ev : PanelEvent) (ui : App.t) : M App.t :=
  match ev with
  | ClickStart => handleStartTimer ui
  | ClickPause => handlePauseTimer ui
  | ClickResume => handleResumeTimer ui
  | ClickStop => handleStopTimer ui
  | Tick => tick ui
  | Edit selectedClient selectedProject description =>
      ret (App.mk (App.data ui) (App.timerState ui) (App.currentEntry ui)
             (App.elapsedTime ui) selectedClient selectedProject description)
  end.

Definition panelRun (evs : list PanelEvent) (s : App.t * World)
  : App.t * World :=
  foldl (λ s ev, panel ev (fst s) (snd s)) s evs.

(** The panel agrees with the store: idle, nothing runs; running, the
    entry on display is the one running entry of the store; paused,
    nothing runs and the store has an entry of the id on display. *)

Definition inSync (ui : App.t) (w : World) : Prop :=
  match App.timerState ui with
  | App.idle => App.currentEntry ui = None ∧ running (doc w) = []
  | App.running =>
      ∃ e, App.currentEntry ui = Some e ∧ running (doc w) = [e]
  | App.paused =>
      ∃ e e', App.currentEntry ui = Some e
        ∧ running (doc w) = []
        ∧ e' ∈ timeEntries (doc w)
        ∧ TimeEntry.id e' = TimeEntry.id e
  end.

(** ** Assumptions on the browser, used where stated

    JSON.parse inverts JSON.stringify on documents (every field of a
    document is a string, a finite number, a boolean or absent), the
    serialised document is not the empty string, JSON.parse rejects the
    empty string, and randomUUID never repeats. *)

Hypothesis parse_stringify :
  ∀ d, JSON_parse (JSON_stringify d) = Some (JSObject (rawOf d)).
Hypothesis stringify_nonempty : ∀ d, JSON_stringify d ≠ "".
Hypothesis parse_empty : JSON_parse "" = None.
Hypothesis uuids_inj : ∀ m n, uuids m = uuids n → m = n.

(** ** Persistent store *)

Lemma loadData_world w : snd (loadData w) = w.
Proof. reflexivity. Qed.

Lemma loaded_stored d w :
  localStorage w = Some (JSON_stringify d) →
  loaded w = mkHandle d false false false false.
Proof.
  intros Hs. unfold loaded. rewrite Hs.
  rewrite bool_decide_eq_false_2 by apply stringify_nonempty.
  rewrite parse_stringify. by destruct d.
Qed.

Lemma doc_stored d w : localStorage w = Some (JSON_stringify d) → doc w = d.
Proof. intros Hs. unfold doc. by rewrite (loaded_stored d). Qed.

(** C7 (as the code has it).  Round-trip persistence holds for a write
    the store accepts: after [saveData d], [loadData] then returns a fresh
    object whose three arrays are those of [d], whatever was stored before
    and whatever [defaultData] holds.  A write the store rejects is
    swallowed by the [catch] of saveData: the world is as before the
    call, and [loadData] returns what it returned before.  (JSON.parse is
    taken to invert JSON.stringify on documents, whose text is not
    empty.) *)
Theorem saveData_loadData_roundtrip (d : AppData) (w : World) :
  (setItem_ok (JSON_stringify d) = true →
   fst (loadData (snd (saveData d w))) = mkHandle d false false false false)
  ∧ (setItem_ok (JSON_stringify d) = false →
     saveData d w = (tt, w)
     ∧ fst (loadData (snd (saveData d w))) = fst (loadData w)).
Proof.
  split; intros Hok; unfold saveData; rewrite Hok; simpl.
  - by apply loaded_stored.
  - done.
Qed.

(** Without the store's consent nothing is written. *)

Lemma saveData_rejected d w :
  setItem_ok (JSON_stringify d) = false → saveData d w = (tt, w).
Proof. unfold saveData. by intros ->. Qed.

Lemma loaded_pristine (w : World) :
  defaultData w = emptyData →
  let h := fst (loadData w) in
  (∀ stored o,
     localStorage w = Some stored → JSON_parse stored = Some (JSObject o) →
     isDefaultData h = false
     ∧ clients (data h) = default [] (rawClients o)
     ∧ projects (data h) = default [] (rawProjects o)
     ∧ timeEntries (data h) = default [] (rawTimeEntries o))
  ∧ (isDefaultData h = true ↔
       localStorage w = None
       ∨ ∃ stored, localStorage w = Some stored ∧ JSON_parse stored = None)
  ∧ (isDefaultData h = true → data h = emptyData).
Proof.
  intros Hd h. subst h. unfold loadData, loaded. simpl. rewrite Hd.
  destruct (localStorage w) as [stored|] eqn:Hs; simpl.
  - case_bool_decide as He.
    + subst stored. split; [|split]; simpl; [| |done].
      * intros s o [= <-]. by rewrite parse_empty.
      * split; [|done]. intros _. right. eauto.
    + destruct (JSON_parse stored) as [[o|]|] eqn:Hp; simpl;
        (split; [|split]; simpl; [| |done]).
      * intros s o' [= <-]. rewrite Hp. by intros [= <-].
      * split; [done|]. intros [?|(s & [= <-] & ?)]; congruence.
      * intros s o' [= <-]. by rewrite Hp.
      * split; [done|]. intros [?|(s & [= <-] & ?)]; congruence.
      * intros s o' [= <-]. by rewrite Hp.
      * split; [|done]. intros _. right. eauto.
  - split; [|split]; simpl; [done| |done]. split; [|done]. intros _. by left.
Qed.

(** ** Entity repository *)

Ltac exec :=
  unfold bind, ret, saveData, inplaceClients, inplaceProjects,
    inplaceTimeEntries, assignClients, assignProjects, assignTimeEntries,
    newDate, randomUUID; simpl.

(** ** A store that accepts every write

    saveData swallows a rejected write, so what a call leaves in the
    store depends on whether localStorage accepts the text.  The
    theorems stated with [persisted], or about what a call returns, do
    not ask; a theorem that speaks of the document read back after a
    write is proved for a store that accepts every write, and says so.
    The lemmas that need this are collected in a section of their own,
    and take it as their last assumption. *)

Section Accepting.

Hypothesis setItem_accepts : ∀ s, setItem_ok s = true.

Ltac exec_ok := exec; rewrite ?setItem_accepts.

Lemma list_find_none_Forall {A} (P : A → Prop) `{∀ x, Decision (P x)} (l : list A) :
  list_find P l = None ↔ Forall (λ x, ¬ P x) l.
Proof. apply list_find_None. Qed.

Lemma list_find_first {A} (P : A → Prop) `{∀ x, Decision (P x)} (l : list A) i x :
  l !! i = Some x → P x → (∀ j y, l !! j = Some y → j < i → ¬ P y) →
  list_find P l = Some (i, x).
Proof. intros. by apply list_find_Some. Qed.

Lemma updateClient_found id u w index c :
  list_find (λ c, Client.id c = id) (clients (doc w)) = Some (index, c) →
  ∃ w', updateClient id u w = (Some (spreadClient c u), w')
    ∧ persisted (set_clients (<[index := spreadClient c u]> (clients (doc w))) (doc w)) w w'.
Proof.
  intros Hf. unfold updateClient, persisted, doc in *. exec.
  rewrite Hf. simpl.
  apply list_find_Some in Hf as (Hi & _).
  rewrite list_lookup_insert_eq by (by eapply lookup_lt_Some).
  eexists. split; [reflexivity|].
  by destruct (setItem_ok _), (sharesClients (loaded w)).
Qed.

Lemma updateProject_found id u w index p :
  list_find (λ p, Project.id p = id) (projects (doc w)) = Some (index, p) →
  ∃ w', updateProject id u w = (Some (spreadProject p u), w')
    ∧ persisted (set_projects (<[index := spreadProject p u]> (projects (doc w))) (doc w)) w w'.
Proof.
  intros Hf. unfold updateProject, persisted, doc in *. exec.
  rewrite Hf. simpl.
  apply list_find_Some in Hf as (Hi & _).
  rewrite list_lookup_insert_eq by (by eapply lookup_lt_Some).
  eexists. split; [reflexivity|].
  by destruct (setItem_ok _), (sharesProjects (loaded w)).
Qed.

Lemma updateTimeEntry_found id u w index e :
  list_find (λ e, TimeEntry.id e = id) (timeEntries (doc w)) = Some (index, e) →
  ∃ w', updateTimeEntry id u w = (Some (spreadEntry e u), w')
    ∧ persisted
        (set_timeEntries (<[index := spreadEntry e u]> (timeEntries (doc w))) (doc w))
        w w'
    ∧ clockReads w' = clockReads w ∧ uuidsDrawn w' = uuidsDrawn w.
Proof.
  intros Hf. unfold updateTimeEntry, persisted, doc in *. exec.
  rewrite Hf. simpl.
  apply list_find_Some in Hf as (Hi & _).
  rewrite list_lookup_insert_eq by (by eapply lookup_lt_Some).
  eexists. split; [reflexivity|].
  by destruct (setItem_ok _), (sharesTimeEntries (loaded w)).
Qed.

Lemma persisted_save d w w1 :
  localStorage w1 = localStorage w →
  persisted d w
    (if setItem_ok (JSON_stringify d)
     then set_localStorage (Some (JSON_stringify d)) w1 else w1).
Proof. unfold persisted. simpl. intros ?. by destruct (setItem_ok _). Qed.

Lemma persisted_accepted d w w' :
  persisted d w w' → localStorage w' = Some (JSON_stringify d).
Proof. unfold persisted. simpl. by rewrite setItem_accepts. Qed.

Lemma updateTimeEntry_not_found id u w :
  list_find (λ e, TimeEntry.id e = id) (timeEntries (doc w)) = None →
  updateTimeEntry id u w = (None, w).
Proof.
  intros Hf. unfold updateTimeEntry, doc in *. exec.
  by rewrite Hf.
Qed.


Lemma filter_Forall_id {A} (P : A → Prop) `{∀ x, Decision (P x)} (l : list A) :
  Forall P l → filter P l = l.
Proof.
  induction 1 as [|x l Hx _ IH]; [done|].
  by rewrite filter_cons_True, IH.
Qed.

Lemma loaded_isDefaultData w :
  isDefaultData (loaded w) = true → data (loaded w) = defaultData w.
Proof.
  unfold loaded. destruct (localStorage w) as [stored|]; [|done].
  case_bool_decide; [done|].
  by destruct (JSON_parse stored) as [[o|]|].
Qed.

Lemma deleteClient_unmatched id w :
  Forall (λ c, Client.id c ≠ id) (clients (doc w)) →
  ∃ w', deleteClient id w = (false, w')
    ∧ localStorage w' = localStorage w
    ∧ (defaultData w = emptyData → w' = w).
Proof.
  unfold doc. intros Hn. unfold deleteClient. exec.
  rewrite (filter_Forall_id _ _ Hn).
  case_decide; [lia|]. eexists. split; [reflexivity|].
  destruct (isDefaultData (loaded w)) eqn:Hd; [|done].
  split; [done|]. intros He.
  rewrite (loaded_isDefaultData w Hd), He. simpl.
  rewrite ?filter_nil. destruct w; simpl in *; by subst.
Qed.

(** C10.  A delete with an unmatched id persists nothing: it returns
    false and the stored item is the one from before the call, whatever
    refers to that id.  (With [defaultData] as declared the whole world
    is as before.)  The same holds for deleteProject and
    deleteTimeEntry. *)
Theorem delete_unmatched_persists_nothing (w : World) (id : string) :
  (Forall (λ c, Client.id c ≠ id) (clients (doc w)) →
   ∃ w', deleteClient id w = (false, w')
     ∧ localStorage w' = localStorage w
     ∧ (defaultData w = emptyData → w' = w))
  ∧ (Forall (λ p, Project.id p ≠ id) (projects (doc w)) →
     ∃ w', deleteProject id w = (false, w')
       ∧ localStorage w' = localStorage w
       ∧ (defaultData w = emptyData → w' = w))
  ∧ (Forall (λ e, TimeEntry.id e ≠ id) (timeEntries (doc w)) →
     ∃ w', deleteTimeEntry id w = (false, w')
       ∧ localStorage w' = localStorage w
       ∧ (defaultData w = emptyData → w' = w)).
Proof.
  repeat apply conj; [apply deleteClient_unmatched|unfold doc; intros Hn..].
  - unfold deleteProject. exec.
    rewrite (filter_Forall_id _ _ Hn).
    case_decide; [lia|]. eexists. split; [reflexivity|].
    destruct (isDefaultData (loaded w)) eqn:Hd; [|done].
    split; [done|]. intros He.
    rewrite (loaded_isDefaultData w Hd), He. simpl.
    rewrite ?filter_nil. destruct w; simpl in *; by subst.
  - unfold deleteTimeEntry. exec.
    rewrite (filter_Forall_id _ _ Hn).
    case_decide; [lia|]. eexists. split; [reflexivity|].
    destruct (isDefaultData (loaded w)) eqn:Hd; [|done].
    split; [done|]. intros He.
    assert (data (loaded w) = defaultData w) as Hdata
      by by apply loaded_isDefaultData.
    rewrite Hdata in Hn |- *. rewrite He in Hn |- *. simpl.
    rewrite ?filter_nil. destruct w; simpl in *; by subst.
Qed.

Lemma length_filter_lt_iff {A} (P : A → Prop) `{∀ x, Decision (P x)} (l : list A) :
  length (filter P l) < length l ↔ ∃ x, x ∈ l ∧ ¬ P x.
Proof.
  split.
  - intros Hlt. destruct (decide (Forall P l)) as [Hall|Hex].
    + rewrite (filter_Forall_id P l Hall) in Hlt. lia.
    + apply not_Forall_Exists in Hex; [|solve_decision].
      apply Exists_exists in Hex as (x & ? & ?). eauto.
  - intros (x & ? & ?). by eapply length_filter_lt.
Qed.

Lemma includes_false (l : list string) (x : option string) :
  includes l x = false ↔ ∀ s, x = Some s → s ∉ l.
Proof.
  destruct x as [s|]; simpl.
  - rewrite bool_decide_eq_false. split.
    + by intros ? ? [= <-].
    + eauto.
  - split; [by intros|done].
Qed.


(** ** Timer: what each call does to the document *)

Lemma closeEntry_id now e : TimeEntry.id (closeEntry now e) = TimeEntry.id e.
Proof. unfold closeEntry. by destruct (TimeEntry.isRunning e). Qed.

Lemma closeEntry_not_running now e :
  TimeEntry.isRunning (closeEntry now e) = false.
Proof. unfold closeEntry. by destruct (TimeEntry.isRunning e) eqn:?. Qed.

Lemma closeEntry_idle now e :
  TimeEntry.isRunning e = false → closeEntry now e = e.
Proof. unfold closeEntry. by intros ->. Qed.

Lemma list_find_closeEntry now entryId (l : list TimeEntry.t) :
  list_find (λ e, TimeEntry.id e = entryId) (closeEntry now <$> l)
  = prod_map id (closeEntry now)
      <$> list_find (λ e, TimeEntry.id e = entryId) l.
Proof.
  rewrite list_find_fmap. f_equal.
  apply list_find_ext. intros e. simpl. by rewrite closeEntry_id.
Qed.

Lemma stopAllRunningTimers_spec w :
  ∃ w', stopAllRunningTimers w = (tt, w')
    ∧ doc w' = set_timeEntries
                 (closeEntry (clock (clockReads w)) <$> timeEntries (doc w)) (doc w)
    ∧ clockReads w' = S (clockReads w)
    ∧ uuidsDrawn w' = uuidsDrawn w.
Proof.
  unfold stopAllRunningTimers. exec_ok. eexists. split; [reflexivity|].
  split; [|by destruct (sharesTimeEntries (loaded w))].
  by apply doc_stored.
Qed.

Lemma addTimeEntry_spec entry w :
  let e := newEntryOf entry (uuids (uuidsDrawn w))
             (toISOString (clock (clockReads w))) in
  ∃ w', addTimeEntry entry w = (e, w')
    ∧ doc w' = set_timeEntries (timeEntries (doc w) ++ [e]) (doc w)
    ∧ clockReads w' = S (clockReads w)
    ∧ uuidsDrawn w' = S (uuidsDrawn w).
Proof.
  unfold addTimeEntry. exec_ok. eexists. split; [reflexivity|].
  split; [|by destruct (sharesTimeEntries (loaded w))].
  by apply doc_stored.
Qed.

Lemma updateTimeEntry_spec id u w index e :
  list_find (λ e, TimeEntry.id e = id) (timeEntries (doc w)) = Some (index, e) →
  ∃ w', updateTimeEntry id u w = (Some (spreadEntry e u), w')
    ∧ doc w' = set_timeEntries (<[index := spreadEntry e u]> (timeEntries (doc w)))
                 (doc w)
    ∧ clockReads w' = clockReads w
    ∧ uuidsDrawn w' = uuidsDrawn w.
Proof.
  intros Hf. destruct (updateTimeEntry_found id u w index e Hf)
    as (w' & Hu & Hs & Hc & Hd).
  exists w'. split; [done|]. split; [|done].
  by eapply doc_stored, persisted_accepted.
Qed.

Lemma newDate_doc w : doc (snd (newDate w)) = doc w.
Proof. reflexivity. Qed.

Lemma startTimer_spec projectId clientId description w :
  let c := clockReads w in
  let e := TimeEntry.mk (uuids (uuidsDrawn w)) (Some projectId) (Some clientId)
             description (toISOString (clock (S c))) None 0 true
             (toISOString (clock (S (S c)))) in
  ∃ w', startTimer projectId clientId description w = (e, w')
    ∧ doc w' = set_timeEntries
                 ((closeEntry (clock c) <$> timeEntries (doc w)) ++ [e]) (doc w)
    ∧ clockReads w' = S (S (S c))
    ∧ uuidsDrawn w' = S (uuidsDrawn w).
Proof.
  intros c e. subst c e. unfold startTimer, bind.
  destruct (stopAllRunningTimers_spec w) as (w1 & -> & Hd1 & Hc1 & Hu1).
  unfold newDate at 1. simpl.
  set (w2 := mkWorld _ _ _ _).
  destruct (addTimeEntry_spec
              (TimeEntryFields.mk (Some projectId) (Some clientId) description
                 (toISOString (clock (clockReads w1))) None 0 true) w2)
    as (w3 & -> & Hd3 & Hc3 & Hu3).
  exists w3. subst w2. simpl in *. change (doc (mkWorld _ _ _ _)) with (doc w1) in Hd3.
  rewrite Hc1, Hu1 in *. split; [done|].
  rewrite Hd3, Hd1. by split.
Qed.

Lemma stopTimer_spec entryId w index entry :
  list_find (λ e, TimeEntry.id e = entryId) (timeEntries (doc w))
    = Some (index, entry) →
  TimeEntry.isRunning entry = true →
  let e' := stoppedAt (clock (clockReads w)) entry in
  ∃ w', stopTimer entryId w = (Some e', w')
    ∧ doc w' = set_timeEntries (<[index := e']> (timeEntries (doc w))) (doc w)
    ∧ clockReads w' = S (clockReads w)
    ∧ uuidsDrawn w' = uuidsDrawn w.
Proof.
  intros Hf Hr e'. subst e'. unfold stopTimer, bind, loadData.
  change (data (loaded w)) with (doc w). rewrite Hf, Hr. simpl.
  set (w1 := mkWorld _ _ _ _).
  destruct (updateTimeEntry_spec entryId
              (TimeEntryUpdates.mk None None None None
                 (Some (Some (toISOString (clock (clockReads w)))))
                 (Some (elapsed (clock (clockReads w)) entry)) (Some false))
              w1 index entry Hf) as (w' & -> & Hd & Hc & Hu).
  by exists w'.
Qed.

Lemma pauseTimer_spec entryId w index entry :
  list_find (λ e, TimeEntry.id e = entryId) (timeEntries (doc w))
    = Some (index, entry) →
  TimeEntry.isRunning entry = true →
  let e' := pausedAt (clock (clockReads w)) entry in
  ∃ w', pauseTimer entryId w = (Some e', w')
    ∧ doc w' = set_timeEntries (<[index := e']> (timeEntries (doc w))) (doc w)
    ∧ clockReads w' = S (clockReads w)
    ∧ uuidsDrawn w' = uuidsDrawn w.
Proof.
  intros Hf Hr e'. subst e'. unfold pauseTimer, bind, loadData.
  change (data (loaded w)) with (doc w). rewrite Hf, Hr. simpl.
  set (w1 := mkWorld _ _ _ _).
  destruct (updateTimeEntry_spec entryId
              (TimeEntryUpdates.mk None None None None None
                 (Some (elapsed (clock (clockReads w)) entry)) (Some false))
              w1 index entry Hf) as (w' & -> & Hd & Hc & Hu).
  by exists w'.
Qed.

Lemma resumeTimer_spec entryId w index entry :
  list_find (λ e, TimeEntry.id e = entryId) (timeEntries (doc w))
    = Some (index, entry) →
  TimeEntry.isRunning entry = false →
  let e' := resumedAt (clock (S (clockReads w))) entry in
  ∃ w', resumeTimer entryId w = (Some e', w')
    ∧ doc w' = set_timeEntries
                 (<[index := e']>
                    (closeEntry (clock (clockReads w)) <$> timeEntries (doc w)))
                 (doc w)
    ∧ clockReads w' = S (S (clockReads w))
    ∧ uuidsDrawn w' = uuidsDrawn w.
Proof.
  intros Hf Hr e'. subst e'. unfold resumeTimer, bind, loadData.
  change (data (loaded w)) with (doc w). rewrite Hf. cbv beta iota.
  rewrite Hr. cbv beta iota.
  destruct (stopAllRunningTimers_spec w) as (w1 & -> & Hd1 & Hc1 & Hu1).
  unfold newDate at 1. set (w2 := mkWorld _ _ _ _).
  assert (doc w2 = doc w1) as Hd2 by done.
  assert (list_find (λ e, TimeEntry.id e = entryId) (timeEntries (doc w2))
          = Some (index, entry)) as Hf2.
  { rewrite Hd2, Hd1. simpl. rewrite list_find_closeEntry, Hf. simpl.
    by rewrite closeEntry_idle. }
  destruct (updateTimeEntry_spec entryId
              (TimeEntryUpdates.mk None None None
                 (Some (toISOString (clock (clockReads w1)))) None None (Some true))
              w2 index entry Hf2) as (w' & -> & Hd & Hc & Hu).
  exists w'. rewrite Hc1 in *. split; [done|].
  rewrite Hd, Hd2, Hd1. simpl in *. split; [done|]. split; congruence.
Qed.

Lemma stopTimer_noop entryId w :
  (list_find (λ e, TimeEntry.id e = entryId) (timeEntries (doc w)) = None
   ∨ ∃ index entry,
       list_find (λ e, TimeEntry.id e = entryId) (timeEntries (doc w))
         = Some (index, entry)
       ∧ TimeEntry.isRunning entry = false) →
  stopTimer entryId w = (None, w).
Proof.
  unfold stopTimer, bind, loadData. change (data (loaded w)) with (doc w).
  intros [->|(index & entry & -> & ->)]; done.
Qed.

Lemma pauseTimer_noop entryId w :
  (list_find (λ e, TimeEntry.id e = entryId) (timeEntries (doc w)) = None
   ∨ ∃ index entry,
       list_find (λ e, TimeEntry.id e = entryId) (timeEntries (doc w))
         = Some (index, entry)
       ∧ TimeEntry.isRunning entry = false) →
  pauseTimer entryId w = (None, w).
Proof.
  unfold pauseTimer, bind, loadData. change (data (loaded w)) with (doc w).
  intros [->|(index & entry & -> & ->)]; done.
Qed.

Lemma resumeTimer_noop entryId w :
  (list_find (λ e, TimeEntry.id e = entryId) (timeEntries (doc w)) = None
   ∨ ∃ index entry,
       list_find (λ e, TimeEntry.id e = entryId) (timeEntries (doc w))
         = Some (index, entry)
       ∧ TimeEntry.isRunning entry = true) →
  resumeTimer entryId w = (None, w).
Proof.
  unfold resumeTimer, bind, loadData. change (data (loaded w)) with (doc w).
  intros [->|(index & entry & -> & ->)]; done.
Qed.

(** C4.  pauseTimer on a running entry (the first of that id) returns it
    with [duration] raised by the whole seconds since [startTime], with
    [isRunning] false, and with every other field, [startTime] and
    [endTime] among them, as it was; the document with that entry in place
    is handed to saveData.  On a missing or idle entry it returns null
    and the world is as before. *)
Theorem pauseTimer_accumulates (w : World) (entryId : string) :
  (∀ index entry,
     list_find (λ e, TimeEntry.id e = entryId) (timeEntries (doc w))
       = Some (index, entry) →
     TimeEntry.isRunning entry = true →
     ∃ w' e',
       pauseTimer entryId w = (Some e', w')
       ∧ TimeEntry.duration e'
         = (TimeEntry.duration entry
            + (clock (clockReads w) - Date_getTime (TimeEntry.startTime entry)) / 1000)%Z
       ∧ TimeEntry.isRunning e' = false
       ∧ TimeEntry.startTime e' = TimeEntry.startTime entry
       ∧ TimeEntry.endTime e' = TimeEntry.endTime entry
       ∧ TimeEntry.id e' = TimeEntry.id entry
       ∧ TimeEntry.projectId e' = TimeEntry.projectId entry
       ∧ TimeEntry.clientId e' = TimeEntry.clientId entry
       ∧ TimeEntry.description e' = TimeEntry.description entry
       ∧ TimeEntry.createdAt e' = TimeEntry.createdAt entry
       ∧ persisted
           (set_timeEntries (<[index := e']> (timeEntries (doc w))) (doc w)) w w')
  ∧ ((list_find (λ e, TimeEntry.id e = entryId) (timeEntries (doc w)) = None
      ∨ ∃ index entry,
          list_find (λ e, TimeEntry.id e = entryId) (timeEntries (doc w))
            = Some (index, entry)
          ∧ TimeEntry.isRunning entry = false) →
     pauseTimer entryId w = (None, w)).
Proof.
  split; [|apply pauseTimer_noop].
  intros index entry Hf Hr. unfold pauseTimer, bind, loadData.
  change (data (loaded w)) with (doc w). rewrite Hf, Hr. simpl.
  set (w1 := mkWorld _ _ _ _).
  destruct (updateTimeEntry_found entryId
              (TimeEntryUpdates.mk None None None None None
                 (Some (elapsed (clock (clockReads w)) entry)) (Some false))
              w1 index entry Hf) as (w' & -> & Hs & _).
  eexists _, _. split; [reflexivity|]. simpl.
  repeat (split; [done || (unfold elapsed; lia)|]).
  unfold persisted in *. rewrite Hs. simpl. by destruct (setItem_ok _).
Qed.

Lemma running_closed now (l : list TimeEntry.t) :
  filter (λ e, TimeEntry.isRunning e = true) (closeEntry now <$> l) = [].
Proof.
  induction l as [|e l IH]; [done|]. rewrite fmap_cons.
  rewrite filter_cons_False; [done|]. by rewrite closeEntry_not_running.
Qed.

Lemma filter_nil_Forall {A} (P : A → Prop) `{∀ x, Decision (P x)} (l : list A) :
  filter P l = [] ↔ Forall (λ x, ¬ P x) l.
Proof.
  induction l as [|x l IH]; [by split|].
  rewrite filter_cons, Forall_cons. case_decide; split; try done.
  - by intros [? _].
  - intros ?. split; [done|]. by apply IH.
  - intros [_ ?]. by apply IH.
Qed.

Lemma filter_insert_False {A} (P : A → Prop) `{∀ x, Decision (P x)}
    (l : list A) i x y :
  l !! i = Some x → ¬ P y →
  length (filter P (<[i := y]> l)) ≤ length (filter P l).
Proof.
  intros Hi Hy. rewrite insert_take_drop by (by eapply lookup_lt_Some).
  rewrite <- (take_drop_middle l i x Hi) at 3.
  rewrite !filter_app, !length_app, (filter_cons_False _ y) by done.
  rewrite filter_cons. case_decide; simpl; lia.
Qed.

Lemma filter_insert_only {A} (P : A → Prop) `{∀ x, Decision (P x)}
    (l : list A) i y :
  i < length l → filter P l = [] → P y → filter P (<[i := y]> l) = [y].
Proof.
  intros Hi Hn Hy. rewrite insert_take_drop by done.
  rewrite filter_app, filter_cons_True by done.
  apply filter_nil_Forall in Hn.
  rewrite (proj2 (filter_nil_Forall P (take i l))) by by apply Forall_take.
  rewrite (proj2 (filter_nil_Forall P (drop (S i) l))) by by apply Forall_drop.
  done.
Qed.

Lemma find_timer_cases entryId (d : AppData) (wanted : bool) :
  (list_find (λ e, TimeEntry.id e = entryId) (timeEntries d) = None
   ∨ ∃ index entry,
       list_find (λ e, TimeEntry.id e = entryId) (timeEntries d)
         = Some (index, entry)
       ∧ TimeEntry.isRunning entry = negb wanted)
  ∨ ∃ index entry,
      list_find (λ e, TimeEntry.id e = entryId) (timeEntries d)
        = Some (index, entry)
      ∧ TimeEntry.isRunning entry = wanted.
Proof.
  destruct (list_find _ _) as [[index entry]|]; [|by left; left].
  destruct (decide (TimeEntry.isRunning entry = wanted)) as [|Hne].
  - right. eauto.
  - left. right. exists index, entry. split; [done|].
    by destruct (TimeEntry.isRunning entry), wanted.
Qed.

Lemma call_at_most_one_running c w :
  length (running (doc w)) ≤ 1 → length (running (doc (call c w))) ≤ 1.
Proof.
  intros Hw. destruct c as [p cl ds|entryId|entryId|entryId]; unfold call.
  - destruct (startTimer_spec p cl ds w) as (w' & -> & Hd & _). simpl. rewrite Hd.
    unfold running. simpl. rewrite filter_app, running_closed.
    rewrite filter_cons_True by done. done.
  - destruct (find_timer_cases entryId (doc w) true)
      as [Hno|(index & entry & Hf & Hr)].
    + by rewrite stopTimer_noop.
    + destruct (stopTimer_spec entryId w index entry Hf Hr) as (w' & -> & Hd & _).
      simpl. rewrite Hd. unfold running in *. simpl.
      apply list_find_Some in Hf as (Hi & _).
      etrans; [by eapply filter_insert_False|done].
  - destruct (find_timer_cases entryId (doc w) true)
      as [Hno|(index & entry & Hf & Hr)].
    + by rewrite pauseTimer_noop.
    + destruct (pauseTimer_spec entryId w index entry Hf Hr) as (w' & -> & Hd & _).
      simpl. rewrite Hd. unfold running in *. simpl.
      apply list_find_Some in Hf as (Hi & _).
      etrans; [by eapply filter_insert_False|done].
  - destruct (find_timer_cases entryId (doc w) false)
      as [Hno|(index & entry & Hf & Hr)].
    + by rewrite resumeTimer_noop.
    + destruct (resumeTimer_spec entryId w index entry Hf Hr) as (w' & -> & Hd & _).
      simpl. rewrite Hd. unfold running. simpl.
      apply list_find_Some in Hf as (Hi & _).
      rewrite filter_insert_only; [done| |apply running_closed|done].
      rewrite length_fmap. by eapply lookup_lt_Some.
Qed.

(** C1 (as the code has it).  Single-timer invariant, for a store that
    accepts every write ([setItem_accepts]).  From a document with at most
    one running entry, the document after each call of any sequence of
    startTimer, stopTimer, pauseTimer and resumeTimer has at most one
    running entry.  From any document at all, startTimer leaves its new
    entry as the only running one: every entry that was running is
    closed, its [duration] raised by the whole seconds since its
    [startTime], its [endTime] set to the time of the call.  (startTimer
    and resumeTimer write twice, and saveData swallows a rejected write:
    without the first write the entries it closed are read back running.
    JSON.parse is taken to invert JSON.stringify on documents, whose text
    is not empty.) *)
Theorem single_timer_invariant :
  (∀ w cs,
     length (running (doc w)) ≤ 1 →
     Forall (λ w', length (running (doc w')) ≤ 1) (worldsAfter cs w))
  ∧ (∀ w projectId clientId description,
       let now := clock (clockReads w) in
       let e := fst (startTimer projectId clientId description w) in
       let w' := snd (startTimer projectId clientId description w) in
       running (doc w') = [e]
       ∧ length (timeEntries (doc w')) = S (length (timeEntries (doc w)))
       ∧ ∀ index old,
           timeEntries (doc w) !! index = Some old →
           TimeEntry.isRunning old = true →
           ∃ closed,
             timeEntries (doc w') !! index = Some closed
             ∧ TimeEntry.isRunning closed = false
             ∧ TimeEntry.duration closed
               = (TimeEntry.duration old
                  + (now - Date_getTime (TimeEntry.startTime old)) / 1000)%Z
             ∧ TimeEntry.endTime closed = Some (toISOString now)).
Proof.
  split.
  - intros w cs. revert w. induction cs as [|c cs IH]; intros w Hw; simpl.
    + constructor.
    + constructor; [by apply call_at_most_one_running|].
      apply IH. by apply call_at_most_one_running.
  - intros w p cl ds now e w'. subst now e w'.
    destruct (startTimer_spec p cl ds w) as (w' & -> & Hd & _). simpl.
    rewrite Hd. unfold running. simpl. split; [|split].
    + rewrite filter_app, running_closed. by rewrite filter_cons_True.
    + rewrite length_app, length_fmap. simpl. lia.
    + intros index old Hi Hr. exists (closeEntry (clock (clockReads w)) old).
      split.
      * rewrite lookup_app_l by (rewrite length_fmap; by eapply lookup_lt_Some).
        by rewrite list_lookup_fmap, Hi.
      * unfold closeEntry. rewrite Hr. simpl. unfold elapsed.
        repeat split; try done. lia.
Qed.

Lemma evolves_refl e : evolves e e.
Proof. by split. Qed.

Lemma evolves_trans e1 e2 e3 : evolves e1 e2 → evolves e2 e3 → evolves e1 e3.
Proof. intros [? ?] [? ?]. split; [congruence|auto]. Qed.

Lemma evolves_closeEntry now e : evolves e (closeEntry now e).
Proof.
  split; [apply closeEntry_id|]. unfold closeEntry.
  by destruct (TimeEntry.isRunning e).
Qed.

Lemma Forall2_evolves_refl es : Forall2 evolves es es.
Proof. apply Forall_Forall2_diag, Forall_forall. intros. apply evolves_refl. Qed.

Lemma Forall2_evolves_close now es : Forall2 evolves es (closeEntry now <$> es).
Proof.
  apply Forall2_fmap_r, Forall_Forall2_diag, Forall_forall.
  intros. apply evolves_closeEntry.
Qed.

Lemma Forall2_evolves_insert es es' i e e' :
  Forall2 evolves es es' → es !! i = Some e → evolves e e' →
  Forall2 evolves es (<[i := e']> es').
Proof.
  intros H2 Hi He. rewrite <- (list_insert_id es i e Hi).
  by apply Forall2_insert.
Qed.

Lemma extends_refl es : extends es es.
Proof. exists es, []. split; [by rewrite app_nil_r|apply Forall2_evolves_refl]. Qed.

Lemma extends_trans es1 es2 es3 : extends es1 es2 → extends es2 es3 → extends es1 es3.
Proof.
  intros (l1 & l2 & -> & H12) (m1 & m2 & -> & H23).
  apply Forall2_app_inv_l in H23 as (m1a & m1b & Ha & Hb & ->).
  exists m1a, (m1b ++ m2). split; [by rewrite app_assoc|].
  eapply Forall2_trans; [|exact H12|exact Ha]. apply evolves_trans.
Qed.

Lemma call_extends c w :
  extends (timeEntries (doc w)) (timeEntries (doc (call c w))).
Proof.
  destruct c as [p cl ds|entryId|entryId|entryId]; unfold call.
  - destruct (startTimer_spec p cl ds w) as (w' & -> & Hd & _). simpl. rewrite Hd.
    simpl. eexists _, _. split; [done|]. apply Forall2_evolves_close.
  - destruct (find_timer_cases entryId (doc w) true)
      as [Hno|(index & entry & Hf & Hr)].
    + rewrite stopTimer_noop by done. apply extends_refl.
    + destruct (stopTimer_spec entryId w index entry Hf Hr) as (w' & -> & Hd & _).
      simpl. rewrite Hd. simpl. apply list_find_Some in Hf as (Hi & _).
      exists (<[index := stoppedAt (clock (clockReads w)) entry]> (timeEntries (doc w))), [].
      split; [by rewrite app_nil_r|].
      eapply Forall2_evolves_insert; [apply Forall2_evolves_refl|done|].
      by split.
  - destruct (find_timer_cases entryId (doc w) true)
      as [Hno|(index & entry & Hf & Hr)].
    + rewrite pauseTimer_noop by done. apply extends_refl.
    + destruct (pauseTimer_spec entryId w index entry Hf Hr) as (w' & -> & Hd & _).
      simpl. rewrite Hd. simpl. apply list_find_Some in Hf as (Hi & _).
      exists (<[index := pausedAt (clock (clockReads w)) entry]> (timeEntries (doc w))), [].
      split; [by rewrite app_nil_r|].
      eapply Forall2_evolves_insert; [apply Forall2_evolves_refl|done|].
      by split.
  - destruct (find_timer_cases entryId (doc w) false)
      as [Hno|(index & entry & Hf & Hr)].
    + rewrite resumeTimer_noop by done. apply extends_refl.
    + destruct (resumeTimer_spec entryId w index entry Hf Hr) as (w' & -> & Hd & _).
      simpl. rewrite Hd. simpl. apply list_find_Some in Hf as (Hi & _).
      eexists _, []. split; [by rewrite app_nil_r|].
      eapply Forall2_evolves_insert; [apply Forall2_evolves_close|done|].
      by split.
Qed.

Lemma reachableFrom_extends w w' :
  reachableFrom w w' → extends (timeEntries (doc w)) (timeEntries (doc w')).
Proof.
  induction 1 as [|w' c _ IH _]; [apply extends_refl|].
  eapply extends_trans; [exact IH|apply call_extends].
Qed.

Lemma reachableFrom_trans w1 w2 w3 :
  reachableFrom w1 w2 → reachableFrom w2 w3 → reachableFrom w1 w3.
Proof. intros H12. induction 1; [done|]. by constructor. Qed.

Lemma ids_insert (es : list TimeEntry.t) i e e' :
  es !! i = Some e → TimeEntry.id e' = TimeEntry.id e →
  TimeEntry.id <$> <[i := e']> es = TimeEntry.id <$> es.
Proof.
  intros Hi He. rewrite list_fmap_insert, He.
  apply list_insert_id. by rewrite list_lookup_fmap, Hi.
Qed.

Lemma ids_close now (es : list TimeEntry.t) :
  TimeEntry.id <$> (closeEntry now <$> es) = TimeEntry.id <$> es.
Proof.
  rewrite <- list_fmap_compose. apply list_fmap_ext.
  intros i e _. apply closeEntry_id.
Qed.

Lemma timerInv_insert w w' i e e' (es0 : list TimeEntry.t) :
  timeEntries (doc w') = <[i := e']> es0 →
  es0 !! i = Some e →
  TimeEntry.id e' = TimeEntry.id e →
  (TimeEntry.endTime e' ≠ None → TimeEntry.isRunning e' = false) →
  uuidsDrawn w' = uuidsDrawn w →
  NoDup (TimeEntry.id <$> es0) →
  Forall (λ e, ∃ k, k < uuidsDrawn w ∧ TimeEntry.id e = uuids k) es0 →
  Forall (λ e, TimeEntry.endTime e ≠ None → TimeEntry.isRunning e = false) es0 →
  timerInv w'.
Proof.
  intros Hd Hi Hid He' Hu Hnd Hb Hc. unfold timerInv. rewrite Hd, Hu.
  split; [|split].
  - by rewrite (ids_insert es0 i e e').
  - apply Forall_insert; [done|]. rewrite Hid.
    by apply (Forall_lookup_1 _ _ _ _ Hb Hi).
  - by apply Forall_insert.
Qed.

Lemma call_timerInv c w : admissible c w → timerInv w → timerInv (call c w).
Proof.
  intros Hadm (Hnd & Hb & Hc).
  destruct c as [p cl ds|entryId|entryId|entryId]; unfold call.
  - destruct (startTimer_spec p cl ds w) as (w' & -> & Hd & _ & Hu). simpl.
    unfold timerInv. rewrite Hd, Hu. simpl. split; [|split].
    + rewrite fmap_app, ids_close. simpl. apply NoDup_app.
      split; [done|]. split; [|apply NoDup_singleton].
      intros x Hx ->%list_elem_of_singleton.
      apply list_elem_of_fmap in Hx as (e & He & Hin).
      apply (proj1 (Forall_forall _ _) Hb) in Hin as (k & Hk & Hid).
      rewrite Hid in He. apply uuids_inj in He. lia.
    + apply Forall_app. split.
      * apply Forall_fmap. eapply Forall_impl; [exact Hb|].
        intros e (k & ? & ?). exists k. simpl. rewrite closeEntry_id.
        split; [lia|done].
      * apply Forall_singleton. exists (uuidsDrawn w). simpl. split; [lia|done].
    + apply Forall_app. split.
      * apply Forall_fmap, Forall_forall. intros e _ _. simpl.
        apply closeEntry_not_running.
      * by apply Forall_singleton.
  - destruct (find_timer_cases entryId (doc w) true)
      as [Hno|(index & entry & Hf & Hr)].
    + by rewrite stopTimer_noop.
    + destruct (stopTimer_spec entryId w index entry Hf Hr)
        as (w' & -> & Hd & _ & Hu).
      simpl. apply list_find_Some in Hf as (Hi & _).
      apply (timerInv_insert w w' index entry
               (stoppedAt (clock (clockReads w)) entry) (timeEntries (doc w)));
        try done.
      by rewrite Hd.
  - destruct (find_timer_cases entryId (doc w) true)
      as [Hno|(index & entry & Hf & Hr)].
    + by rewrite pauseTimer_noop.
    + destruct (pauseTimer_spec entryId w index entry Hf Hr)
        as (w' & -> & Hd & _ & Hu).
      simpl. apply list_find_Some in Hf as (Hi & _).
      apply (timerInv_insert w w' index entry
               (pausedAt (clock (clockReads w)) entry) (timeEntries (doc w)));
        try done.
      by rewrite Hd.
  - destruct (find_timer_cases entryId (doc w) false)
      as [Hno|(index & entry & Hf & Hr)].
    + by rewrite resumeTimer_noop.
    + destruct (resumeTimer_spec entryId w index entry Hf Hr)
        as (w' & -> & Hd & _ & Hu).
      simpl. pose proof (Hadm index entry Hf) as Hend.
      apply list_find_Some in Hf as (Hi & _).
      apply (timerInv_insert w w' index (closeEntry (clock (clockReads w)) entry)
               (resumedAt (clock (S (clockReads w))) entry)
               (closeEntry (clock (clockReads w)) <$> timeEntries (doc w))).
      * by rewrite Hd.
      * by rewrite list_lookup_fmap, Hi.
      * simpl. by rewrite closeEntry_id.
      * simpl. by rewrite Hend.
      * done.
      * by rewrite ids_close.
      * apply Forall_fmap. eapply Forall_impl; [exact Hb|].
        intros e (k & ? & ?). exists k. simpl. by rewrite closeEntry_id.
      * apply Forall_fmap, Forall_forall. intros e _ _. simpl.
        apply closeEntry_not_running.
Qed.

Lemma reachableFrom_timerInv w w' :
  timerInv w → reachableFrom w w' → timerInv w'.
Proof. intros Hw. induction 1; [done|]. by apply call_timerInv. Qed.

Lemma timerInv_empty w : timeEntries (doc w) = [] → timerInv w.
Proof.
  intros He. unfold timerInv. rewrite He. simpl.
  split; [apply NoDup_nil_2|]. by split.
Qed.

(** With distinct ids, [find] by the id of an entry returns that entry. *)

Lemma list_find_own_id (es : list TimeEntry.t) e :
  NoDup (TimeEntry.id <$> es) → e ∈ es →
  ∃ index, list_find (λ e', TimeEntry.id e' = TimeEntry.id e) es = Some (index, e).
Proof.
  intros Hnd (index & Hi)%list_elem_of_lookup. exists index.
  apply list_find_Some. split; [done|]. split; [done|].
  intros j y Hj Hlt Hy.
  assert (j = index); [|lia].
  eapply (NoDup_lookup _ j index); [exact Hnd|..].
  - by rewrite list_lookup_fmap, Hj.
  - by rewrite list_lookup_fmap, Hi, Hy.
Qed.

(** In a later document, the entries of one id are the evolved entry. *)

Lemma extends_same_id (es es' : list TimeEntry.t) e e' :
  extends es es' → NoDup (TimeEntry.id <$> es') →
  e ∈ es → e' ∈ es' → TimeEntry.id e' = TimeEntry.id e → evolves e e'.
Proof.
  intros (l1 & l2 & -> & H2) Hnd (i & Hi)%list_elem_of_lookup
    (j & Hj)%list_elem_of_lookup Hid.
  destruct (Forall2_lookup_l _ _ _ _ _ H2 Hi) as (e1 & Hi1 & Hev).
  assert ((l1 ++ l2) !! i = Some e1) as Hi'.
  { rewrite lookup_app_l; [done|]. by eapply lookup_lt_Some. }
  assert (j = i) as ->.
  { eapply (NoDup_lookup _ j i); [exact Hnd|..].
    - by rewrite list_lookup_fmap, Hj.
    - rewrite list_lookup_fmap, Hi'. simpl. destruct Hev as [-> _].
      by rewrite Hid. }
  congruence.
Qed.

Lemma pauseTimer_keeps_endTime entryId w :
  TimeEntry.endTime <$> timeEntries (doc (call (PauseTimer entryId) w))
  = TimeEntry.endTime <$> timeEntries (doc w).
Proof.
  unfold call.
  destruct (find_timer_cases entryId (doc w) true)
    as [Hno|(index & entry & Hf & Hr)].
  - by rewrite pauseTimer_noop.
  - destruct (pauseTimer_spec entryId w index entry Hf Hr) as (w' & -> & Hd & _).
    simpl. rewrite Hd. simpl. apply list_find_Some in Hf as (Hi & _).
    rewrite list_fmap_insert. simpl. apply list_insert_id.
    by rewrite list_lookup_fmap, Hi.
Qed.


(** What the code does on a stopped entry: start, stop, resume leaves the
    one entry running with the [endTime] of the stop. *)

Lemma start_stop_resume w :
  timeEntries (doc w) = [] →
  let c := clockReads w in
  let entryId := uuids (uuidsDrawn w) in
  let w1 := call (StartTimer "" "" "") w in
  let w2 := call (StopTimer entryId) w1 in
  let w3 := call (ResumeTimer entryId) w2 in
  ∃ e, timeEntries (doc w2) = [e]
    ∧ TimeEntry.id e = entryId
    ∧ TimeEntry.isRunning e = false
    ∧ TimeEntry.endTime e = Some (toISOString (clock (S (S (S c)))))
    ∧ fst (resumeTimer entryId w2) = Some (resumedAt (clock (S (S (S (S (S c)))))) e)
    ∧ timeEntries (doc w3) = [resumedAt (clock (S (S (S (S (S c)))))) e].
Proof.
  intros Hempty c entryId w1 w2 w3. subst c entryId w1 w2 w3. unfold call.
  destruct (startTimer_spec "" "" "" w) as (w1 & -> & Hd1 & Hc1 & Hu1). simpl.
  rewrite Hempty in Hd1. simpl in Hd1.
  set (e1 := TimeEntry.mk _ _ _ _ _ _ _ _ _) in Hd1.
  assert (list_find (λ e, TimeEntry.id e = uuids (uuidsDrawn w))
            (timeEntries (doc w1)) = Some (0, e1)) as Hf1.
  { rewrite Hd1. simpl. rewrite decide_True; done. }
  destruct (stopTimer_spec _ w1 0 e1 Hf1 eq_refl) as (w2 & -> & Hd2 & Hc2 & Hu2).
  simpl. rewrite Hd1 in Hd2. simpl in Hd2.
  set (e2 := stoppedAt _ e1) in *.
  assert (list_find (λ e, TimeEntry.id e = uuids (uuidsDrawn w))
            (timeEntries (doc w2)) = Some (0, e2)) as Hf2.
  { rewrite Hd2. simpl. rewrite decide_True; done. }
  destruct (resumeTimer_spec _ w2 0 e2 Hf2 eq_refl) as (w3 & -> & Hd3 & _).
  simpl. exists e2. rewrite Hd3, Hd2, Hc2, Hc1. simpl.
  repeat split; try done. by rewrite Hc1.
Qed.

(** ** CSV export *)

Lemma insertBy_fmap {A B} (f : A → B) (compare : B → B → Z) x (l : list A) :
  insertBy compare (f x) (f <$> l)
  = f <$> insertBy (λ a b, compare (f a) (f b)) x l.
Proof.
  induction l as [|y l IH]; [done|]. rewrite fmap_cons. cbn [insertBy].
  case_decide; rewrite !fmap_cons; [done|]. by rewrite IH.
Qed.

Lemma sortBy_fmap {A B} (f : A → B) (compare : B → B → Z) (l : list A) :
  sortBy compare (f <$> l) = f <$> sortBy (λ a b, compare (f a) (f b)) l.
Proof.
  induction l as [|x l IH]; [done|]. unfold sortBy in *.
  rewrite fmap_cons. cbn [foldr]. by rewrite IH, insertBy_fmap.
Qed.

Lemma insertBy_Permutation {A} (compare : A → A → Z) x (l : list A) :
  insertBy compare x l ≡ₚ x :: l.
Proof.
  induction l as [|y l IH]; [done|]. simpl. case_decide; [done|].
  rewrite IH. apply Permutation_swap.
Qed.

Lemma sortBy_Permutation {A} (compare : A → A → Z) (l : list A) :
  sortBy compare l ≡ₚ l.
Proof.
  induction l as [|x l IH]; [done|]. unfold sortBy in *. simpl.
  by rewrite insertBy_Permutation, IH.
Qed.

Section ByKey.

Context {A : Type} (key : A → Z).

Let descending (a b : A) : Prop := (key b ≤ key a)%Z.
Let compare (a b : A) : Z := (key b - key a)%Z.

Lemma insertBy_descending x l :
  StronglySorted descending l → StronglySorted descending (insertBy compare x l).
Proof.
  induction 1 as [|y l Hl IH Hy]; simpl.
  - repeat constructor.
  - case_decide as Hc.
    + constructor; [by constructor|]. constructor; [unfold descending, compare in *; lia|].
      eapply Forall_impl; [exact Hy|]. unfold descending, compare in *.
      intros z ?. lia.
    + constructor; [done|].
      rewrite insertBy_Permutation. constructor; [|done].
      unfold descending, compare in *. lia.
Qed.

Lemma sortBy_descending l : StronglySorted descending (sortBy compare l).
Proof.
  induction l as [|x l IH]; [constructor|]. by apply insertBy_descending.
Qed.

End ByKey.

Lemma doubleQuotes_app s1 s2 :
  doubleQuotes (s1 +:+ s2) = doubleQuotes s1 +:+ doubleQuotes s2.
Proof.
  induction s1 as [|c s1 IH]; [done|]. simpl.
  case_decide; simpl; by rewrite IH.
Qed.

Lemma minutes_two_digits (m : Z) :
  (0 ≤ m < 60)%Z → String.length (padStart0 2 (pretty m)) = 2.
Proof.
  intros Hm.
  assert (Forall (λ m : Z, String.length (padStart0 2 (pretty m)) = 2) (seqZ 0 60))
    as Hall by (apply (bool_decide_unpack _); by vm_compute).
  apply (proj1 (Forall_forall _ _) Hall), elem_of_seqZ. lia.
Qed.

Lemma minutes_padded (m : Z) :
  (0 ≤ m < 60)%Z →
  padStart0 2 (pretty m)
  = if decide (m < 10)%Z then "0" +:+ pretty m else pretty m.
Proof.
  intros Hm.
  assert (Forall (λ m : Z, padStart0 2 (pretty m)
                           = if decide (m < 10)%Z then "0" +:+ pretty m
                             else pretty m) (seqZ 0 60))
    as Hall by (apply (bool_decide_unpack _); by vm_compute).
  apply (proj1 (Forall_forall _ _) Hall), elem_of_seqZ. lia.
Qed.

(** [join] is [String.concat] of the Standard Library. *)

Lemma join_concat sep (l : list string) : join sep l = String.concat sep l.
Proof.
  induction l as [|x l IH]; [done|]. destruct l as [|y l]; [done|].
  change (join sep (x :: y :: l)) with (x +:+ sep +:+ join sep (y :: l)).
  change (String.concat sep (x :: y :: l))
    with (x +:+ sep +:+ String.concat sep (y :: l)).
  by rewrite IH.
Qed.

(** [split] takes apart what was put together around the separator. *)

Lemma split_piece sep (s : string) :
  sep ∉ String.list_ascii_of_string s → split sep s = [s].
Proof.
  induction s as [|c s IH]; [done|]. simpl. intros Hs.
  rewrite decide_False by (intros ->; apply Hs; left).
  rewrite IH; [done|]. intros ?. apply Hs. by right.
Qed.

Lemma split_first_piece sep (s rest : string) :
  sep ∉ String.list_ascii_of_string s →
  split sep (s +:+ String sep rest) = s :: split sep rest.
Proof.
  induction s as [|c s IH]; simpl; intros Hs.
  - by rewrite decide_True.
  - rewrite decide_False by (intros ->; apply Hs; left).
    rewrite IH; [done|]. intros ?. apply Hs. by right.
Qed.

Lemma split_concat sep (pieces : list string) :
  pieces ≠ [] →
  Forall (λ piece, sep ∉ String.list_ascii_of_string piece) pieces →
  split sep (String.concat (String sep "") pieces) = pieces.
Proof.
  intros Hne Hall. induction Hall as [|x l Hx Hl IH]; [done|].
  destruct l as [|y l]; [by apply split_piece|].
  change (String.concat (String sep "") (x :: y :: l))
    with (x +:+ String sep (String.concat (String sep "") (y :: l))).
  rewrite split_first_piece by done. by rewrite IH.
Qed.

(** The key of the sort: the pieces of the date between the dots, put
    together in reverse around hyphens, and that text read as a Date. *)

Lemma entryDate_pieces (e : TimeEntry.t) (pieces : list string) :
  pieces ≠ [] →
  Forall (λ piece, "."%char ∉ String.list_ascii_of_string piece) pieces →
  toLocaleDateString (Date_getTime (TimeEntry.startTime e))
    = String.concat "." pieces →
  entryDate e = Date_getTime (String.concat "-" (reverse pieces)).
Proof.
  intros Hne Hall Hdate. unfold entryDate. rewrite Hdate.
  by rewrite (split_concat dot), join_concat.
Qed.

(** The exported text, written with [String.concat]. *)

Lemma exportToCSV_text (w : World) :
  exportToCSV w
  = (String.concat (String "010"%char "")
       ((λ row,
           String.concat ";"
             ((λ cell, String "034"%char (doubleQuotes cell +:+ String "034"%char ""))
                <$> row))
          <$> (["Datum"; "Kunde"; "Projekt"; "Beschreibung"; "Start"; "Ende";
                "Dauer (h)"; "Dauer (Std:Min)"]
               :: (csvRow (doc w)
                     <$> sortBy (λ a b, (entryDate b - entryDate a)%Z)
                           (timeEntries (doc w))))),
     w).
Proof.
  unfold exportToCSV, bind, loadData, ret. cbv beta iota zeta.
  change (data (loaded w)) with (doc w). rewrite sortBy_fmap, join_concat.
  apply (f_equal (λ text, (text, w))), (f_equal (String.concat _)).
  apply (list_fmap_ext csvLine). intros i row _.
  unfold csvLine. by rewrite join_concat.
Qed.


Lemma settled_loaded w :
  settled w → isDefaultData (loaded w) = true → data (loaded w) = emptyData.
Proof.
  intros [Hd|(d & Hs)] Hdef.
  - by rewrite loaded_isDefaultData.
  - by rewrite (loaded_stored d) in Hdef.
Qed.

(** A call that neither saves nor, through a settled world, reaches
    [defaultData] with anything but empty arrays. *)

Lemma settled_unsaved w w' :
  settled w → localStorage w' = localStorage w →
  (defaultData w = emptyData → w' = w) → settled w'.
Proof.
  intros [Hd|(d & Hs)] Hls Hsame.
  - left. by rewrite (Hsame Hd).
  - right. exists d. by rewrite Hls.
Qed.

Lemma deleteProject_unmatched id w :
  Forall (λ p, Project.id p ≠ id) (projects (doc w)) →
  ∃ w', deleteProject id w = (false, w')
    ∧ localStorage w' = localStorage w
    ∧ (defaultData w = emptyData → w' = w).
Proof.
  unfold doc. intros Hn. unfold deleteProject. exec.
  rewrite (filter_Forall_id _ _ Hn).
  case_decide; [lia|]. eexists. split; [reflexivity|].
  destruct (isDefaultData (loaded w)) eqn:Hd; [|done].
  split; [done|]. intros He.
  rewrite (loaded_isDefaultData w Hd), He. simpl.
  rewrite ?filter_nil. destruct w; simpl in *; by subst.
Qed.

Lemma deleteTimeEntry_unmatched id w :
  Forall (λ e, TimeEntry.id e ≠ id) (timeEntries (doc w)) →
  ∃ w', deleteTimeEntry id w = (false, w')
    ∧ localStorage w' = localStorage w
    ∧ (defaultData w = emptyData → w' = w).
Proof.
  unfold doc. intros Hn. unfold deleteTimeEntry. exec.
  rewrite (filter_Forall_id _ _ Hn).
  case_decide; [lia|]. eexists. split; [reflexivity|].
  destruct (isDefaultData (loaded w)) eqn:Hd; [|done].
  split; [done|]. intros He.
  assert (data (loaded w) = defaultData w) as Hdata
    by by apply loaded_isDefaultData.
  rewrite Hdata in Hn |- *. rewrite He in Hn |- *. simpl.
  rewrite ?filter_nil. destruct w; simpl in *; by subst.
Qed.

Lemma deleteClient_settled id w : settled w → settled (snd (deleteClient id w)).
Proof.
  intros Hw.
  destruct (decide (Forall (λ c, Client.id c ≠ id) (clients (doc w)))) as [Hn|Hm].
  - destruct (deleteClient_unmatched id w Hn) as (w' & -> & ? & ?).
    by eapply settled_unsaved.
  - right. unfold deleteClient. exec_ok. unfold doc in Hm.
    case_decide as Hlt; simpl; [by eexists|].
    exfalso. apply Hm. apply Forall_forall. intros c Hc Hid.
    apply Hlt, length_filter_lt_iff. exists c. split; [done|]. by intros ?.
Qed.

Lemma deleteProject_settled id w : settled w → settled (snd (deleteProject id w)).
Proof.
  intros Hw.
  destruct (decide (Forall (λ p, Project.id p ≠ id) (projects (doc w)))) as [Hn|Hm].
  - destruct (deleteProject_unmatched id w Hn) as (w' & -> & ? & ?).
    by eapply settled_unsaved.
  - right. unfold deleteProject. exec_ok. unfold doc in Hm.
    case_decide as Hlt; simpl; [by eexists|].
    exfalso. apply Hm. apply Forall_forall. intros p Hp Hid.
    apply Hlt, length_filter_lt_iff. exists p. split; [done|]. by intros ?.
Qed.

Lemma deleteTimeEntry_settled id w :
  settled w → settled (snd (deleteTimeEntry id w)).
Proof.
  intros Hw.
  destruct (decide (Forall (λ e, TimeEntry.id e ≠ id) (timeEntries (doc w))))
    as [Hn|Hm].
  - destruct (deleteTimeEntry_unmatched id w Hn) as (w' & -> & ? & ?).
    by eapply settled_unsaved.
  - right. unfold deleteTimeEntry. exec_ok. unfold doc in Hm.
    case_decide as Hlt; simpl; [by eexists|].
    exfalso. apply Hm. apply Forall_forall. intros e He Hid.
    apply Hlt, length_filter_lt_iff. exists e. split; [done|]. by intros ?.
Qed.

Lemma updateTimeEntry_settled id u w :
  settled w → settled (snd (updateTimeEntry id u w)).
Proof.
  intros Hw.
  destruct (list_find (λ e, TimeEntry.id e = id) (timeEntries (doc w)))
    as [[index e]|] eqn:Hf.
  - destruct (updateTimeEntry_found id u w index e Hf) as (w' & -> & Hs & _).
    right. eexists. by eapply persisted_accepted.
  - by rewrite updateTimeEntry_not_found.
Qed.

Lemma stopAllRunningTimers_saved w : saved (snd (stopAllRunningTimers w)).
Proof. unfold stopAllRunningTimers. exec_ok. by eexists. Qed.

Lemma addTimeEntry_saved entry w : saved (snd (addTimeEntry entry w)).
Proof. unfold addTimeEntry. exec_ok. by eexists. Qed.

Lemma call_settled c w : settled w → settled (call c w).
Proof.
  intros Hw. destruct c as [p cl ds|entryId|entryId|entryId]; unfold call.
  - right. unfold startTimer, bind.
    destruct (stopAllRunningTimers w) as [[] w1].
    destruct (newDate w1) as [now w2]. apply addTimeEntry_saved.
  - unfold stopTimer, bind, loadData.
    destruct (list_find _ _) as [[index entry]|]; [|done].
    destruct (negb (TimeEntry.isRunning entry)); [done|].
    destruct (newDate w) as [now w1] eqn:Hn.
    apply updateTimeEntry_settled.
    injection Hn as _ <-. destruct Hw as [?|[d ?]]; [by left|right; by exists d].
  - unfold pauseTimer, bind, loadData.
    destruct (list_find _ _) as [[index entry]|]; [|done].
    destruct (negb (TimeEntry.isRunning entry)); [done|].
    destruct (newDate w) as [now w1] eqn:Hn.
    apply updateTimeEntry_settled.
    injection Hn as _ <-. destruct Hw as [?|[d ?]]; [by left|right; by exists d].
  - unfold resumeTimer, bind, loadData.
    destruct (list_find _ _) as [[index entry]|]; [|done].
    destruct (TimeEntry.isRunning entry); [done|].
    pose proof (stopAllRunningTimers_saved w) as [d Hd].
    destruct (stopAllRunningTimers w) as [[] w1].
    destruct (newDate w1) as [now w2] eqn:Hn.
    apply updateTimeEntry_settled.
    injection Hn as _ <-. right. by exists d.
Qed.

Lemma apiCall_settled c w : settled w → settled (apiCall c w).
Proof.
  intros Hw. destruct c; unfold apiCall.
  - right. unfold addClient. exec_ok. by eexists.
  - unfold updateClient. exec.
    destruct (list_find _ _) as [[index c]|]; [|done]. simpl.
    rewrite setItem_accepts. right. by eexists.
  - by apply deleteClient_settled.
  - right. unfold addProject. exec_ok. by eexists.
  - unfold updateProject. exec.
    destruct (list_find _ _) as [[index p]|]; [|done]. simpl.
    rewrite setItem_accepts. right. by eexists.
  - by apply deleteProject_settled.
  - right. apply addTimeEntry_saved.
  - by apply updateTimeEntry_settled.
  - by apply deleteTimeEntry_settled.
  - right. apply stopAllRunningTimers_saved.
  - by apply call_settled.
Qed.

Lemma apiReachable_settled stored w :
  apiReachable (freshWorld stored) w → settled w.
Proof. induction 1; [by left|]. by apply apiCall_settled. Qed.

(** What a call has written into [defaultData] is never read back: the
    document a call sees is the one it would see with [defaultData] as
    declared. *)

Lemma defaultData_never_read stored w :
  apiReachable (freshWorld stored) w →
  data (loaded w) = data (loaded (set_defaultData emptyData w)).
Proof.
  intros [Hd|(d & Hs)]%apiReachable_settled.
  - destruct w as [dd ls cr ud]. simpl in Hd. by subst dd.
  - by rewrite (loaded_stored d w), (loaded_stored d (set_defaultData emptyData w)).
Qed.

(** What loadData returns, in any world: the spread of the parsed object
    over [defaultData] as it is at the time of the call. *)

Lemma loaded_spread (w : World) :
  let h := fst (loadData w) in
  (∀ stored o,
     localStorage w = Some stored → JSON_parse stored = Some (JSObject o) →
     isDefaultData h = false
     ∧ clients (data h) = default (clients (defaultData w)) (rawClients o)
     ∧ projects (data h) = default (projects (defaultData w)) (rawProjects o)
     ∧ timeEntries (data h)
       = default (timeEntries (defaultData w)) (rawTimeEntries o))
  ∧ (isDefaultData h = true ↔
       localStorage w = None
       ∨ ∃ stored, localStorage w = Some stored ∧ JSON_parse stored = None)
  ∧ (isDefaultData h = true → data h = defaultData w).
Proof.
  intros h. subst h. unfold loadData, loaded. simpl.
  destruct (localStorage w) as [stored|] eqn:Hs; simpl.
  - case_bool_decide as He.
    + subst stored. split; [|split]; simpl; [| |done].
      * intros s o [= <-]. by rewrite parse_empty.
      * split; [|done]. intros _. right. eauto.
    + destruct (JSON_parse stored) as [[o|]|] eqn:Hp; simpl;
        (split; [|split]; simpl; [| |done]).
      * intros s o' [= <-]. rewrite Hp. by intros [= <-].
      * split; [done|]. intros [?|(s & [= <-] & ?)]; congruence.
      * intros s o' [= <-]. by rewrite Hp.
      * split; [done|]. intros [?|(s & [= <-] & ?)]; congruence.
      * intros s o' [= <-]. by rewrite Hp.
      * split; [|done]. intros _. right. eauto.
  - split; [|split]; simpl; [done| |done]. split; [|done]. intros _. by left.
Qed.

(** ** The repository: adding and deleting *)

Lemma addClient_spec client w :
  let c := newClientOf client (uuids (uuidsDrawn w))
             (toISOString (clock (clockReads w))) in
  ∃ w', addClient client w = (c, w')
    ∧ doc w' = set_clients (clients (doc w) ++ [c]) (doc w)
    ∧ clockReads w' = S (clockReads w)
    ∧ uuidsDrawn w' = S (uuidsDrawn w).
Proof.
  unfold addClient. exec_ok. eexists. split; [reflexivity|].
  split; [|by destruct (sharesClients (loaded w))].
  by apply doc_stored.
Qed.

Lemma addProject_spec project w :
  let p := newProjectOf project (uuids (uuidsDrawn w))
             (toISOString (clock (clockReads w))) in
  ∃ w', addProject project w = (p, w')
    ∧ doc w' = set_projects (projects (doc w) ++ [p]) (doc w)
    ∧ clockReads w' = S (clockReads w)
    ∧ uuidsDrawn w' = S (uuidsDrawn w).
Proof.
  unfold addProject. exec_ok. eexists. split; [reflexivity|].
  split; [|by destruct (sharesProjects (loaded w))].
  by apply doc_stored.
Qed.

(** X2.  deleteProject returns true exactly when the document holds a Project
    of that id.  In that case it hands to saveData the document without
    the Projects of that id and without the TimeEntries whose
    [projectId] is the id; the Clients, the client of the project among
    them, and every other Project and TimeEntry stay, in order. *)
Theorem deleteProject_cascade (w : World) (id : string) :
  let d := doc w in
  (fst (deleteProject id w) = true ↔ ∃ p, p ∈ projects d ∧ Project.id p = id)
  ∧ ((∃ p, p ∈ projects d ∧ Project.id p = id) →
     persisted
       (mkAppData (clients d)
          (filter (λ p, Project.id p ≠ id) (projects d))
          (filter (λ e, TimeEntry.projectId e ≠ Some id) (timeEntries d)))
       w (snd (deleteProject id w))).
Proof.
  intros d. subst d. unfold doc.
  assert (length (filter (λ p, Project.id p ≠ id) (projects (data (loaded w))))
          < length (projects (data (loaded w)))
          ↔ ∃ p, p ∈ projects (data (loaded w)) ∧ Project.id p = id) as Hlen.
  { rewrite length_filter_lt_iff.
    split; intros (p & ? & Hp); exists p; split; try done.
    - by destruct (decide (Project.id p = id)).
    - by intros ?. }
  unfold deleteProject. exec. split.
  - case_decide as Hlt; simpl.
    + split; [intros _; by apply Hlen|done].
    + split; [done|]. intros Hex. by apply Hlen in Hex.
  - intros Hex. apply Hlen in Hex. case_decide; [|done]. simpl.
    apply persisted_save. by destruct (isDefaultData (loaded w)).
Qed.

(** X3.  deleteTimeEntry returns true exactly when the document holds a
    TimeEntry of that id.  In that case it hands to saveData the document
    without every TimeEntry of that id; Clients, Projects and the other
    TimeEntries stay, in order. *)
Theorem deleteTimeEntry_removes (w : World) (id : string) :
  let d := doc w in
  (fst (deleteTimeEntry id w) = true
   ↔ ∃ e, e ∈ timeEntries d ∧ TimeEntry.id e = id)
  ∧ ((∃ e, e ∈ timeEntries d ∧ TimeEntry.id e = id) →
     persisted
       (set_timeEntries (filter (λ e, TimeEntry.id e ≠ id) (timeEntries d)) d)
       w (snd (deleteTimeEntry id w))).
Proof.
  intros d. subst d. unfold doc.
  assert (length (filter (λ e, TimeEntry.id e ≠ id)
                    (timeEntries (data (loaded w))))
          < length (timeEntries (data (loaded w)))
          ↔ ∃ e, e ∈ timeEntries (data (loaded w)) ∧ TimeEntry.id e = id)
    as Hlen.
  { rewrite length_filter_lt_iff.
    split; intros (e & ? & He); exists e; split; try done.
    - by destruct (decide (TimeEntry.id e = id)).
    - by intros ?. }
  unfold deleteTimeEntry. exec. split.
  - case_decide as Hlt; simpl.
    + split; [intros _; by apply Hlen|done].
    + split; [done|]. intros Hex. by apply Hlen in Hex.
  - intros Hex. apply Hlen in Hex. case_decide; [|done]. simpl.
    apply persisted_save. by destruct (isDefaultData (loaded w)).
Qed.

Lemma loaded_default_again w w' :
  isDefaultData (loaded w) = true → localStorage w' = localStorage w →
  loaded w' = theDefaultData w'.
Proof.
  unfold loaded. intros Hd ->. destruct (localStorage w) as [stored|]; [|done].
  case_bool_decide; [done|].
  by destruct (JSON_parse stored) as [[o|]|].
Qed.

Lemma Forall_filter_self {A} (P : A → Prop) `{∀ x, Decision (P x)} (l : list A) :
  Forall P (filter P l).
Proof. apply Forall_forall. by intros x [? ?]%list_elem_of_filter. Qed.

Lemma updateClient_not_found id u w :
  Forall (λ c, Client.id c ≠ id) (clients (doc w)) →
  updateClient id u w = (None, w).
Proof.
  intros Hn. apply (list_find_none_Forall (λ c, Client.id c = id)) in Hn.
  unfold updateClient, doc in *. exec. by rewrite Hn.
Qed.

Lemma updateProject_not_found id u w :
  Forall (λ p, Project.id p ≠ id) (projects (doc w)) →
  updateProject id u w = (None, w).
Proof.
  intros Hn. apply (list_find_none_Forall (λ p, Project.id p = id)) in Hn.
  unfold updateProject, doc in *. exec. by rewrite Hn.
Qed.

Lemma doc_saved d w : doc (set_localStorage (Some (JSON_stringify d)) w) = d.
Proof. by apply doc_stored. Qed.

(** The document after a delete, whether or not it was saved. *)

Lemma deleteClient_clients id w :
  clients (doc (snd (deleteClient id w)))
  = filter (λ c, Client.id c ≠ id) (clients (doc w)).
Proof.
  unfold deleteClient. exec_ok. case_decide as Hlt; simpl.
  - by rewrite doc_saved.
  - unfold doc. destruct (isDefaultData (loaded w)) eqn:Hd; [|simpl].
    + erewrite loaded_default_again; [|done|done]. done.
    + symmetry. apply filter_Forall_id, Forall_forall. intros c Hc Hid.
      apply Hlt, length_filter_lt_iff. exists c. split; [done|]. by intros ?.
Qed.

Lemma deleteProject_projects id w :
  projects (doc (snd (deleteProject id w)))
  = filter (λ p, Project.id p ≠ id) (projects (doc w)).
Proof.
  unfold deleteProject. exec_ok. case_decide as Hlt; simpl.
  - by rewrite doc_saved.
  - unfold doc. destruct (isDefaultData (loaded w)) eqn:Hd; [|simpl].
    + erewrite loaded_default_again; [|done|done]. done.
    + symmetry. apply filter_Forall_id, Forall_forall. intros p Hp Hid.
      apply Hlt, length_filter_lt_iff. exists p. split; [done|]. by intros ?.
Qed.

Lemma deleteTimeEntry_timeEntries id w :
  timeEntries (doc (snd (deleteTimeEntry id w)))
  = filter (λ e, TimeEntry.id e ≠ id) (timeEntries (doc w)).
Proof.
  unfold deleteTimeEntry. exec_ok. case_decide as Hlt; simpl.
  - by rewrite doc_saved.
  - unfold doc. destruct (isDefaultData (loaded w)) eqn:Hd; [|simpl].
    + erewrite loaded_default_again; [|done|done]. done.
    + symmetry. apply filter_Forall_id, Forall_forall. intros e He Hid.
      apply Hlt, length_filter_lt_iff. exists e. split; [done|]. by intros ?.
Qed.

Lemma unmatched_false_same (r : bool * World) w :
  (∃ w', r = (false, w') ∧ localStorage w' = localStorage w
         ∧ (defaultData w = emptyData → w' = w)) →
  fst r = false.
Proof. by intros (w' & -> & _). Qed.

(** X4.  Once deleted, an id is gone.  Provided the store accepts every
    write ([setItem_accepts]): after deleteClient, whatever it returned,
    no Client of the document read back has the id, a second
    deleteClient returns false and an updateClient returns null and
    leaves the world as it is; likewise for Projects and TimeEntries.
    (JSON.parse is taken to invert JSON.stringify on documents, whose
    text is not empty.) *)
Theorem deleted_id_is_gone (w : World) (id : string) :
  (let w1 := snd (deleteClient id w) in
   Forall (λ c, Client.id c ≠ id) (clients (doc w1))
   ∧ fst (deleteClient id w1) = false
   ∧ ∀ u, updateClient id u w1 = (None, w1))
  ∧ (let w1 := snd (deleteProject id w) in
     Forall (λ p, Project.id p ≠ id) (projects (doc w1))
     ∧ fst (deleteProject id w1) = false
     ∧ ∀ u, updateProject id u w1 = (None, w1))
  ∧ (let w1 := snd (deleteTimeEntry id w) in
     Forall (λ e, TimeEntry.id e ≠ id) (timeEntries (doc w1))
     ∧ fst (deleteTimeEntry id w1) = false
     ∧ ∀ u, updateTimeEntry id u w1 = (None, w1)).
Proof.
  split; [|split]; intros w1; subst w1.
  - assert (Forall (λ c, Client.id c ≠ id)
              (clients (doc (snd (deleteClient id w))))) as Hn.
    { rewrite deleteClient_clients. apply Forall_filter_self. }
    split; [done|]. split.
    + eapply unmatched_false_same. by apply deleteClient_unmatched.
    + intros u. by apply updateClient_not_found.
  - assert (Forall (λ p, Project.id p ≠ id)
              (projects (doc (snd (deleteProject id w))))) as Hn.
    { rewrite deleteProject_projects. apply Forall_filter_self. }
    split; [done|]. split.
    + eapply unmatched_false_same. by apply deleteProject_unmatched.
    + intros u. by apply updateProject_not_found.
  - assert (Forall (λ e, TimeEntry.id e ≠ id)
              (timeEntries (doc (snd (deleteTimeEntry id w))))) as Hn.
    { rewrite deleteTimeEntry_timeEntries. apply Forall_filter_self. }
    split; [done|]. split.
    + eapply unmatched_false_same. by apply deleteTimeEntry_unmatched.
    + intros u. apply updateTimeEntry_not_found.
      by apply (list_find_none_Forall (λ e, TimeEntry.id e = id)).
Qed.

Lemma deleteClient_removed id w :
  (∃ c, c ∈ clients (doc w) ∧ Client.id c = id) →
  ∃ w', deleteClient id w = (true, w')
    ∧ doc w'
      = mkAppData
          (filter (λ c, Client.id c ≠ id) (clients (doc w)))
          (filter (λ p, Project.clientId p ≠ id) (projects (doc w)))
          (filter (λ e, includes
                          (Project.id
                             <$> filter (λ p, Project.clientId p = id)
                                   (projects (doc w)))
                          (TimeEntry.projectId e) = false
                        ∧ TimeEntry.clientId e ≠ Some id)
             (timeEntries (doc w)))
    ∧ clockReads w' = clockReads w
    ∧ uuidsDrawn w' = uuidsDrawn w.
Proof.
  intros (c & Hc & Hid). unfold deleteClient. exec_ok.
  change (data (loaded w)) with (doc w).
  case_decide as Hlt; simpl.
  - eexists. split; [reflexivity|]. split; [apply doc_saved|].
    by destruct (isDefaultData (loaded w)).
  - exfalso. apply Hlt, length_filter_lt_iff. exists c. split; [done|].
    by intros ?.
Qed.

Lemma deleteProject_removed id w :
  (∃ p, p ∈ projects (doc w) ∧ Project.id p = id) →
  ∃ w', deleteProject id w = (true, w')
    ∧ doc w'
      = mkAppData (clients (doc w))
          (filter (λ p, Project.id p ≠ id) (projects (doc w)))
          (filter (λ e, TimeEntry.projectId e ≠ Some id) (timeEntries (doc w)))
    ∧ clockReads w' = clockReads w
    ∧ uuidsDrawn w' = uuidsDrawn w.
Proof.
  intros (p & Hp & Hid). unfold deleteProject. exec_ok.
  change (data (loaded w)) with (doc w).
  case_decide as Hlt; simpl.
  - eexists. split; [reflexivity|]. split; [apply doc_saved|].
    by destruct (isDefaultData (loaded w)).
  - exfalso. apply Hlt, length_filter_lt_iff. exists p. split; [done|].
    by intros ?.
Qed.

Lemma deleteTimeEntry_removed id w :
  (∃ e, e ∈ timeEntries (doc w) ∧ TimeEntry.id e = id) →
  ∃ w', deleteTimeEntry id w = (true, w')
    ∧ doc w'
      = set_timeEntries
          (filter (λ e, TimeEntry.id e ≠ id) (timeEntries (doc w))) (doc w)
    ∧ clockReads w' = clockReads w
    ∧ uuidsDrawn w' = uuidsDrawn w.
Proof.
  intros (e & He & Hid). unfold deleteTimeEntry. exec_ok.
  change (data (loaded w)) with (doc w).
  case_decide as Hlt; simpl.
  - eexists. split; [reflexivity|]. split; [apply doc_saved|].
    by destruct (isDefaultData (loaded w)).
  - exfalso. apply Hlt, length_filter_lt_iff. exists e. split; [done|].
    by intros ?.
Qed.

Lemma filter_snoc_out {A} (P : A → Prop) `{∀ x, Decision (P x)} (l : list A) x :
  Forall P l → ¬ P x → filter P (l ++ [x]) = l.
Proof.
  intros Hl Hx. rewrite filter_app, (filter_Forall_id P l Hl).
  rewrite filter_cons_False by done. by rewrite filter_nil, app_nil_r.
Qed.

(** X5.  Deleting what was just added restores the document.  Provided the
    store accepts every write ([setItem_accepts]): when the next
    identifier of randomUUID is unused in the document (no entity has it,
    nothing refers to it), addClient followed by deleteClient of the
    returned id returns true and leaves the document as it was before the
    add; likewise for addProject and deleteProject, and for addTimeEntry
    and deleteTimeEntry.  (JSON.parse is taken to invert JSON.stringify
    on documents, whose text is not empty.) *)
Theorem add_then_delete_restores (w : World) :
  unusedId (uuids (uuidsDrawn w)) (doc w) →
  (∀ client,
     let added := addClient client w in
     let deleted := deleteClient (Client.id (fst added)) (snd added) in
     fst deleted = true ∧ doc (snd deleted) = doc w)
  ∧ (∀ project,
       let added := addProject project w in
       let deleted := deleteProject (Project.id (fst added)) (snd added) in
       fst deleted = true ∧ doc (snd deleted) = doc w)
  ∧ (∀ entry,
       let added := addTimeEntry entry w in
       let deleted := deleteTimeEntry (TimeEntry.id (fst added)) (snd added) in
       fst deleted = true ∧ doc (snd deleted) = doc w).
Proof.
  intros (Hc & Hp & He). split; [|split].
  - intros client added deleted. subst added deleted.
    destruct (addClient_spec client w) as (w1 & -> & Hd1 & _). simpl.
    destruct (deleteClient_removed (uuids (uuidsDrawn w)) w1)
      as (w2 & -> & Hd2 & _).
    { eexists. rewrite Hd1. simpl. split.
      - apply elem_of_app. right. by apply list_elem_of_singleton.
      - reflexivity. }
    split; [done|]. simpl. rewrite Hd2, Hd1. simpl.
    rewrite filter_snoc_out; [|done|by intros ?].
    rewrite (filter_Forall_id (λ p, Project.clientId p ≠ _) (projects (doc w)))
      by (eapply Forall_impl; [exact Hp|]; by intros p [_ ?]).
    rewrite (filter_Forall_id _ (timeEntries (doc w))); [by destruct (doc w)|].
    eapply Forall_impl; [exact He|]. intros e (_ & _ & Hec). split; [|done].
    apply includes_false. intros s _ Hin.
    apply list_elem_of_fmap in Hin as (p & _ & Hin).
    apply list_elem_of_filter in Hin as [Hpc Hin].
    by apply (proj1 (Forall_forall _ _) Hp p Hin).
  - intros project added deleted. subst added deleted.
    destruct (addProject_spec project w) as (w1 & -> & Hd1 & _). simpl.
    destruct (deleteProject_removed (uuids (uuidsDrawn w)) w1)
      as (w2 & -> & Hd2 & _).
    { eexists. rewrite Hd1. simpl. split.
      - apply elem_of_app. right. by apply list_elem_of_singleton.
      - reflexivity. }
    split; [done|]. simpl. rewrite Hd2, Hd1. simpl.
    rewrite filter_snoc_out;
      [|eapply Forall_impl; [exact Hp|]; by intros p [? _]|by intros ?].
    rewrite (filter_Forall_id _ (timeEntries (doc w))); [by destruct (doc w)|].
    eapply Forall_impl; [exact He|]. by intros e (_ & ? & _).
  - intros entry added deleted. subst added deleted.
    destruct (addTimeEntry_spec entry w) as (w1 & -> & Hd1 & _). simpl.
    destruct (deleteTimeEntry_removed (uuids (uuidsDrawn w)) w1)
      as (w2 & -> & Hd2 & _).
    { eexists. rewrite Hd1. simpl. split.
      - apply elem_of_app. right. by apply list_elem_of_singleton.
      - reflexivity. }
    split; [done|]. simpl. rewrite Hd2, Hd1. simpl.
    rewrite filter_snoc_out;
      [by destruct (doc w)
      |eapply Forall_impl; [exact He|]; by intros e (? & _)|by intros ?].
Qed.

(** ** Identifiers stay distinct *)

Lemma updateClient_spec id u w index c :
  list_find (λ c, Client.id c = id) (clients (doc w)) = Some (index, c) →
  ∃ w', updateClient id u w = (Some (spreadClient c u), w')
    ∧ doc w' = set_clients (<[index := spreadClient c u]> (clients (doc w)))
                 (doc w)
    ∧ uuidsDrawn w' = uuidsDrawn w.
Proof.
  intros Hf. unfold updateClient. exec_ok.
  change (data (loaded w)) with (doc w). rewrite Hf. simpl.
  rewrite setItem_accepts. apply list_find_Some in Hf as (Hi & _).
  rewrite list_lookup_insert_eq by (by eapply lookup_lt_Some).
  eexists. split; [reflexivity|]. split; [apply doc_saved|].
  by destruct (sharesClients (loaded w)).
Qed.

Lemma updateProject_spec id u w index p :
  list_find (λ p, Project.id p = id) (projects (doc w)) = Some (index, p) →
  ∃ w', updateProject id u w = (Some (spreadProject p u), w')
    ∧ doc w' = set_projects (<[index := spreadProject p u]> (projects (doc w)))
                 (doc w)
    ∧ uuidsDrawn w' = uuidsDrawn w.
Proof.
  intros Hf. unfold updateProject. exec_ok.
  change (data (loaded w)) with (doc w). rewrite Hf. simpl.
  rewrite setItem_accepts. apply list_find_Some in Hf as (Hi & _).
  rewrite list_lookup_insert_eq by (by eapply lookup_lt_Some).
  eexists. split; [reflexivity|]. split; [apply doc_saved|].
  by destruct (sharesProjects (loaded w)).
Qed.

Lemma deleteClient_sublists id w :
  let w' := snd (deleteClient id w) in
  sublist (clients (doc w')) (clients (doc w))
  ∧ sublist (projects (doc w')) (projects (doc w))
  ∧ sublist (timeEntries (doc w')) (timeEntries (doc w))
  ∧ uuidsDrawn w' = uuidsDrawn w.
Proof.
  unfold deleteClient. exec_ok. case_decide as Hlt; simpl.
  - rewrite doc_saved. simpl.
    repeat (split; [apply sublist_filter|]).
    by destruct (isDefaultData (loaded w)).
  - unfold doc. destruct (isDefaultData (loaded w)) eqn:Hd; [|done].
    erewrite loaded_default_again; [|done|done]. simpl.
    by repeat (split; [apply sublist_filter|]).
Qed.

Lemma deleteProject_sublists id w :
  let w' := snd (deleteProject id w) in
  clients (doc w') = clients (doc w)
  ∧ sublist (projects (doc w')) (projects (doc w))
  ∧ sublist (timeEntries (doc w')) (timeEntries (doc w))
  ∧ uuidsDrawn w' = uuidsDrawn w.
Proof.
  unfold deleteProject. exec_ok. case_decide as Hlt; simpl.
  - rewrite doc_saved. simpl. split; [done|].
    repeat (split; [apply sublist_filter|]).
    by destruct (isDefaultData (loaded w)).
  - unfold doc. destruct (isDefaultData (loaded w)) eqn:Hd; [|done].
    erewrite loaded_default_again; [|done|done]. simpl.
    split; [by rewrite (loaded_isDefaultData w Hd)|].
    by repeat (split; [apply sublist_filter|]).
Qed.

Lemma deleteTimeEntry_sublists id w :
  let w' := snd (deleteTimeEntry id w) in
  clients (doc w') = clients (doc w)
  ∧ projects (doc w') = projects (doc w)
  ∧ sublist (timeEntries (doc w')) (timeEntries (doc w))
  ∧ uuidsDrawn w' = uuidsDrawn w.
Proof.
  unfold deleteTimeEntry. exec_ok. case_decide as Hlt; simpl.
  - rewrite doc_saved. simpl. split; [done|]. split; [done|].
    split; [apply sublist_filter|].
    by destruct (isDefaultData (loaded w)).
  - unfold doc. destruct (isDefaultData (loaded w)) eqn:Hd; [|done].
    erewrite loaded_default_again; [|done|done]. simpl.
    rewrite (loaded_isDefaultData w Hd). split; [done|]. split; [done|].
    split; [apply sublist_filter|done].
Qed.

Lemma fmap_insert_same {A B} (f : A → B) (l : list A) i x x' :
  l !! i = Some x → f x' = f x → f <$> <[i := x']> l = f <$> l.
Proof.
  intros Hi Hx. rewrite list_fmap_insert, Hx.
  apply list_insert_id. by rewrite list_lookup_fmap, Hi.
Qed.

Lemma distinctIds_weaken w w' ids ids' :
  sublist ids' ids → uuidsDrawn w ≤ uuidsDrawn w' →
  distinctIds w ids → distinctIds w' ids'.
Proof.
  intros Hsub Hle [Hnd Hun]. split; [by eapply sublist_NoDup|].
  apply Forall_forall. intros id Hid k Hk.
  apply (proj1 (Forall_forall _ _) Hun id); [by eapply elem_of_sublist|lia].
Qed.

Lemma distinctIds_same w w' ids ids' :
  ids' = ids → uuidsDrawn w ≤ uuidsDrawn w' →
  distinctIds w ids → distinctIds w' ids'.
Proof. intros ->. by apply distinctIds_weaken. Qed.

Lemma distinctIds_new w w' ids :
  uuidsDrawn w' = S (uuidsDrawn w) → distinctIds w ids →
  distinctIds w' (ids ++ [uuids (uuidsDrawn w)]).
Proof.
  intros Hu [Hnd Hun]. split.
  - apply NoDup_app. split; [done|]. split; [|apply NoDup_singleton].
    intros id Hid ->%list_elem_of_singleton.
    by apply (proj1 (Forall_forall _ _) Hun _ Hid (uuidsDrawn w)).
  - apply Forall_app. split.
    + eapply Forall_impl; [exact Hun|]. intros id Hid k Hk. apply Hid. lia.
    + apply Forall_singleton. intros k Hk Heq. apply uuids_inj in Heq. lia.
Qed.

Lemma call_idsInv c w : idsInv w → idsInv (call c w).
Proof.
  intros (Hc & Hp & He).
  destruct c as [projectId clientId description|entryId|entryId|entryId];
    unfold call.
  - destruct (startTimer_spec projectId clientId description w)
      as (w' & -> & Hd & _ & Hu).
    simpl. unfold idsInv. rewrite Hd. simpl.
    split; [eapply (distinctIds_same w); [done|lia|done]|].
    split; [eapply (distinctIds_same w); [done|lia|done]|].
    rewrite fmap_app, ids_close. by apply (distinctIds_new w).
  - destruct (find_timer_cases entryId (doc w) true)
      as [Hno|(index & entry & Hf & Hr)].
    + by rewrite stopTimer_noop.
    + destruct (stopTimer_spec entryId w index entry Hf Hr)
        as (w' & -> & Hd & _ & Hu).
      simpl. unfold idsInv. rewrite Hd. simpl.
      apply list_find_Some in Hf as (Hi & _).
      rewrite (ids_insert _ _ entry) by done.
      split; [|split]; (eapply (distinctIds_same w); [done|lia|done]).
  - destruct (find_timer_cases entryId (doc w) true)
      as [Hno|(index & entry & Hf & Hr)].
    + by rewrite pauseTimer_noop.
    + destruct (pauseTimer_spec entryId w index entry Hf Hr)
        as (w' & -> & Hd & _ & Hu).
      simpl. unfold idsInv. rewrite Hd. simpl.
      apply list_find_Some in Hf as (Hi & _).
      rewrite (ids_insert _ _ entry) by done.
      split; [|split]; (eapply (distinctIds_same w); [done|lia|done]).
  - destruct (find_timer_cases entryId (doc w) false)
      as [Hno|(index & entry & Hf & Hr)].
    + by rewrite resumeTimer_noop.
    + destruct (resumeTimer_spec entryId w index entry Hf Hr)
        as (w' & -> & Hd & _ & Hu).
      simpl. unfold idsInv. rewrite Hd. simpl.
      apply list_find_Some in Hf as (Hi & _).
      rewrite (ids_insert _ _ (closeEntry (clock (clockReads w)) entry));
        [|by rewrite list_lookup_fmap, Hi|by rewrite closeEntry_id].
      rewrite ids_close.
      split; [|split]; (eapply (distinctIds_same w); [done|lia|done]).
Qed.

Lemma apiCall_idsInv c w : idsInv w → idsInv (apiCall c w).
Proof.
  intros Hinv. pose proof Hinv as (Hc & Hp & He).
  destruct c; unfold apiCall; [..|by apply call_idsInv].
  - destruct (addClient_spec client w) as (w' & -> & Hd & _ & Hu).
    simpl. unfold idsInv. rewrite Hd. simpl. rewrite fmap_app.
    split; [by apply (distinctIds_new w)|].
    split; (eapply (distinctIds_same w); [done|lia|done]).
  - destruct (list_find (λ c, Client.id c = id) (clients (doc w)))
      as [[index c]|] eqn:Hf.
    + destruct (updateClient_spec id updates w index c Hf)
        as (w' & -> & Hd & Hu).
      simpl. unfold idsInv. rewrite Hd. simpl.
      apply list_find_Some in Hf as (Hi & _).
      rewrite (fmap_insert_same Client.id _ _ c) by done.
      split; [|split]; (eapply (distinctIds_same w); [done|lia|done]).
    + rewrite updateClient_not_found; [done|].
      by apply (list_find_none_Forall (λ c, Client.id c = id)).
  - destruct (deleteClient_sublists id w) as (Sc & Sp & Se & Hu).
    split; [|split];
      (eapply (distinctIds_weaken w); [by apply fmap_sublist|lia|done]).
  - destruct (addProject_spec project w) as (w' & -> & Hd & _ & Hu).
    simpl. unfold idsInv. rewrite Hd. simpl. rewrite fmap_app.
    split; [eapply (distinctIds_same w); [done|lia|done]|].
    split; [by apply (distinctIds_new w)|].
    eapply (distinctIds_same w); [done|lia|done].
  - destruct (list_find (λ p, Project.id p = id) (projects (doc w)))
      as [[index p]|] eqn:Hf.
    + destruct (updateProject_spec id updates w index p Hf)
        as (w' & -> & Hd & Hu).
      simpl. unfold idsInv. rewrite Hd. simpl.
      apply list_find_Some in Hf as (Hi & _).
      rewrite (fmap_insert_same Project.id _ _ p) by done.
      split; [|split]; (eapply (distinctIds_same w); [done|lia|done]).
    + rewrite updateProject_not_found; [done|].
      by apply (list_find_none_Forall (λ p, Project.id p = id)).
  - destruct (deleteProject_sublists id w) as (Sc & Sp & Se & Hu).
    split; [|split].
    + eapply (distinctIds_same w); [by rewrite Sc|lia|done].
    + eapply (distinctIds_weaken w); [by apply fmap_sublist|lia|done].
    + eapply (distinctIds_weaken w); [by apply fmap_sublist|lia|done].
  - destruct (addTimeEntry_spec entry w) as (w' & -> & Hd & _ & Hu).
    simpl. unfold idsInv. rewrite Hd. simpl. rewrite fmap_app.
    split; [eapply (distinctIds_same w); [done|lia|done]|].
    split; [eapply (distinctIds_same w); [done|lia|done]|].
    by apply (distinctIds_new w).
  - destruct (list_find (λ e, TimeEntry.id e = id) (timeEntries (doc w)))
      as [[index e]|] eqn:Hf.
    + destruct (updateTimeEntry_spec id updates w index e Hf)
        as (w' & -> & Hd & _ & Hu).
      simpl. unfold idsInv. rewrite Hd. simpl.
      apply list_find_Some in Hf as (Hi & _).
      rewrite (ids_insert _ _ e) by done.
      split; [|split]; (eapply (distinctIds_same w); [done|lia|done]).
    + by rewrite updateTimeEntry_not_found.
  - destruct (deleteTimeEntry_sublists id w) as (Sc & Sp & Se & Hu).
    split; [|split].
    + eapply (distinctIds_same w); [by rewrite Sc|lia|done].
    + eapply (distinctIds_same w); [by rewrite Sp|lia|done].
    + eapply (distinctIds_weaken w); [by apply fmap_sublist|lia|done].
  - destruct (stopAllRunningTimers_spec w) as (w' & -> & Hd & _ & Hu).
    simpl. unfold idsInv. rewrite Hd. simpl. rewrite ids_close.
    split; [|split]; (eapply (distinctIds_same w); [done|lia|done]).
Qed.

Lemma apiReachable_idsInv w0 w : idsInv w0 → apiReachable w0 w → idsInv w.
Proof. intros H0. induction 1; [done|]. by apply apiCall_idsInv. Qed.

(** X6.  Identifiers stay distinct.  Let the store accept every write
    ([setItem_accepts]) and randomUUID never return an id twice
    ([uuids_inj]).  Start from a world in which the Clients have pairwise
    distinct ids, and so have the Projects and the TimeEntries, none of
    them an id randomUUID is still to return.  Then after any sequence of
    calls of the exported functions the ids of the Clients are pairwise
    distinct, and so are those of the Projects and of the TimeEntries: a
    call by id addresses one entity.  (JSON.parse is taken to invert
    JSON.stringify on documents, whose text is not empty.) *)
Theorem ids_stay_distinct (w0 w : World) :
  idsInv w0 → apiReachable w0 w →
  NoDup (Client.id <$> clients (doc w))
  ∧ NoDup (Project.id <$> projects (doc w))
  ∧ NoDup (TimeEntry.id <$> timeEntries (doc w)).
Proof.
  intros H0 Hreach.
  destruct (apiReachable_idsInv w0 w H0 Hreach) as ([? _] & [? _] & [? _]).
  done.
Qed.

(** ** Timer: stopping, and what the calls do together *)

(** X7.  stopTimer on a running entry (the first of that id) returns it with
    [endTime] set to the time of the call, whatever it was, with
    [duration] raised by the whole seconds since [startTime], with
    [isRunning] false and every other field as it was; the document with
    that entry in place is handed to saveData.  On a missing or idle
    entry, a paused one included, it returns null and the world is as
    before. *)
Theorem stopTimer_closes (w : World) (entryId : string) :
  (∀ index entry,
     list_find (λ e, TimeEntry.id e = entryId) (timeEntries (doc w))
       = Some (index, entry) →
     TimeEntry.isRunning entry = true →
     ∃ w' e',
       stopTimer entryId w = (Some e', w')
       ∧ TimeEntry.endTime e' = Some (toISOString (clock (clockReads w)))
       ∧ TimeEntry.duration e'
         = (TimeEntry.duration entry
            + (clock (clockReads w) - Date_getTime (TimeEntry.startTime entry))
              / 1000)%Z
       ∧ TimeEntry.isRunning e' = false
       ∧ TimeEntry.startTime e' = TimeEntry.startTime entry
       ∧ TimeEntry.id e' = TimeEntry.id entry
       ∧ TimeEntry.projectId e' = TimeEntry.projectId entry
       ∧ TimeEntry.clientId e' = TimeEntry.clientId entry
       ∧ TimeEntry.description e' = TimeEntry.description entry
       ∧ TimeEntry.createdAt e' = TimeEntry.createdAt entry
       ∧ persisted
           (set_timeEntries (<[index := e']> (timeEntries (doc w))) (doc w)) w w')
  ∧ ((list_find (λ e, TimeEntry.id e = entryId) (timeEntries (doc w)) = None
      ∨ ∃ index entry,
          list_find (λ e, TimeEntry.id e = entryId) (timeEntries (doc w))
            = Some (index, entry)
          ∧ TimeEntry.isRunning entry = false) →
     stopTimer entryId w = (None, w)).
Proof.
  split; [|apply stopTimer_noop].
  intros index entry Hf Hr. unfold stopTimer, bind, loadData.
  change (data (loaded w)) with (doc w). rewrite Hf, Hr. simpl.
  set (w1 := mkWorld _ _ _ _).
  destruct (updateTimeEntry_found entryId
              (TimeEntryUpdates.mk None None None None
                 (Some (Some (toISOString (clock (clockReads w)))))
                 (Some (elapsed (clock (clockReads w)) entry)) (Some false))
              w1 index entry Hf) as (w' & -> & Hs & _).
  eexists _, _. split; [reflexivity|]. simpl.
  repeat (split; [done || (unfold elapsed; lia)|]).
  unfold persisted in *. rewrite Hs. simpl. by destruct (setItem_ok _).
Qed.

Lemma list_find_insert {A} (P : A → Prop) `{∀ x, Decision (P x)}
    (l : list A) i x y :
  list_find P l = Some (i, x) → P y →
  list_find P (<[i := y]> l) = Some (i, y).
Proof.
  intros (Hi & Hx & Hbefore)%list_find_Some Hy. apply list_find_Some.
  split; [by rewrite list_lookup_insert_eq by by eapply lookup_lt_Some|].
  split; [done|]. intros j z Hj Hlt.
  rewrite list_lookup_insert_ne in Hj by lia. eauto.
Qed.

(** X8.  A paused entry cannot be stopped.  Provided the store accepts
    every write ([setItem_accepts]): after pauseTimer has paused a
    running entry, stopTimer with the same id returns null and changes
    nothing, and so does a second pauseTimer: the entry stays idle with
    the [endTime] it had, none for an entry that was never stopped.
    (JSON.parse is taken to invert JSON.stringify on documents, whose
    text is not empty.) *)
Theorem paused_entry_cannot_be_stopped
    (w : World) (entryId : string) (index : nat) (entry : TimeEntry.t) :
  list_find (λ e, TimeEntry.id e = entryId) (timeEntries (doc w))
    = Some (index, entry) →
  TimeEntry.isRunning entry = true →
  let w' := snd (pauseTimer entryId w) in
  stopTimer entryId w' = (None, w')
  ∧ pauseTimer entryId w' = (None, w')
  ∧ ∃ e', list_find (λ e, TimeEntry.id e = entryId) (timeEntries (doc w'))
            = Some (index, e')
      ∧ TimeEntry.isRunning e' = false
      ∧ TimeEntry.endTime e' = TimeEntry.endTime entry.
Proof.
  intros Hf Hr w'. subst w'.
  destruct (pauseTimer_spec entryId w index entry Hf Hr) as (w' & -> & Hd & _).
  simpl.
  assert (list_find (λ e, TimeEntry.id e = entryId) (timeEntries (doc w'))
          = Some (index, pausedAt (clock (clockReads w)) entry)) as Hf'.
  { rewrite Hd. simpl. eapply list_find_insert; [exact Hf|].
    by apply list_find_Some in Hf as (_ & ? & _). }
  split; [|split].
  - apply stopTimer_noop. right. by eexists _, _.
  - apply pauseTimer_noop. right. by eexists _, _.
  - by eexists.
Qed.

Lemma closeEntry_closed now now' e :
  closeEntry now' (closeEntry now e) = closeEntry now e.
Proof. apply closeEntry_idle, closeEntry_not_running. Qed.

(** X9.  stopAllRunningTimers leaves no entry running.  Provided the store
    accepts every write ([setItem_accepts]), in the document read back
    every running entry is closed with the time of the call as [endTime]
    and its [duration] raised by the whole seconds since its [startTime],
    every idle entry and the Clients and Projects are as before, and the
    number and order of the entries are kept.  It stores the document
    even when nothing was running, and a second call changes nothing in
    the document.  (JSON.parse is taken to invert JSON.stringify on
    documents, whose text is not empty.) *)
Theorem stopAllRunningTimers_closes_all (w : World) :
  let now := clock (clockReads w) in
  let w' := snd (stopAllRunningTimers w) in
  running (doc w') = []
  ∧ length (timeEntries (doc w')) = length (timeEntries (doc w))
  ∧ (∀ index e,
       timeEntries (doc w) !! index = Some e →
       TimeEntry.isRunning e = false →
       timeEntries (doc w') !! index = Some e)
  ∧ (∀ index e,
       timeEntries (doc w) !! index = Some e →
       TimeEntry.isRunning e = true →
       timeEntries (doc w') !! index
       = Some (TimeEntry.mk (TimeEntry.id e) (TimeEntry.projectId e)
                 (TimeEntry.clientId e) (TimeEntry.description e)
                 (TimeEntry.startTime e) (Some (toISOString now))
                 ((now - Date_getTime (TimeEntry.startTime e)) / 1000
                  + TimeEntry.duration e)%Z
                 false (TimeEntry.createdAt e)))
  ∧ clients (doc w') = clients (doc w)
  ∧ projects (doc w') = projects (doc w)
  ∧ localStorage w' = Some (JSON_stringify (doc w'))
  ∧ doc (snd (stopAllRunningTimers w')) = doc w'.
Proof.
  intros now w'. subst now w'.
  assert (localStorage (snd (stopAllRunningTimers w))
          = Some (JSON_stringify
                    (set_timeEntries
                       (closeEntry (clock (clockReads w)) <$> timeEntries (doc w))
                       (doc w)))) as Hls.
  { unfold stopAllRunningTimers. by exec_ok. }
  destruct (stopAllRunningTimers_spec w) as (w' & Hw' & Hd & _).
  rewrite Hw' in *. cbn [snd] in *.
  destruct (stopAllRunningTimers_spec w') as (w'' & -> & Hd' & _). cbn [snd].
  rewrite Hd', Hd, Hls. simpl.
  split; [apply running_closed|]. split; [by rewrite length_fmap|].
  split; [|split; [|split; [done|split; [done|split; [done|]]]]].
  - intros index e Hi Hr. rewrite list_lookup_fmap, Hi. simpl.
    by rewrite closeEntry_idle.
  - intros index e Hi Hr. rewrite list_lookup_fmap, Hi. simpl.
    unfold closeEntry. by rewrite Hr.
  - unfold set_timeEntries. simpl. f_equal.
    rewrite <- list_fmap_compose. apply list_fmap_ext.
    intros i e _. apply closeEntry_closed.
Qed.

Lemma list_find_head {A} (P : A → Prop) `{∀ x, Decision (P x)} (l : list A) :
  snd <$> list_find P l = head (filter P l).
Proof.
  induction l as [|x l IH]; [done|]. rewrite filter_cons. simpl.
  case_decide; [done|]. rewrite <- IH. by destruct (list_find P l).
Qed.

Lemma list_find_new (old : list TimeEntry.t) now e :
  Forall (λ e', TimeEntry.id e' ≠ TimeEntry.id e) old →
  list_find (λ e', TimeEntry.id e' = TimeEntry.id e)
    ((closeEntry now <$> old) ++ [e])
  = Some (length old, e).
Proof.
  intros Hold. apply list_find_Some. split; [|split; [done|]].
  - rewrite lookup_app_r by by rewrite length_fmap.
    by rewrite length_fmap, Nat.sub_diag.
  - intros j y Hj Hlt. rewrite lookup_app_l in Hj by by rewrite length_fmap.
    rewrite list_lookup_fmap in Hj.
    destruct (old !! j) as [x|] eqn:Hx; [|done]. injection Hj as <-.
    rewrite closeEntry_id.
    apply (proj1 (Forall_forall _ _) Hold x). by eapply list_elem_of_lookup_2.
Qed.

(** X12.  Paused time is not counted.  Provided the store accepts every
    write ([setItem_accepts]): start a timer, pause it, resume it and
    stop it; the entry ends with a [duration] of the whole seconds from
    start to pause plus the whole seconds from resume to stop, whatever
    time passed in between, given that the two start times survive the
    round trip through their ISO strings and that the new id is not
    already the id of an entry.  (JSON.parse is taken to invert
    JSON.stringify on documents, whose text is not empty.) *)
Theorem paused_time_is_not_counted
    (w : World) (projectId clientId description : string) :
  let c := clockReads w in
  let entryId := uuids (uuidsDrawn w) in
  let started := clock (S c) in
  let paused := clock (S (S (S c))) in
  let resumed := clock (S (S (S (S (S c))))) in
  let stopped := clock (S (S (S (S (S (S c)))))) in
  Forall (λ e, TimeEntry.id e ≠ entryId) (timeEntries (doc w)) →
  Date_getTime (toISOString started) = started →
  Date_getTime (toISOString resumed) = resumed →
  let w1 := call (StartTimer projectId clientId description) w in
  let w2 := call (PauseTimer entryId) w1 in
  let w3 := call (ResumeTimer entryId) w2 in
  ∃ e, fst (stopTimer entryId w3) = Some e
    ∧ TimeEntry.duration e
      = ((paused - started) / 1000 + (stopped - resumed) / 1000)%Z
    ∧ TimeEntry.startTime e = toISOString resumed
    ∧ TimeEntry.endTime e = Some (toISOString stopped)
    ∧ TimeEntry.isRunning e = false
    ∧ timeEntries (doc (snd (stopTimer entryId w3)))
        !! length (timeEntries (doc w))
      = Some e.
Proof.
  intros c entryId started paused resumed stopped Hfresh Hs Hr w1 w2 w3.
  subst c entryId started paused resumed stopped w1 w2 w3. unfold call.
  destruct (startTimer_spec projectId clientId description w)
    as (w1 & -> & Hd1 & Hc1 & _).
  simpl. set (e1 := TimeEntry.mk _ _ _ _ _ _ _ _ _) in Hd1.
  set (n := length (timeEntries (doc w))).
  assert (list_find (λ e, TimeEntry.id e = uuids (uuidsDrawn w))
            (timeEntries (doc w1)) = Some (n, e1)) as Hf1.
  { rewrite Hd1. simpl. by apply (list_find_new _ _ e1). }
  destruct (pauseTimer_spec _ w1 n e1 Hf1 eq_refl) as (w2 & -> & Hd2 & Hc2 & _).
  simpl. set (e2 := pausedAt _ e1) in Hd2.
  assert (list_find (λ e, TimeEntry.id e = uuids (uuidsDrawn w))
            (timeEntries (doc w2)) = Some (n, e2)) as Hf2.
  { rewrite Hd2. simpl. by eapply list_find_insert. }
  destruct (resumeTimer_spec _ w2 n e2 Hf2 eq_refl) as (w3 & -> & Hd3 & Hc3 & _).
  simpl. set (e3 := resumedAt _ e2) in Hd3.
  assert (list_find (λ e, TimeEntry.id e = uuids (uuidsDrawn w))
            (timeEntries (doc w3)) = Some (n, e3)) as Hf3.
  { rewrite Hd3. simpl. eapply list_find_insert; [|done].
    rewrite list_find_closeEntry, Hf2. done. }
  destruct (stopTimer_spec _ w3 n e3 Hf3 eq_refl) as (w4 & -> & Hd4 & _).
  simpl. eexists. split; [reflexivity|].
  apply list_find_Some in Hf3 as (Hi & _). clear Hf1 Hf2.
  subst e1 e2 e3. rewrite Hd4, Hc3, Hc2, Hc1 in *. simpl.
  split; [|split; [done|split; [done|split; [done|]]]].
  - unfold elapsed. simpl. unfold elapsed. simpl. rewrite Hs, Hr. lia.
  - apply list_lookup_insert_eq. by eapply lookup_lt_Some.
Qed.

(** ** What reaches the store *)

Lemma keptOrSaved_refl w : keptOrSaved w w.
Proof. by left. Qed.

Lemma keptOrSaved_trans w1 w2 w3 :
  keptOrSaved w1 w2 → keptOrSaved w2 w3 → keptOrSaved w1 w3.
Proof.
  intros H12 [H23|H23]; [|by right].
  destruct H12 as [H12|(d & Hd & Hok)]; [left; congruence|].
  right. exists d. split; [congruence|done].
Qed.

Lemma keptOrSaved_save d w w1 :
  localStorage w1 = localStorage w →
  keptOrSaved w
    (if setItem_ok (JSON_stringify d)
     then set_localStorage (Some (JSON_stringify d)) w1 else w1).
Proof.
  intros Hls. destruct (setItem_ok (JSON_stringify d)) eqn:Hok.
  - right. by exists d.
  - by left.
Qed.

Lemma keptOrSaved_newDate w w' :
  keptOrSaved (snd (newDate w)) w' → keptOrSaved w w'.
Proof. done. Qed.

Lemma addTimeEntry_keptOrSaved entry w :
  keptOrSaved w (snd (addTimeEntry entry w)).
Proof.
  unfold addTimeEntry. exec. apply keptOrSaved_save.
  by destruct (sharesTimeEntries (loaded w)).
Qed.

Lemma updateTimeEntry_keptOrSaved id u w :
  keptOrSaved w (snd (updateTimeEntry id u w)).
Proof.
  unfold updateTimeEntry. exec.
  destruct (list_find _ _) as [[index e]|]; simpl; [|by left].
  apply keptOrSaved_save. by destruct (sharesTimeEntries (loaded w)).
Qed.

Lemma stopAllRunningTimers_keptOrSaved w :
  keptOrSaved w (snd (stopAllRunningTimers w)).
Proof.
  unfold stopAllRunningTimers. exec. apply keptOrSaved_save.
  by destruct (sharesTimeEntries (loaded w)).
Qed.

Lemma call_keptOrSaved c w : keptOrSaved w (call c w).
Proof.
  destruct c as [projectId clientId description|entryId|entryId|entryId];
    unfold call.
  - unfold startTimer, bind.
    pose proof (stopAllRunningTimers_keptOrSaved w) as H1.
    destruct (stopAllRunningTimers w) as [[] w1]. simpl in H1.
    eapply keptOrSaved_trans; [exact H1|].
    apply keptOrSaved_newDate. destruct (newDate w1) as [now w2]. simpl.
    apply addTimeEntry_keptOrSaved.
  - unfold stopTimer, bind, loadData.
    destruct (list_find _ _) as [[index entry]|]; [|by left].
    destruct (negb (TimeEntry.isRunning entry)); [by left|].
    apply keptOrSaved_newDate. destruct (newDate w) as [now w1]. simpl.
    apply updateTimeEntry_keptOrSaved.
  - unfold pauseTimer, bind, loadData.
    destruct (list_find _ _) as [[index entry]|]; [|by left].
    destruct (negb (TimeEntry.isRunning entry)); [by left|].
    apply keptOrSaved_newDate. destruct (newDate w) as [now w1]. simpl.
    apply updateTimeEntry_keptOrSaved.
  - unfold resumeTimer, bind, loadData.
    destruct (list_find _ _) as [[index entry]|]; [|by left].
    destruct (TimeEntry.isRunning entry); [by left|].
    pose proof (stopAllRunningTimers_keptOrSaved w) as H1.
    destruct (stopAllRunningTimers w) as [[] w1]. simpl in H1.
    eapply keptOrSaved_trans; [exact H1|].
    apply keptOrSaved_newDate. destruct (newDate w1) as [now w2]. simpl.
    apply updateTimeEntry_keptOrSaved.
Qed.

Lemma apiCall_keptOrSaved c w : keptOrSaved w (apiCall c w).
Proof.
  destruct c; unfold apiCall.
  - unfold addClient. exec. apply keptOrSaved_save.
    by destruct (sharesClients (loaded w)).
  - unfold updateClient. exec.
    destruct (list_find _ _) as [[index c]|]; simpl; [|by left].
    apply keptOrSaved_save. by destruct (sharesClients (loaded w)).
  - unfold deleteClient. exec. case_decide; simpl.
    + apply keptOrSaved_save. by destruct (isDefaultData (loaded w)).
    + left. by destruct (isDefaultData (loaded w)).
  - unfold addProject. exec. apply keptOrSaved_save.
    by destruct (sharesProjects (loaded w)).
  - unfold updateProject. exec.
    destruct (list_find _ _) as [[index p]|]; simpl; [|by left].
    apply keptOrSaved_save. by destruct (sharesProjects (loaded w)).
  - unfold deleteProject. exec. case_decide; simpl.
    + apply keptOrSaved_save. by destruct (isDefaultData (loaded w)).
    + left. by destruct (isDefaultData (loaded w)).
  - apply addTimeEntry_keptOrSaved.
  - apply updateTimeEntry_keptOrSaved.
  - unfold deleteTimeEntry. exec. case_decide; simpl.
    + apply keptOrSaved_save. by destruct (isDefaultData (loaded w)).
    + left. by destruct (isDefaultData (loaded w)).
  - apply stopAllRunningTimers_keptOrSaved.
  - apply call_keptOrSaved.
Qed.

Lemma apiCalls_keptOrSaved cs w : keptOrSaved w (apiCalls cs w).
Proof.
  revert w. induction cs as [|c cs IH]; intros w; [apply keptOrSaved_refl|].
  eapply keptOrSaved_trans; [apply (apiCall_keptOrSaved c)|apply IH].
Qed.

(** X13.  The store only ever holds what it was given.  After any sequence of
    calls of the exported functions the item under STORAGE_KEY is the one
    from before, or the serialisation of a document that setItem
    accepted: no call removes the item or leaves a partial write. *)
Theorem store_holds_accepted_documents (cs : list ApiCall) (w : World) :
  localStorage (apiCalls cs w) = localStorage w
  ∨ ∃ d, localStorage (apiCalls cs w) = Some (JSON_stringify d)
         ∧ setItem_ok (JSON_stringify d) = true.
Proof. apply apiCalls_keptOrSaved. Qed.

(** X14.  Rejected writes are lost without a sign.  When setItem rejects every
    write and the store holds a saved document, any sequence of calls of
    the exported functions leaves the stored item and the document read
    back exactly as they were, while each call returns as on success:
    addClient, for one, still returns the new Client. *)
Theorem rejected_writes_are_lost (d : AppData) (cs : list ApiCall) (w : World) :
  (∀ s, setItem_ok s = false) →
  localStorage w = Some (JSON_stringify d) →
  let w' := apiCalls cs w in
  localStorage w' = localStorage w
  ∧ doc w' = d
  ∧ ∀ client,
      fst (addClient client w')
      = newClientOf client (uuids (uuidsDrawn w'))
          (toISOString (clock (clockReads w')))
      ∧ doc (snd (addClient client w')) = d.
Proof.
  intros Hrej Hs w'. subst w'.
  assert (∀ cs, localStorage (apiCalls cs w) = localStorage w) as Hkept.
  { intros cs'. destruct (apiCalls_keptOrSaved cs' w) as [?|(d' & _ & Hok)];
      [done|]. by rewrite Hrej in Hok. }
  split; [apply Hkept|]. split; [apply doc_stored; by rewrite Hkept|].
  intros client. split; [done|].
  change (snd (addClient client (apiCalls cs w)))
    with (apiCalls (cs ++ [AddClient client]) w) ||
  (replace (snd (addClient client (apiCalls cs w)))
     with (apiCalls (cs ++ [AddClient client]) w)
     by (unfold apiCalls; by rewrite foldl_app)).
  apply doc_stored. by rewrite Hkept.
Qed.

(** X15.  With nothing stored, loadData hands out the exported [defaultData]
    object itself, and addClient pushes the new Client onto its array,
    whether or not the write is accepted.  When the write is rejected,
    nothing is stored, and yet the document the next call reads holds the
    Client. *)
Theorem addClient_writes_defaultData (client : ClientFields.t) (w : World) :
  localStorage w = None →
  let c := newClientOf client (uuids (uuidsDrawn w))
             (toISOString (clock (clockReads w))) in
  let w' := snd (addClient client w) in
  clients (defaultData w') = clients (defaultData w) ++ [c]
  ∧ (setItem_ok
       (JSON_stringify (set_clients (clients (defaultData w) ++ [c])
                          (defaultData w))) = false →
     localStorage w' = None
     ∧ clients (doc w') = clients (defaultData w) ++ [c]).
Proof.
  intros Hs c w'. subst c w'. unfold addClient, doc. exec.
  assert (loaded w = theDefaultData w) as Hl by (unfold loaded; by rewrite Hs).
  rewrite Hl. simpl. split.
  - by destruct (setItem_ok _).
  - intros ->. split; [done|]. unfold loaded. simpl. by rewrite Hs.
Qed.

(** ** CSV export: order within a day, and reading the text back *)

Lemma insertBy_same_key {A} (key : A → Z) (k : Z) x (l : list A) :
  filter (λ a, key a = k) (insertBy (λ a b, (key b - key a)%Z) x l)
  = filter (λ a, key a = k) (x :: l).
Proof.
  induction l as [|y l IH]; [done|]. simpl. case_decide as Hc; [done|].
  rewrite filter_cons, IH, !filter_cons.
  repeat case_decide; try done; lia.
Qed.

Lemma sortBy_same_key {A} (key : A → Z) (k : Z) (l : list A) :
  filter (λ a, key a = k) (sortBy (λ a b, (key b - key a)%Z) l)
  = filter (λ a, key a = k) l.
Proof.
  induction l as [|x l IH]; [done|]. unfold sortBy in *. simpl.
  rewrite insertBy_same_key, !filter_cons. by rewrite IH.
Qed.

(** X16.  The rows of the export are ordered by day, latest first, and
    entries of the same day keep the order of the document.  The key of
    an entry is the date cell of its row (d.m.yyyy) taken apart at the
    dots, put together in reverse with hyphens (yyyy-m-d) and read as a
    Date; keys do not increase along the rows, and the sort is stable:
    among the exported entries, those of any one key appear in the order
    in which the document holds them.  Each row starts with the date of
    the entry's [startTime] and has the entry's description as its fourth
    cell. *)
Theorem exportToCSV_keeps_order_within_a_day (w : World) :
  let d := doc w in
  let quote : ascii := "034"%char in
  let line (row : list string) : string :=
    String.concat ";"
      ((λ cell, String quote (doubleQuotes cell +:+ String quote "")) <$> row) in
  ∃ entries,
    fst (exportToCSV w)
    = String.concat (String "010"%char "")
        (line <$> (["Datum"; "Kunde"; "Projekt"; "Beschreibung"; "Start";
                    "Ende"; "Dauer (h)"; "Dauer (Std:Min)"]
                   :: (csvRow d <$> entries)))
    ∧ StronglySorted (λ a b, (entryDate b ≤ entryDate a)%Z) entries
    ∧ (∀ day,
         filter (λ e, entryDate e = day) entries
         = filter (λ e, entryDate e = day) (timeEntries d))
    ∧ (∀ e pieces,
         pieces ≠ [] →
         Forall (λ piece, "."%char ∉ String.list_ascii_of_string piece) pieces →
         toLocaleDateString (Date_getTime (TimeEntry.startTime e))
           = String.concat "." pieces →
         entryDate e = Date_getTime (String.concat "-" (reverse pieces)))
    ∧ (∀ e,
         csvRow d e !! 0
           = Some (toLocaleDateString (Date_getTime (TimeEntry.startTime e)))
         ∧ csvRow d e !! 3 = Some (TimeEntry.description e)).
Proof.
  intros d quote line. subst d quote line.
  exists (sortBy (λ a b, (entryDate b - entryDate a)%Z) (timeEntries (doc w))).
  split; [by rewrite exportToCSV_text|].
  split; [apply (sortBy_descending entryDate)|].
  split; [intros day; apply (sortBy_same_key entryDate)|].
  split; [apply entryDate_pieces|].
  done.
Qed.

Lemma append_assoc (s1 s2 s3 : string) :
  (s1 +:+ s2) +:+ s3 = s1 +:+ (s2 +:+ s3).
Proof. induction s1 as [|c s1 IH]; [done|]. exact (f_equal (String c) IH). Qed.

Lemma append_empty_r (s : string) : s +:+ "" = s.
Proof. induction s as [|c s IH]; [done|]. exact (f_equal (String c) IH). Qed.

(** After the closing quote of a cell comes the end of the text, a
    semicolon or a newline, never a quote: the end of a cell is where an
    odd run of quotes ends. *)

Lemma doubleQuotes_closed a b t1 t2 :
  (∀ t, t1 ≠ String dquote t) → (∀ t, t2 ≠ String dquote t) →
  doubleQuotes a +:+ String dquote t1 = doubleQuotes b +:+ String dquote t2 →
  a = b ∧ t1 = t2.
Proof.
  intros H1 H2. revert b.
  induction a as [|c a IH]; intros [|c' b]; simpl.
  - by intros [= ->].
  - case_decide as Hc; simpl; intros [= E]; [by destruct (H1 _ E)|done].
  - case_decide as Hc; simpl; intros [= E]; [by destruct (H2 _ (eq_sym E))|done].
  - repeat case_decide; simpl; intros E; simplify_eq; try done;
      match goal with E : _ +:+ _ = _ +:+ _ |- _ =>
        by destruct (IH b E) as [-> ->]
      end.
Qed.

Lemma quoteCell_append cell t :
  quoteCell cell +:+ t = String dquote (doubleQuotes cell +:+ String dquote t).
Proof.
  unfold quoteCell.
  change (String dquote ((doubleQuotes cell +:+ String dquote "") +:+ t)
          = String dquote (doubleQuotes cell +:+ String dquote t)).
  by rewrite append_assoc.
Qed.

(** What follows the first cell of a row in the text: the other cells of
    the row, then the other rows. *)

Lemma csvLine_cons cell row :
  csvLine (cell :: row)
  = quoteCell cell
    +:+ match row with [] => "" | _ => ";" +:+ csvLine row end.
Proof.
  unfold csvLine. destruct row as [|cell' row]; simpl; [|done].
  by rewrite append_empty_r.
Qed.

Lemma join_lines_cons row rows :
  join newline (csvLine <$> (row :: rows))
  = csvLine row
    +:+ match rows with
        | [] => ""
        | _ => newline +:+ join newline (csvLine <$> rows)
        end.
Proof. destruct rows as [|row' rows]; simpl; [|done]. by rewrite append_empty_r. Qed.

Lemma csv_tail_unique rows :
  Forall (λ row, row ≠ []) rows →
  ∀ row rows' row',
    Forall (λ row, row ≠ []) rows' →
    match row with [] => "" | _ => ";" +:+ csvLine row end
    +:+ match rows with
        | [] => ""
        | _ => newline +:+ join newline (csvLine <$> rows)
        end
    = match row' with [] => "" | _ => ";" +:+ csvLine row' end
      +:+ match rows' with
          | [] => ""
          | _ => newline +:+ join newline (csvLine <$> rows')
          end →
    row = row' ∧ rows = rows'.
Proof.
  assert (∀ (row : list string) rows t,
            match row with [] => "" | _ => ";" +:+ csvLine row end
            +:+ match rows with
                | [] => ""
                | _ => newline +:+ join newline (csvLine <$> rows)
                end ≠ String dquote t) as Hnq.
  { intros [|? ?] [|? ?] t; simpl; done. }
  induction rows as [|[|cell0 row0] rows IHrows]; intros Hne.
  - induction row as [|cell row IH]; intros rows' row' Hne'.
    + destruct row' as [|cell' row'], rows' as [|r' rows']; simpl; try done.
    + destruct row' as [|cell' row']; [by destruct rows'|].
      rewrite (csvLine_cons cell), (csvLine_cons cell'). simpl.
      rewrite !append_assoc, !quoteCell_append. intros [= E].
      apply doubleQuotes_closed in E as [-> E];
        [|exact (Hnq row [])|exact (Hnq row' rows')].
      by destruct (IH _ _ Hne' E) as [-> ->].
  - by inversion Hne.
  - apply Forall_cons in Hne as [_ Hne]. specialize (IHrows Hne).
    induction row as [|cell row IH]; intros rows' row' Hne'.
    + destruct row' as [|cell' row']; [|done].
      destruct rows' as [|[|cell0' row0'] rows']; [done| |].
      { apply Forall_cons in Hne' as [? _]. done. }
      apply Forall_cons in Hne' as [_ Hne'].
      rewrite (join_lines_cons (cell0 :: row0)),
        (join_lines_cons (cell0' :: row0')).
      rewrite (csvLine_cons cell0), (csvLine_cons cell0'). simpl.
      rewrite !append_assoc, !quoteCell_append. intros [= E].
      apply doubleQuotes_closed in E as [-> E];
        [|exact (Hnq row0 rows)|exact (Hnq row0' rows')].
      by destruct (IHrows _ _ _ Hne' E) as [-> ->].
    + destruct row' as [|cell' row']; [by destruct rows'|].
      rewrite (csvLine_cons cell), (csvLine_cons cell'). simpl.
      rewrite !append_assoc, !quoteCell_append. intros [= E].
      apply doubleQuotes_closed in E as [-> E];
        [|exact (Hnq row ((cell0 :: row0) :: rows))|exact (Hnq row' rows')].
      by destruct (IH _ _ Hne' E) as [-> ->].
Qed.

(** X17.  The exported text determines the table.  Two tables of rows, no row
    empty, that are written to the same text by the cell quoting, the
    join of the cells by semicolons and the join of the rows by newlines,
    are the same table, whatever semicolons, newlines and quotes their
    cells contain. *)
Theorem csv_text_determines_table (rows rows' : list (list string)) :
  Forall (λ row, row ≠ []) rows →
  Forall (λ row, row ≠ []) rows' →
  join newline (csvLine <$> rows) = join newline (csvLine <$> rows') →
  rows = rows'.
Proof.
  intros Hne Hne'.
  destruct rows as [|[|cell row] rows].
  - destruct rows' as [|[|cell' row'] rows']; [done| |].
    + by apply Forall_cons in Hne' as [? _].
    + rewrite (join_lines_cons (cell' :: row')), (csvLine_cons cell').
      by rewrite !append_assoc, quoteCell_append.
  - by apply Forall_cons in Hne as [? _].
  - rewrite (join_lines_cons (cell :: row)), (csvLine_cons cell).
    rewrite !append_assoc, quoteCell_append.
    destruct rows' as [|[|cell' row'] rows']; [done| |].
    + by apply Forall_cons in Hne' as [? _].
    + apply Forall_cons in Hne as [_ Hne], Hne' as [_ Hne'].
      rewrite (join_lines_cons (cell' :: row')), (csvLine_cons cell').
      rewrite !append_assoc, quoteCell_append. intros [= E].
      apply doubleQuotes_closed in E as [-> E].
      * by destruct (csv_tail_unique rows Hne row rows' row' Hne' E)
          as [-> ->].
      * intros t. by destruct row as [|? ?], rows as [|? ?].
      * intros t. by destruct row' as [|? ?], rows' as [|? ?].
Qed.

(** ** Duration display *)

Lemma hours_minutes_seconds (h m s : Z) :
  (0 ≤ h)%Z → (0 ≤ m < 60)%Z → (0 ≤ s < 60)%Z →
  ((3600 * h + 60 * m + s) / 3600 = h
   ∧ Z.rem (3600 * h + 60 * m + s) 3600 / 60 = m
   ∧ Z.rem (3600 * h + 60 * m + s) 60 = s)%Z.
Proof.
  intros Hh Hm Hs. rewrite !Z.rem_mod_nonneg by lia.
  assert ((3600 * h + 60 * m + s) `mod` 3600 = 60 * m + s)%Z as ->.
  { symmetry. apply (Z.mod_unique_pos _ _ h); lia. }
  split; [symmetry; apply (Z.div_unique_pos _ _ _ (60 * m + s)); lia|].
  split.
  - symmetry. apply (Z.div_unique_pos _ _ _ s); lia.
  - symmetry. apply (Z.mod_unique_pos _ _ (60 * h + m)); lia.
Qed.

(** X19.  formatDurationShort shows whole hours and the whole minutes of the
    rest, dropping the seconds: a duration of h hours, m minutes and s
    seconds, with m and s below 60, reads [h]h [m]m. *)
Theorem formatDurationShort_hours_minutes (h m s : Z) :
  (0 ≤ h)%Z → (0 ≤ m < 60)%Z → (0 ≤ s < 60)%Z →
  formatDurationShort (3600 * h + 60 * m + s)
  = pretty h +:+ "h " +:+ pretty m +:+ "m".
Proof.
  intros Hh Hm Hs. unfold formatDurationShort.
  destruct (hours_minutes_seconds h m s Hh Hm Hs) as (-> & -> & _). done.
Qed.

(** X20.  formatDuration shows a duration of h hours, m minutes and s seconds,
    with m and s below 60, as the three numbers separated by colons,
    each padded with a zero to two digits; minutes and seconds take
    exactly two characters, hours at least two. *)
Theorem formatDuration_clock (h m s : Z) :
  (0 ≤ h)%Z → (0 ≤ m < 60)%Z → (0 ≤ s < 60)%Z →
  formatDuration (3600 * h + 60 * m + s)
  = padStart0 2 (pretty h) +:+ ":" +:+ padStart0 2 (pretty m)
    +:+ ":" +:+ padStart0 2 (pretty s)
  ∧ 2 ≤ String.length (padStart0 2 (pretty h))
  ∧ String.length (padStart0 2 (pretty m)) = 2
  ∧ String.length (padStart0 2 (pretty s)) = 2.
Proof.
  intros Hh Hm Hs. unfold formatDuration.
  destruct (hours_minutes_seconds h m s Hh Hm Hs) as (-> & -> & ->).
  split; [done|]. split; [|split; by apply minutes_two_digits].
  unfold padStart0. generalize (pretty h). intros t.
  destruct t as [|c1 [|c2 t]]; simpl; lia.
Qed.

(** ** CSV export: the names of client and project *)

Lemma list_find_by_id {A} (key : A → string) (l : list A) (x : A)
    (wanted : option string) :
  NoDup (key <$> l) → x ∈ l → wanted = Some (key x) →
  snd <$> list_find (λ y, Some (key y) = wanted) l = Some x.
Proof.
  intros Hnd (i & Hi)%list_elem_of_lookup ->.
  assert (list_find (λ y, Some (key y) = Some (key x)) l = Some (i, x)) as ->;
    [|done].
  apply list_find_Some. split; [done|]. split; [done|].
  intros j y Hj Hlt [= Hy]. assert (j = i); [|lia].
  eapply (NoDup_lookup _ j i); [exact Hnd|..].
  - by rewrite list_lookup_fmap, Hj.
  - by rewrite list_lookup_fmap, Hi, Hy.
Qed.

Lemma list_find_no_id {A} (key : A → string) (l : list A)
    (wanted : option string) :
  (∀ x, x ∈ l → wanted ≠ Some (key x)) →
  list_find (λ y, Some (key y) = wanted) l = None.
Proof.
  intros Hno. apply list_find_None, Forall_forall.
  intros x Hx Heq. by apply (Hno x Hx).
Qed.

(** X18.  The row of an entry names its Client and its Project.  With ids
    pairwise distinct, the second cell is the name of the Client the
    entry refers to, the third that of the Project; each is 'Unbekannt'
    when the entry refers to none, when no entity has the id referred to
    (it was deleted, say), or when the name is empty.  The sixth cell is
    '-' for an entry without [endTime]. *)
Theorem csvRow_names (d : AppData) (e : TimeEntry.t) :
  (∀ c, NoDup (Client.id <$> clients d) → c ∈ clients d →
        TimeEntry.clientId e = Some (Client.id c) →
        csvRow d e !! 1
        = Some (if decide (Client.name c = "") then "Unbekannt"
                else Client.name c))
  ∧ ((∀ c, c ∈ clients d → TimeEntry.clientId e ≠ Some (Client.id c)) →
     csvRow d e !! 1 = Some "Unbekannt")
  ∧ (∀ p, NoDup (Project.id <$> projects d) → p ∈ projects d →
          TimeEntry.projectId e = Some (Project.id p) →
          csvRow d e !! 2
          = Some (if decide (Project.name p = "") then "Unbekannt"
                  else Project.name p))
  ∧ ((∀ p, p ∈ projects d → TimeEntry.projectId e ≠ Some (Project.id p)) →
     csvRow d e !! 2 = Some "Unbekannt")
  ∧ (TimeEntry.endTime e = None → csvRow d e !! 5 = Some "-").
Proof.
  unfold csvRow. simpl. split; [|split; [|split; [|split]]].
  - intros c Hnd Hc Hid. by rewrite (list_find_by_id Client.id _ c).
  - intros Hno. by rewrite (list_find_no_id Client.id).
  - intros p Hnd Hp Hid. by rewrite (list_find_by_id Project.id _ p).
  - intros Hno. by rewrite (list_find_no_id Project.id).
  - by intros ->.
Qed.

(** ** The timer panel *)

Lemma handleStartTimer_spec ui w :
  let started := startTimer "" "" "" w in
  handleStartTimer ui w
  = (App.mk (doc (snd started)) App.running (Some (fst started)) 0
       (Some "") (Some "") "",
     snd started).
Proof.
  unfold handleStartTimer, bind, loadData, ret, doc.
  by destruct (startTimer "" "" "" w).
Qed.

Lemma handlePauseTimer_spec ui w entry :
  App.currentEntry ui = Some entry →
  let w' := snd (pauseTimer (TimeEntry.id entry) w) in
  handlePauseTimer ui w
  = (App.mk (doc w') App.paused
       (Some (spreadEntry entry
                (TimeEntryUpdates.mk None None None None None None
                   (Some false))))
       (App.elapsedTime ui) (App.selectedClient ui) (App.selectedProject ui)
       (App.description ui),
     w').
Proof.
  intros Hc. unfold handlePauseTimer, bind, loadData, ret, doc. rewrite Hc.
  by destruct (pauseTimer (TimeEntry.id entry) w).
Qed.

Lemma handleResumeTimer_spec ui w entry :
  App.currentEntry ui = Some entry →
  let resumed := resumeTimer (TimeEntry.id entry) w in
  handleResumeTimer ui w
  = (match fst resumed with
     | Some entry' =>
         App.mk (doc (snd resumed)) App.running (Some entry')
           (App.elapsedTime ui) (App.selectedClient ui)
           (App.selectedProject ui) (App.description ui)
     | None =>
         App.mk (doc (snd resumed)) (App.timerState ui) (App.currentEntry ui)
           (App.elapsedTime ui) (App.selectedClient ui)
           (App.selectedProject ui) (App.description ui)
     end,
     snd resumed).
Proof.
  intros Hc. unfold handleResumeTimer, bind, loadData, ret, doc. rewrite Hc.
  by destruct (resumeTimer (TimeEntry.id entry) w).
Qed.

Lemma handleStopTimer_spec ui w entry :
  App.currentEntry ui = Some entry →
  let w1 := snd (updateTimeEntry (TimeEntry.id entry)
                   (TimeEntryUpdates.mk
                      (Some (orUndefined (App.selectedProject ui)))
                      (Some (orUndefined (App.selectedClient ui)))
                      (Some (orKeineBeschreibung (App.description ui)))
                      None None None None) w) in
  let w2 := snd (stopTimer (TimeEntry.id entry) w1) in
  handleStopTimer ui w
  = (App.mk (doc w2) App.idle None 0 (Some "") (Some "") "", w2).
Proof.
  intros Hc. unfold handleStopTimer, bind, loadData, ret, doc. rewrite Hc.
  destruct (updateTimeEntry _ _ w) as [? w1]. simpl.
  by destruct (stopTimer (TimeEntry.id entry) w1).
Qed.

Lemma running_singleton d e :
  running d = [e] → e ∈ timeEntries d ∧ TimeEntry.isRunning e = true.
Proof.
  intros Hr.
  assert (e ∈ running d) as He by (rewrite Hr; by apply list_elem_of_singleton).
  by apply list_elem_of_filter in He as [? ?].
Qed.

Lemma running_nil d e :
  running d = [] → e ∈ timeEntries d → TimeEntry.isRunning e = false.
Proof.
  intros Hr He. apply filter_nil_Forall in Hr.
  apply (proj1 (Forall_forall _ _) Hr) in He.
  by destruct (TimeEntry.isRunning e).
Qed.

Lemma filter_insert_singleton {A} (P : A → Prop) `{∀ x, Decision (P x)}
    (l : list A) i x y :
  filter P l = [x] → l !! i = Some x → P x →
  filter P (<[i := y]> l) = if decide (P y) then [y] else [].
Proof.
  intros Hf Hi Hx. rewrite insert_take_drop by (by eapply lookup_lt_Some).
  rewrite <- (take_drop_middle l i x Hi) in Hf.
  rewrite filter_app, filter_cons_True in Hf by done.
  assert (filter P (take i l) = [] ∧ filter P (drop (S i) l) = [])
    as [Ht Hd].
  { apply (f_equal length) in Hf. rewrite length_app in Hf. simpl in Hf.
    split; apply nil_length_inv; lia. }
  rewrite filter_app, filter_cons, Ht, Hd. by case_decide.
Qed.

Lemma filter_insert_nil {A} (P : A → Prop) `{∀ x, Decision (P x)}
    (l : list A) i y :
  filter P l = [] → ¬ P y → filter P (<[i := y]> l) = [].
Proof.
  intros Hf Hy. apply filter_nil_Forall. apply filter_nil_Forall in Hf.
  by apply Forall_insert.
Qed.

Lemma find_running_entry w e :
  NoDup (TimeEntry.id <$> timeEntries (doc w)) → running (doc w) = [e] →
  ∃ index,
    list_find (λ e', TimeEntry.id e' = TimeEntry.id e) (timeEntries (doc w))
    = Some (index, e)
    ∧ TimeEntry.isRunning e = true.
Proof.
  intros Hnd Hr. destruct (running_singleton _ _ Hr) as [He Hrun].
  destruct (list_find_own_id _ e Hnd He) as (index & Hf). eauto.
Qed.

Lemma find_idle_entry w e e' :
  NoDup (TimeEntry.id <$> timeEntries (doc w)) → running (doc w) = [] →
  e' ∈ timeEntries (doc w) → TimeEntry.id e' = TimeEntry.id e →
  ∃ index,
    list_find (λ e'', TimeEntry.id e'' = TimeEntry.id e) (timeEntries (doc w))
    = Some (index, e')
    ∧ TimeEntry.isRunning e' = false.
Proof.
  intros Hnd Hr He Hid.
  destruct (list_find_own_id _ e' Hnd He) as (index & Hf).
  rewrite Hid in Hf. exists index. split; [done|]. by eapply running_nil.
Qed.

(** What handleStopTimer leaves in the store, by the state of the entry
    it finds. *)

Lemma handleStopTimer_running ui w e :
  NoDup (TimeEntry.id <$> timeEntries (doc w)) →
  App.currentEntry ui = Some e →
  running (doc w) = [e] →
  let u := TimeEntryUpdates.mk
             (Some (orUndefined (App.selectedProject ui)))
             (Some (orUndefined (App.selectedClient ui)))
             (Some (orKeineBeschreibung (App.description ui)))
             None None None None in
  ∃ index w',
    timeEntries (doc w) !! index = Some e
    ∧ handleStopTimer ui w
      = (App.mk (doc w') App.idle None 0 (Some "") (Some "") "", w')
    ∧ doc w'
      = set_timeEntries
          (<[index := stoppedAt (clock (clockReads w)) (spreadEntry e u)]>
             (timeEntries (doc w)))
          (doc w)
    ∧ running (doc w') = [].
Proof.
  intros Hnd Hcur Hrun u.
  destruct (find_running_entry w e Hnd Hrun) as (index & Hf & Hr).
  rewrite (handleStopTimer_spec ui w e Hcur). fold u.
  destruct (updateTimeEntry_spec (TimeEntry.id e) u w index e Hf)
    as (w1 & -> & Hd1 & Hc1 & _).
  cbn [snd].
  assert (list_find (λ e', TimeEntry.id e' = TimeEntry.id e)
            (timeEntries (doc w1)) = Some (index, spreadEntry e u)) as Hf1.
  { rewrite Hd1. simpl. by eapply list_find_insert. }
  destruct (stopTimer_spec (TimeEntry.id e) w1 index (spreadEntry e u) Hf1 Hr)
    as (w2 & -> & Hd2 & _).
  cbn [snd]. apply list_find_Some in Hf as (Hi & _).
  exists index, w2. split; [done|]. split; [done|].
  rewrite Hd2, Hd1, Hc1. simpl. rewrite list_insert_insert_eq.
  split; [done|]. unfold running in *. simpl.
  by rewrite (filter_insert_singleton _ _ index e) by done.
Qed.

Lemma handleStopTimer_paused ui w e e0 :
  NoDup (TimeEntry.id <$> timeEntries (doc w)) →
  App.currentEntry ui = Some e →
  running (doc w) = [] →
  e0 ∈ timeEntries (doc w) →
  TimeEntry.id e0 = TimeEntry.id e →
  let u := TimeEntryUpdates.mk
             (Some (orUndefined (App.selectedProject ui)))
             (Some (orUndefined (App.selectedClient ui)))
             (Some (orKeineBeschreibung (App.description ui)))
             None None None None in
  ∃ index w',
    timeEntries (doc w) !! index = Some e0
    ∧ handleStopTimer ui w
      = (App.mk (doc w') App.idle None 0 (Some "") (Some "") "", w')
    ∧ doc w'
      = set_timeEntries (<[index := spreadEntry e0 u]> (timeEntries (doc w)))
          (doc w)
    ∧ running (doc w') = [].
Proof.
  intros Hnd Hcur Hrun He0 Hid u.
  destruct (find_idle_entry w e e0 Hnd Hrun He0 Hid) as (index & Hf & Hr).
  rewrite (handleStopTimer_spec ui w e Hcur). fold u.
  destruct (updateTimeEntry_spec (TimeEntry.id e) u w index e0 Hf)
    as (w1 & -> & Hd1 & Hc1 & _).
  cbn [snd].
  assert (list_find (λ e', TimeEntry.id e' = TimeEntry.id e)
            (timeEntries (doc w1)) = Some (index, spreadEntry e0 u)) as Hf1.
  { rewrite Hd1. simpl. by eapply list_find_insert. }
  rewrite stopTimer_noop by (right; by eexists _, _).
  cbn [snd]. apply list_find_Some in Hf as (Hi & _).
  exists index, w1. split; [done|]. split; [done|]. split; [done|].
  rewrite Hd1. unfold running in *. simpl.
  apply filter_insert_nil; [done|]. simpl. by rewrite Hr.
Qed.

(** X21.  Stop while the timer runs.  Let the store accept every write
    ([setItem_accepts]) and the entries have pairwise distinct ids.  With
    the panel in step with the store and running, handleStopTimer writes
    the details of the form to the running entry (client and project,
    undefined when nothing or the empty string is selected; the
    description, 'Keine Beschreibung' when empty) and then closes it:
    [endTime] is the time of the call, [duration] is raised by the whole
    seconds since [startTime].  Nothing runs afterwards and the panel is
    idle with a fresh copy of the document.  (JSON.parse is taken to
    invert JSON.stringify on documents, whose text is not empty.) *)
Theorem handleStopTimer_closes_running_entry (ui : App.t) (w : World) :
  NoDup (TimeEntry.id <$> timeEntries (doc w)) →
  App.timerState ui = App.running →
  inSync ui w →
  let now := clock (clockReads w) in
  let ui' := fst (handleStopTimer ui w) in
  let w' := snd (handleStopTimer ui w) in
  App.timerState ui' = App.idle
  ∧ App.currentEntry ui' = None
  ∧ App.data ui' = doc w'
  ∧ running (doc w') = []
  ∧ ∃ index e e',
      App.currentEntry ui = Some e
      ∧ timeEntries (doc w) !! index = Some e
      ∧ timeEntries (doc w') = <[index := e']> (timeEntries (doc w))
      ∧ TimeEntry.id e' = TimeEntry.id e
      ∧ TimeEntry.createdAt e' = TimeEntry.createdAt e
      ∧ TimeEntry.projectId e'
        = match App.selectedProject ui with
          | Some s => if decide (s = "") then None else Some s
          | None => None
          end
      ∧ TimeEntry.clientId e'
        = match App.selectedClient ui with
          | Some s => if decide (s = "") then None else Some s
          | None => None
          end
      ∧ TimeEntry.description e'
        = (if decide (App.description ui = "") then "Keine Beschreibung"
           else App.description ui)
      ∧ TimeEntry.startTime e' = TimeEntry.startTime e
      ∧ TimeEntry.endTime e' = Some (toISOString now)
      ∧ TimeEntry.duration e'
        = ((now - Date_getTime (TimeEntry.startTime e)) / 1000
           + TimeEntry.duration e)%Z
      ∧ TimeEntry.isRunning e' = false.
Proof.
  intros Hnd Hst Hsync now ui' w'. subst now ui' w'.
  unfold inSync in Hsync. rewrite Hst in Hsync.
  destruct Hsync as (e & Hcur & Hrun).
  destruct (handleStopTimer_running ui w e Hnd Hcur Hrun)
    as (index & w' & Hi & -> & Hd & Hnone).
  cbn [fst snd App.timerState App.currentEntry App.data].
  split; [done|]. split; [done|]. split; [done|]. split; [done|].
  eexists index, e, _. split; [done|]. split; [done|].
  rewrite Hd. simpl. split; [reflexivity|]. by repeat split.
Qed.

(** X22.  Stop while the timer is paused.  Let the store accept every write
    ([setItem_accepts]) and the entries have pairwise distinct ids.  With
    the panel in step with the store and paused, handleStopTimer writes
    the details of the form to the entry (client and project, undefined
    when nothing or the empty string is selected; the description,
    'Keine Beschreibung' when empty) and returns the panel to idle, but
    stopTimer, finding the entry idle, does nothing: the entry keeps its
    [duration] and its [endTime], so an entry that was never stopped is
    left without one.  (JSON.parse is taken to invert JSON.stringify on
    documents, whose text is not empty.) *)
Theorem handleStopTimer_leaves_paused_entry_open (ui : App.t) (w : World) :
  NoDup (TimeEntry.id <$> timeEntries (doc w)) →
  App.timerState ui = App.paused →
  inSync ui w →
  let ui' := fst (handleStopTimer ui w) in
  let w' := snd (handleStopTimer ui w) in
  App.timerState ui' = App.idle
  ∧ App.currentEntry ui' = None
  ∧ running (doc w') = []
  ∧ ∃ index e e',
      timeEntries (doc w) !! index = Some e
      ∧ Some (TimeEntry.id e) = TimeEntry.id <$> App.currentEntry ui
      ∧ timeEntries (doc w') = <[index := e']> (timeEntries (doc w))
      ∧ TimeEntry.id e' = TimeEntry.id e
      ∧ TimeEntry.createdAt e' = TimeEntry.createdAt e
      ∧ TimeEntry.projectId e'
        = match App.selectedProject ui with
          | Some s => if decide (s = "") then None else Some s
          | None => None
          end
      ∧ TimeEntry.clientId e'
        = match App.selectedClient ui with
          | Some s => if decide (s = "") then None else Some s
          | None => None
          end
      ∧ TimeEntry.description e'
        = (if decide (App.description ui = "") then "Keine Beschreibung"
           else App.description ui)
      ∧ TimeEntry.endTime e' = TimeEntry.endTime e
      ∧ TimeEntry.duration e' = TimeEntry.duration e
      ∧ TimeEntry.startTime e' = TimeEntry.startTime e
      ∧ TimeEntry.isRunning e' = TimeEntry.isRunning e
      ∧ TimeEntry.isRunning e = false.
Proof.
  intros Hnd Hst Hsync ui' w'. subst ui' w'.
  unfold inSync in Hsync. rewrite Hst in Hsync.
  destruct Hsync as (e & e0 & Hcur & Hrun & He0 & Hid).
  destruct (handleStopTimer_paused ui w e e0 Hnd Hcur Hrun He0 Hid)
    as (index & w' & Hi & -> & Hd & Hnone).
  cbn [fst snd App.timerState App.currentEntry App.data].
  split; [done|]. split; [done|]. split; [done|].
  eexists index, e0, _. split; [done|]. split; [by rewrite Hcur, Hid|].
  rewrite Hd. simpl. split; [reflexivity|].
  repeat split; try done. by apply (running_nil (doc w)).
Qed.

(** What stopTimer returns for a running entry, whatever the store does
    with the write. *)

Lemma stopTimer_returns entryId w index entry :
  list_find (λ e, TimeEntry.id e = entryId) (timeEntries (doc w))
    = Some (index, entry) →
  TimeEntry.isRunning entry = true →
  fst (stopTimer entryId w) = Some (stoppedAt (clock (clockReads w)) entry).
Proof.
  intros Hf Hr. unfold stopTimer, bind, loadData.
  change (data (loaded w)) with (doc w). rewrite Hf, Hr. simpl.
  set (w1 := mkWorld _ _ _ _).
  destruct (updateTimeEntry_found entryId
              (TimeEntryUpdates.mk None None None None
                 (Some (Some (toISOString (clock (clockReads w)))))
                 (Some (elapsed (clock (clockReads w)) entry)) (Some false))
              w1 index entry Hf) as (w' & -> & _).
  done.
Qed.

(** X23.  The running display shows what a stop would store.  Let the
    entries have pairwise distinct ids.  With the panel in step with the
    store and running, the interval's callback sets [elapsedTime] to the
    whole seconds from the [startTime] of the entry on display to the
    reading of the clock, plus its [duration]: the [duration] of the
    entry that stopTimer returns at the same reading of the clock,
    whether or not the store accepts the write of the stop. *)
Theorem tick_shows_stop_duration (ui : App.t) (w : World) :
  NoDup (TimeEntry.id <$> timeEntries (doc w)) →
  App.timerState ui = App.running →
  inSync ui w →
  ∃ e e',
    App.currentEntry ui = Some e
    ∧ App.elapsedTime (fst (tick ui w))
      = ((clock (clockReads w) - Date_getTime (TimeEntry.startTime e)) / 1000
         + TimeEntry.duration e)%Z
    ∧ fst (stopTimer (TimeEntry.id e) w) = Some e'
    ∧ App.elapsedTime (fst (tick ui w)) = TimeEntry.duration e'.
Proof.
  intros Hnd Hst Hsync. unfold inSync in Hsync. rewrite Hst in Hsync.
  destruct Hsync as (e & Hcur & Hrun).
  destruct (find_running_entry w e Hnd Hrun) as (index & Hf & Hr).
  exists e. eexists. split; [done|].
  rewrite (stopTimer_returns _ w index e Hf Hr).
  unfold tick. rewrite Hst, Hcur. by repeat split.
Qed.

Lemma startTimer_running projectId clientId description w :
  running (doc (snd (startTimer projectId clientId description w)))
  = [fst (startTimer projectId clientId description w)].
Proof.
  destruct (startTimer_spec projectId clientId description w)
    as (w' & -> & Hd & _).
  simpl. rewrite Hd. unfold running. simpl.
  by rewrite filter_app, running_closed.
Qed.

Lemma idsInv_NoDup w :
  idsInv w → NoDup (TimeEntry.id <$> timeEntries (doc w)).
Proof. by intros (_ & _ & [? _]). Qed.

Lemma handlePauseTimer_inSync ui w :
  NoDup (TimeEntry.id <$> timeEntries (doc w)) → inSync ui w →
  inSync (fst (handlePauseTimer ui w)) (snd (handlePauseTimer ui w)).
Proof.
  intros Hnd Hsync.
  destruct (App.currentEntry ui) as [e|] eqn:Hcur;
    [|unfold handlePauseTimer; by rewrite Hcur].
  rewrite (handlePauseTimer_spec ui w e Hcur). cbn [fst snd].
  unfold inSync in *. cbn [App.timerState App.currentEntry].
  destruct (App.timerState ui).
  - destruct Hsync as [? _]. congruence.
  - destruct Hsync as (e1 & He1 & Hrun). rewrite Hcur in He1.
    injection He1 as <-.
    destruct (find_running_entry w e Hnd Hrun) as (index & Hf & Hr).
    destruct (pauseTimer_spec (TimeEntry.id e) w index e Hf Hr)
      as (w' & -> & Hd & _).
    cbn [snd]. apply list_find_Some in Hf as (Hi & _).
    eexists _, (pausedAt (clock (clockReads w)) e). split; [done|].
    rewrite Hd. simpl. split; [|split; [|done]].
    + unfold running in *. cbn [timeEntries set_timeEntries].
      by rewrite (filter_insert_singleton _ _ index e) by done.
    + eapply list_elem_of_lookup_2, list_lookup_insert_eq.
      by eapply lookup_lt_Some.
  - destruct Hsync as (e1 & e0 & He1 & Hrun & He0 & Hid).
    rewrite Hcur in He1. injection He1 as <-.
    destruct (find_idle_entry w e e0 Hnd Hrun He0 Hid) as (index & Hf & Hr).
    rewrite pauseTimer_noop by (right; by eexists _, _).
    by eexists _, e0.
Qed.

Lemma handleResumeTimer_inSync ui w :
  NoDup (TimeEntry.id <$> timeEntries (doc w)) → inSync ui w →
  inSync (fst (handleResumeTimer ui w)) (snd (handleResumeTimer ui w)).
Proof.
  intros Hnd Hsync.
  destruct (App.currentEntry ui) as [e|] eqn:Hcur;
    [|unfold handleResumeTimer; by rewrite Hcur].
  rewrite (handleResumeTimer_spec ui w e Hcur). cbn [fst snd].
  unfold inSync in *. destruct (App.timerState ui) eqn:Hst.
  - destruct Hsync as [? _]. congruence.
  - destruct Hsync as (e1 & He1 & Hrun). rewrite Hcur in He1.
    injection He1 as <-.
    destruct (find_running_entry w e Hnd Hrun) as (index & Hf & Hr).
    rewrite resumeTimer_noop by (right; by eexists _, _).
    simpl. by exists e.
  - destruct Hsync as (e1 & e0 & He1 & Hrun & He0 & Hid).
    rewrite Hcur in He1. injection He1 as <-.
    destruct (find_idle_entry w e e0 Hnd Hrun He0 Hid) as (index & Hf & Hr).
    destruct (resumeTimer_spec (TimeEntry.id e) w index e0 Hf Hr)
      as (w' & -> & Hd & _).
    cbn [fst snd App.timerState App.currentEntry].
    eexists. split; [done|]. rewrite Hd. unfold running. simpl.
    apply list_find_Some in Hf as (Hi & _).
    apply filter_insert_only; [|apply running_closed|done].
    rewrite length_fmap. by eapply lookup_lt_Some.
Qed.

Lemma handleStopTimer_inSync ui w :
  NoDup (TimeEntry.id <$> timeEntries (doc w)) → inSync ui w →
  inSync (fst (handleStopTimer ui w)) (snd (handleStopTimer ui w)).
Proof.
  intros Hnd Hsync.
  destruct (App.currentEntry ui) as [e|] eqn:Hcur;
    [|unfold handleStopTimer; by rewrite Hcur].
  unfold inSync in Hsync. destruct (App.timerState ui).
  - destruct Hsync as [? _]. congruence.
  - destruct Hsync as (e1 & He1 & Hrun). rewrite Hcur in He1.
    injection He1 as <-.
    by destruct (handleStopTimer_running ui w e Hnd Hcur Hrun)
      as (index & w' & _ & -> & _ & Hnone).
  - destruct Hsync as (e1 & e0 & He1 & Hrun & He0 & Hid).
    rewrite Hcur in He1. injection He1 as <-.
    by destruct (handleStopTimer_paused ui w e e0 Hnd Hcur Hrun He0 Hid)
      as (index & w' & _ & -> & _ & Hnone).
Qed.

Lemma panel_inSync ev ui w :
  NoDup (TimeEntry.id <$> timeEntries (doc w)) → inSync ui w →
  inSync (fst (panel ev ui w)) (snd (panel ev ui w)).
Proof.
  intros Hnd Hsync. destruct ev; unfold panel.
  - rewrite handleStartTimer_spec. cbn [fst snd]. unfold inSync.
    cbn [App.timerState App.currentEntry]. eexists. split; [done|].
    apply startTimer_running.
  - by apply handlePauseTimer_inSync.
  - by apply handleResumeTimer_inSync.
  - by apply handleStopTimer_inSync.
  - unfold tick. destruct (App.timerState ui) eqn:Hst; [done| |done].
    destruct (App.currentEntry ui) as [e|] eqn:Hcur; [|done].
    unfold inSync in *. cbn [fst snd bind ret newDate App.timerState
      App.currentEntry]. by rewrite Hst, Hcur in *.
  - done.
Qed.

Lemma idsInv_newDate w : idsInv w → idsInv (snd (newDate w)).
Proof. done. Qed.

Lemma panel_idsInv ev ui w : idsInv w → idsInv (snd (panel ev ui w)).
Proof.
  intros Hinv. destruct ev; unfold panel.
  - rewrite handleStartTimer_spec. apply (call_idsInv (StartTimer "" "" "")).
    done.
  - destruct (App.currentEntry ui) as [e|] eqn:Hcur;
      [|unfold handlePauseTimer; by rewrite Hcur].
    rewrite (handlePauseTimer_spec ui w e Hcur).
    by apply (call_idsInv (PauseTimer (TimeEntry.id e))).
  - destruct (App.currentEntry ui) as [e|] eqn:Hcur;
      [|unfold handleResumeTimer; by rewrite Hcur].
    rewrite (handleResumeTimer_spec ui w e Hcur).
    by apply (call_idsInv (ResumeTimer (TimeEntry.id e))).
  - destruct (App.currentEntry ui) as [e|] eqn:Hcur;
      [|unfold handleStopTimer; by rewrite Hcur].
    rewrite (handleStopTimer_spec ui w e Hcur).
    apply (call_idsInv (StopTimer (TimeEntry.id e))).
    by apply (apiCall_idsInv (UpdateTimeEntry (TimeEntry.id e) _)).
  - unfold tick. destruct (App.timerState ui); [done| |done].
    by destruct (App.currentEntry ui).
  - done.
Qed.

Lemma panelRun_inSync evs (s : App.t * World) :
  idsInv (snd s) → inSync (fst s) (snd s) →
  inSync (fst (panelRun evs s)) (snd (panelRun evs s))
  ∧ idsInv (snd (panelRun evs s)).
Proof.
  revert s. induction evs as [|ev evs IH]; intros s Hinv Hsync; [done|].
  change (panelRun (ev :: evs) s)
    with (panelRun evs (panel ev (fst s) (snd s))).
  apply IH.
  - by apply panel_idsInv.
  - apply panel_inSync; [by apply idsInv_NoDup|done].
Qed.

(** X24.  The panel stays in step with the store.  Let the store accept
    every write ([setItem_accepts]) and randomUUID never return an id
    twice ([uuids_inj]).  Start with ids pairwise distinct, none of them
    one randomUUID is still to return, and the panel in step with the
    store: idle with nothing running, running with the entry on display
    the one running entry of the store, or paused with nothing running
    and the entry on display in the store.  Then after any sequence of
    clicks on the four buttons, ticks and edits of the form the panel is
    again in step, and at most one entry runs.  (JSON.parse is taken to
    invert JSON.stringify on documents, whose text is not empty.) *)
Theorem panel_stays_in_sync (evs : list PanelEvent) (ui : App.t) (w : World) :
  idsInv w →
  inSync ui w →
  let ui' := fst (panelRun evs (ui, w)) in
  let w' := snd (panelRun evs (ui, w)) in
  inSync ui' w'
  ∧ length (running (doc w')) ≤ 1
  ∧ (App.timerState ui' = App.idle ↔ App.currentEntry ui' = None).
Proof.
  intros Hinv Hsync ui' w'. subst ui' w'.
  destruct (panelRun_inSync evs (ui, w) Hinv Hsync) as [Hs _].
  split; [done|]. unfold inSync in Hs.
  destruct (App.timerState (fst (panelRun evs (ui, w)))).
  - destruct Hs as [-> ->]. split; [simpl; lia|]. by split.
  - destruct Hs as (e & -> & ->). split; [simpl; lia|]. by split.
  - destruct Hs as (e & e' & -> & -> & _). split; [simpl; lia|]. by split.
Qed.

Lemma getRunningTimer_head w :
  getRunningTimer w = (head (running (doc w)), w).
Proof.
  unfold getRunningTimer, bind, loadData, ret, running.
  by rewrite list_find_head.
Qed.

(** X25.  Loading the page.  With at most one entry running in the store,
    mount leaves the world as it is and puts the panel in step with it:
    running on the running entry when there is one, with the form filled
    from it, idle otherwise.  A paused entry is not picked up: a panel
    that was paused is idle after a reload. *)
Theorem mount_shows_the_running_timer (w : World) :
  length (running (doc w)) ≤ 1 →
  snd (mount w) = w
  ∧ App.data (fst (mount w)) = doc w
  ∧ inSync (fst (mount w)) w
  ∧ (∀ e, running (doc w) = [e] →
          fst (mount w)
          = App.mk (doc w) App.running (Some e) 0 (TimeEntry.clientId e)
              (TimeEntry.projectId e) (TimeEntry.description e))
  ∧ (∀ ui, App.timerState ui = App.paused → inSync ui w →
           App.timerState (fst (mount w)) = App.idle
           ∧ App.currentEntry (fst (mount w)) = None).
Proof.
  intros Hlen. unfold mount, bind, loadData, ret.
  rewrite getRunningTimer_head. change (data (loaded w)) with (doc w).
  destruct (running (doc w)) as [|e [|e' l]] eqn:Hrun; simpl in *; [| |lia].
  - split; [done|]. split; [done|]. split; [by split|]. split; [done|].
    by intros ui _ _.
  - split; [done|]. split; [done|]. split; [by exists e|].
    split; [by intros ? [= <-]|].
    intros ui Hst Hsync. unfold inSync in Hsync. rewrite Hst in Hsync.
    destruct Hsync as (? & ? & _ & Hnone & _). congruence.
Qed.

Lemma StronglySorted_take_drop {A} (R : A → A → Prop) (l : list A) n :
  StronglySorted R l →
  StronglySorted R (take n l)
  ∧ ∀ x y, x ∈ take n l → y ∈ drop n l → R x y.
Proof.
  intros Hl. revert n. induction Hl as [|a l Hl IH Ha]; intros [|n]; simpl.
  - split; [constructor|]. by intros x y ?%elem_of_nil.
  - split; [constructor|]. by intros x y ?%elem_of_nil.
  - split; [constructor|]. by intros x y ?%elem_of_nil.
  - destruct (IH n) as [Hs Hc]. split.
    + constructor; [done|]. by apply Forall_take.
    + intros x y [->|Hx]%elem_of_cons Hy; [|by apply Hc].
      apply (proj1 (Forall_forall _ _) Ha).
      apply list_elem_of_lookup in Hy as (i & Hi).
      rewrite lookup_drop in Hi. by eapply list_elem_of_lookup_2.
Qed.

(** X26.  The recent entries of the dashboard are the closed entries that
    ended last.  The list holds ten entries, or all closed entries when
    there are fewer; it is ordered by the time of [endTime], latest
    first; every closed entry left out ended no later than every entry
    listed.  Each listed entry is idle and has an [endTime]: a running
    entry, or one left without [endTime], is never listed. *)
Theorem recentEntries_latest_closed (d : AppData) :
  length (recentEntries d) = 10 `min` length (filter closed (timeEntries d))
  ∧ StronglySorted (λ a b, (ended b ≤ ended a)%Z) (recentEntries d)
  ∧ (∃ rest,
       recentEntries d ++ rest ≡ₚ filter closed (timeEntries d)
       ∧ ∀ x y, x ∈ recentEntries d → y ∈ rest → (ended y ≤ ended x)%Z)
  ∧ (∀ e, e ∈ recentEntries d →
          e ∈ timeEntries d
          ∧ TimeEntry.isRunning e = false
          ∧ TimeEntry.endTime e ≠ None).
Proof.
  unfold recentEntries.
  set (sorted := sortBy _ (filter closed (timeEntries d))).
  assert (sorted ≡ₚ filter closed (timeEntries d)) as Hperm
    by apply sortBy_Permutation.
  assert (StronglySorted (λ a b, (ended b ≤ ended a)%Z) sorted) as Hsorted
    by apply (sortBy_descending ended).
  destruct (StronglySorted_take_drop _ sorted 10 Hsorted) as [Ht Hc].
  split; [by rewrite length_take, Hperm|]. split; [done|]. split.
  - exists (drop 10 sorted). split; [by rewrite take_drop|done].
  - intros e He.
    assert (e ∈ filter closed (timeEntries d)) as Hin.
    { rewrite <- Hperm. apply elem_of_take in He as (i & Hi & _).
      by eapply list_elem_of_lookup_2. }
    apply list_elem_of_filter in Hin as [(? & ? & _) ?]. done.
Qed.

End Accepting.

(** ** Whatever the store does, and what an accepting store adds

    What a call returns does not depend on whether its writes were
    accepted; the document read back afterwards does. *)

Lemma loaded_shared_timeEntries w (l : list TimeEntry.t) c u :
  sharesTimeEntries (loaded w) = true →
  timeEntries
    (doc (mkWorld (set_timeEntries l (defaultData w)) (localStorage w) c u))
  = l.
Proof.
  unfold doc, loaded. simpl. destruct (localStorage w) as [stored|]; [|done].
  case_bool_decide; [done|].
  destruct (JSON_parse stored) as [[o|]|]; simpl; [|done..].
  destruct (rawTimeEntries o); [|done]. by rewrite bool_decide_eq_false_2.
Qed.

Lemma stopAllRunningTimers_entries w :
  let w1 := snd (stopAllRunningTimers w) in
  (timeEntries (doc w1)
   = closeEntry (clock (clockReads w)) <$> timeEntries (doc w)
   ∨ timeEntries (doc w1) = timeEntries (doc w))
  ∧ clockReads w1 = S (clockReads w)
  ∧ uuidsDrawn w1 = uuidsDrawn w.
Proof.
  unfold stopAllRunningTimers. exec.
  destruct (setItem_ok _).
  - split; [left; by rewrite doc_saved|].
    by destruct (sharesTimeEntries (loaded w)).
  - destruct (sharesTimeEntries (loaded w)) eqn:Hsh.
    + split; [left|done]. exact (loaded_shared_timeEntries w _ _ _ Hsh).
    + split; [right; reflexivity|done].
Qed.

Lemma addTimeEntry_returns entry w :
  fst (addTimeEntry entry w)
  = newEntryOf entry (uuids (uuidsDrawn w)) (toISOString (clock (clockReads w)))
  ∧ clockReads (snd (addTimeEntry entry w)) = S (clockReads w)
  ∧ uuidsDrawn (snd (addTimeEntry entry w)) = S (uuidsDrawn w).
Proof.
  unfold addTimeEntry. exec.
  by destruct (setItem_ok _), (sharesTimeEntries (loaded w)).
Qed.

Lemma startTimer_returns projectId clientId description w :
  let c := clockReads w in
  let started := startTimer projectId clientId description w in
  fst started
  = TimeEntry.mk (uuids (uuidsDrawn w)) (Some projectId) (Some clientId)
      description (toISOString (clock (S c))) None 0 true
      (toISOString (clock (S (S c))))
  ∧ clockReads (snd started) = S (S (S c))
  ∧ uuidsDrawn (snd started) = S (uuidsDrawn w).
Proof.
  intros c started. subst c started. unfold startTimer, bind.
  destruct (stopAllRunningTimers_entries w) as (_ & Hc & Hu).
  destruct (stopAllRunningTimers w) as [[] w1]. cbn [snd] in Hc, Hu.
  change (newDate w1)
    with (clock (clockReads w1),
          mkWorld (defaultData w1) (localStorage w1) (S (clockReads w1))
            (uuidsDrawn w1)).
  cbv beta iota. set (w2 := mkWorld _ _ _ _).
  destruct (addTimeEntry_returns
              (TimeEntryFields.mk (Some projectId) (Some clientId) description
                 (toISOString (clock (clockReads w1))) None 0 true) w2)
    as (He & Hc2 & Hu2).
  destruct (addTimeEntry _ w2) as [e w3]. cbn [fst snd] in *. subst e.
  rewrite Hc2, Hu2. subst w2. simpl. by rewrite Hc, Hu.
Qed.

Lemma resumeTimer_returns entryId w index entry :
  list_find (λ e, TimeEntry.id e = entryId) (timeEntries (doc w))
    = Some (index, entry) →
  TimeEntry.isRunning entry = false →
  fst (resumeTimer entryId w)
  = Some (resumedAt (clock (S (clockReads w))) entry).
Proof.
  intros Hf Hr. unfold resumeTimer, bind, loadData.
  change (data (loaded w)) with (doc w). rewrite Hf. cbv beta iota.
  rewrite Hr. cbv beta iota.
  destruct (stopAllRunningTimers_entries w) as (He & Hc & _).
  destruct (stopAllRunningTimers w) as [[] w1]. cbn [snd] in He, Hc.
  unfold newDate at 1. set (w2 := mkWorld _ _ _ _).
  assert (list_find (λ e, TimeEntry.id e = entryId) (timeEntries (doc w2))
          = Some (index, entry)) as Hf2.
  { change (doc w2) with (doc w1). destruct He as [-> | ->]; [|done].
    rewrite list_find_closeEntry, Hf. simpl. by rewrite closeEntry_idle. }
  destruct (updateTimeEntry_found entryId
              (TimeEntryUpdates.mk None None None
                 (Some (toISOString (clock (clockReads w1)))) None None (Some true))
              w2 index entry Hf2) as (w' & -> & _).
  simpl. by rewrite Hc.
Qed.

(** C2 (as the code has it).  resumeTimer returns null, and changes
    nothing, when no entry has the id or the first such entry is running.
    Otherwise, whether or not the entry has an [endTime], it returns the
    entry with a new [startTime] and [isRunning] true, its other fields,
    [duration] and [endTime] among them, as they were.  Provided the
    store accepts every write, it has closed every running entry, and in
    the document read back the returned entry has taken the place of the
    old one and is the only running one.  (JSON.parse is taken to invert
    JSON.stringify on documents, whose text is not empty.) *)
Theorem resumeTimer_ignores_endTime (w : World) (entryId : string) :
  ((list_find (λ e, TimeEntry.id e = entryId) (timeEntries (doc w)) = None
    ∨ ∃ index entry,
        list_find (λ e, TimeEntry.id e = entryId) (timeEntries (doc w))
          = Some (index, entry)
        ∧ TimeEntry.isRunning entry = true) →
   resumeTimer entryId w = (None, w))
  ∧ (∀ index entry,
       list_find (λ e, TimeEntry.id e = entryId) (timeEntries (doc w))
         = Some (index, entry) →
       TimeEntry.isRunning entry = false →
       ∃ w' e',
         resumeTimer entryId w = (Some e', w')
         ∧ TimeEntry.startTime e' = toISOString (clock (S (clockReads w)))
         ∧ TimeEntry.isRunning e' = true
         ∧ TimeEntry.duration e' = TimeEntry.duration entry
         ∧ TimeEntry.endTime e' = TimeEntry.endTime entry
         ∧ TimeEntry.id e' = TimeEntry.id entry
         ∧ TimeEntry.projectId e' = TimeEntry.projectId entry
         ∧ TimeEntry.clientId e' = TimeEntry.clientId entry
         ∧ TimeEntry.description e' = TimeEntry.description entry
         ∧ TimeEntry.createdAt e' = TimeEntry.createdAt entry
         ∧ ((∀ s, setItem_ok s = true) →
            timeEntries (doc w')
            = <[index := e']>
                (closeEntry (clock (clockReads w)) <$> timeEntries (doc w))
            ∧ clients (doc w') = clients (doc w)
            ∧ projects (doc w') = projects (doc w)
            ∧ (∀ j e, timeEntries (doc w') !! j = Some e →
                      TimeEntry.isRunning e = true → j = index))).
Proof.
  split; [apply resumeTimer_noop|].
  intros index entry Hf Hr.
  pose proof (resumeTimer_returns entryId w index entry Hf Hr) as Hret.
  destruct (resumeTimer entryId w) as [r w'] eqn:Hres. cbn [fst] in Hret.
  subst r. eexists _, _. split; [reflexivity|]. simpl.
  repeat (split; [done|]).
  intros Hacc.
  destruct (resumeTimer_spec Hacc entryId w index entry Hf Hr)
    as (w'' & Hres' & Hd & _).
  rewrite Hres in Hres'. injection Hres' as <-. rewrite Hd. simpl.
  repeat (split; [done|]).
  intros j e Hj Hrun. destruct (decide (j = index)) as [|Hne]; [done|].
  rewrite list_lookup_insert_ne in Hj by done.
  rewrite list_lookup_fmap in Hj.
  destruct (timeEntries (doc w) !! j) as [e0|]; [|done].
  injection Hj as <-. by rewrite closeEntry_not_running in Hrun.
Qed.

(** C9 (as the code has it).  loadData fills in missing top-level fields
    with the arrays of [defaultData] as they are at the time of the call.
    In any world: when the stored text parses to an object, the result is
    a fresh object holding each stored array and, for each absent key,
    the array of [defaultData]; the result is the [defaultData] object
    itself exactly when the item is missing or its text does not parse
    (the empty string does not).  Those arrays are empty, so that every
    absent field reads as an empty array and the default is the all-empty
    document, when [defaultData] is as declared, and in every world
    reached from a freshly loaded module by the exported functions when
    the store accepts every write.  (A rejected write leaves what the
    call pushed in the arrays of [defaultData].  JSON.parse is taken to
    reject the empty string and to invert JSON.stringify on documents,
    whose text is not empty.) *)
Theorem loadData_fills_missing_fields (stored0 : option string) (w : World) :
  let h := fst (loadData w) in
  (∀ stored o,
     localStorage w = Some stored → JSON_parse stored = Some (JSObject o) →
     isDefaultData h = false
     ∧ clients (data h) = default (clients (defaultData w)) (rawClients o)
     ∧ projects (data h) = default (projects (defaultData w)) (rawProjects o)
     ∧ timeEntries (data h)
       = default (timeEntries (defaultData w)) (rawTimeEntries o))
  ∧ (isDefaultData h = true ↔
       localStorage w = None
       ∨ ∃ stored, localStorage w = Some stored ∧ JSON_parse stored = None)
  ∧ (isDefaultData h = true → data h = defaultData w)
  ∧ (defaultData w = mkAppData [] [] []
     ∨ (∀ s, setItem_ok s = true) ∧ apiReachable (freshWorld stored0) w →
     (∀ stored o,
        localStorage w = Some stored → JSON_parse stored = Some (JSObject o) →
        clients (data h) = default [] (rawClients o)
        ∧ projects (data h) = default [] (rawProjects o)
        ∧ timeEntries (data h) = default [] (rawTimeEntries o))
     ∧ (isDefaultData h = true → data h = mkAppData [] [] [])).
Proof.
  intros h. destruct (loaded_spread w) as (Hobj & Hiff & Hdef).
  fold h in Hobj, Hiff, Hdef.
  split; [done|]. split; [done|]. split; [done|].
  assert (defaultData w = emptyData →
          (∀ stored o,
             localStorage w = Some stored →
             JSON_parse stored = Some (JSObject o) →
             clients (data h) = default [] (rawClients o)
             ∧ projects (data h) = default [] (rawProjects o)
             ∧ timeEntries (data h) = default [] (rawTimeEntries o))
          ∧ (isDefaultData h = true → data h = mkAppData [] [] []))
    as Hpristine.
  { intros Hd. destruct (loaded_pristine w Hd) as (Hobj' & _ & Hdef').
    split; [|done]. intros stored o Hs Hp.
    by destruct (Hobj' stored o Hs Hp) as (_ & ? & ? & ?). }
  intros [Hd|[Hacc Hreach]]; [by apply Hpristine|].
  apply (apiReachable_settled Hacc) in Hreach as [Hd|(d & Hs)];
    [by apply Hpristine|].
  subst h. simpl. rewrite (loaded_stored d w Hs). simpl. split; [|done].
  intros stored o. rewrite Hs. intros [= <-]. rewrite parse_stringify.
  by intros [= <-].
Qed.

(** X1.  addClient, addProject and addTimeEntry return an entity with the
    fields they were given, whatever they are, the next identifier of
    randomUUID as [id] and the time of the call as [createdAt].  Provided
    the store accepts the write, the document read back afterwards is the
    old one with that entity appended to its array, the two other arrays
    as they were.  (JSON.parse is taken to invert JSON.stringify on
    documents, whose text is not empty.) *)
Theorem add_appends (w : World) :
  let id := uuids (uuidsDrawn w) in
  let now := toISOString (clock (clockReads w)) in
  (∀ client,
     let c := fst (addClient client w) in
     let d' := doc (snd (addClient client w)) in
     c = Client.mk id (ClientFields.name client) (ClientFields.email client)
           (ClientFields.phone client) (ClientFields.address client)
           (ClientFields.notes client) now
     ∧ ((∀ s, setItem_ok s = true) →
        clients d' = clients (doc w) ++ [c]
        ∧ projects d' = projects (doc w)
        ∧ timeEntries d' = timeEntries (doc w)))
  ∧ (∀ project,
       let p := fst (addProject project w) in
       let d' := doc (snd (addProject project w)) in
       p = Project.mk id (ProjectFields.clientId project)
             (ProjectFields.name project) (ProjectFields.description project)
             (ProjectFields.hourlyRate project) now
       ∧ ((∀ s, setItem_ok s = true) →
          clients d' = clients (doc w)
          ∧ projects d' = projects (doc w) ++ [p]
          ∧ timeEntries d' = timeEntries (doc w)))
  ∧ (∀ entry,
       let e := fst (addTimeEntry entry w) in
       let d' := doc (snd (addTimeEntry entry w)) in
       e = TimeEntry.mk id (TimeEntryFields.projectId entry)
             (TimeEntryFields.clientId entry) (TimeEntryFields.description entry)
             (TimeEntryFields.startTime entry) (TimeEntryFields.endTime entry)
             (TimeEntryFields.duration entry) (TimeEntryFields.isRunning entry)
             now
       ∧ ((∀ s, setItem_ok s = true) →
          clients d' = clients (doc w)
          ∧ projects d' = projects (doc w)
          ∧ timeEntries d' = timeEntries (doc w) ++ [e])).
Proof.
  intros id now. subst id now. split; [|split].
  - intros client. split; [by unfold addClient; exec|]. intros Hacc.
    destruct (addClient_spec Hacc client w) as (w' & -> & Hd & _).
    simpl. by rewrite Hd.
  - intros project. split; [by unfold addProject; exec|]. intros Hacc.
    destruct (addProject_spec Hacc project w) as (w' & -> & Hd & _).
    simpl. by rewrite Hd.
  - intros entry. split; [by unfold addTimeEntry; exec|]. intros Hacc.
    destruct (addTimeEntry_spec Hacc entry w) as (w' & -> & Hd & _).
    simpl. by rewrite Hd.
Qed.

(** X10.  getRunningTimer reads only: it leaves the world as it is and returns
    the first running entry of the document, null when none runs.  Right
    after startTimer, provided the store accepts every write, it returns
    the entry startTimer returned.  (JSON.parse is taken to invert
    JSON.stringify on documents, whose text is not empty.) *)
Theorem getRunningTimer_after_start (w : World) :
  getRunningTimer w = (head (running (doc w)), w)
  ∧ ∀ projectId clientId description,
      (∀ s, setItem_ok s = true) →
      let started := startTimer projectId clientId description w in
      getRunningTimer (snd started) = (Some (fst started), snd started).
Proof.
  assert (∀ w, getRunningTimer w = (head (running (doc w)), w)) as Hget.
  { intros w0. unfold getRunningTimer, bind, loadData, ret, running.
    by rewrite list_find_head. }
  split; [apply Hget|]. intros projectId clientId description Hacc started.
  subst started. rewrite Hget.
  destruct (startTimer_spec Hacc projectId clientId description w)
    as (w' & -> & Hd & _).
  simpl. rewrite Hd. unfold running. simpl.
  by rewrite filter_app, running_closed.
Qed.

(** X11.  The entry startTimer creates.  It carries the next identifier of
    randomUUID, the project, client and description given (empty strings
    as they are), no [endTime], a [duration] of 0 and [isRunning] true;
    its [startTime] is the clock reading after the one that closed the
    running entries, its [createdAt] the reading after that.  Provided
    the store accepts every write, it is the last entry of the document
    read back, and Clients and Projects are untouched.  (JSON.parse is
    taken to invert JSON.stringify on documents, whose text is not
    empty.) *)
Theorem startTimer_entry (w : World) (projectId clientId description : string) :
  let c := clockReads w in
  let e := fst (startTimer projectId clientId description w) in
  let w' := snd (startTimer projectId clientId description w) in
  e = TimeEntry.mk (uuids (uuidsDrawn w)) (Some projectId) (Some clientId)
        description (toISOString (clock (S c))) None 0 true
        (toISOString (clock (S (S c))))
  ∧ clockReads w' = S (S (S c))
  ∧ uuidsDrawn w' = S (uuidsDrawn w)
  ∧ ((∀ s, setItem_ok s = true) →
     last (timeEntries (doc w')) = Some e
     ∧ clients (doc w') = clients (doc w)
     ∧ projects (doc w') = projects (doc w)).
Proof.
  intros c e w'. subst c e w'.
  destruct (startTimer_returns projectId clientId description w)
    as (He & Hc & Hu).
  split; [done|]. split; [done|]. split; [done|]. intros Hacc.
  destruct (startTimer_spec Hacc projectId clientId description w)
    as (w' & -> & Hd & _).
  simpl. rewrite Hd. simpl. by rewrite last_snoc.
Qed.

End Storage.

(** ** A browser to run the development in

    One instance of the parameters, meeting the assumptions made on them.
    Documents are serialised field by field: every string, number, boolean
    and optional value is written as the binary numeral of its code in the
    enumeration of its type, in the letters O and I closed by H; an array
    is preceded by its length.  Dates are handled in UTC by the civil
    calendar; the clock advances a minute per reading; the n-th identifier
    is the numeral of n. *)

Module Browser.

(** *** Serialisation *)

Fixpoint letters (p : positive) (rest : string) : string :=
  match p with
  | xH => String "H" rest
  | xO p' => String "O" (letters p' rest)
  | xI p' => String "I" (letters p' rest)
  end.

Fixpoint readLetters (s : string) : option (positive * string) :=
  match s with
  | EmptyString => None
  | String c s' =>
      if decide (c = "O"%char) then
        '(p, rest) ← readLetters s'; Some (xO p, rest)
      else if decide (c = "I"%char) then
        '(p, rest) ← readLetters s'; Some (xI p, rest)
      else if decide (c = "H"%char) then Some (xH, s')
      else None
  end.

Definition put `{Countable A} (x : A) (rest : string) : string :=
  letters (encode x) rest.

Definition get `{Countable A} (s : string) : option (A * string) :=
  '(p, rest) ← readLetters s; x ← decode p; Some (x, rest).

Definition putClient (c : Client.t) (rest : string) : string :=
  put (Client.id c) (put (Client.name c) (put (Client.email c)
    (put (Client.phone c) (put (Client.address c) (put (Client.notes c)
      (put (Client.createdAt c) rest)))))).

Definition getClient (s : string) : option (Client.t * string) :=
  '(id, s) ← get s; '(name, s) ← get s; '(email, s) ← get s;
  '(phone, s) ← get s; '(address, s) ← get s; '(notes, s) ← get s;
  '(createdAt, s) ← get s;
  Some (Client.mk id name email phone address notes createdAt, s).

Definition putProject (p : Project.t) (rest : string) : string :=
  put (Project.id p) (put (Project.clientId p) (put (Project.name p)
    (put (Project.description p) (put (Project.hourlyRate p)
      (put (Project.createdAt p) rest))))).

Definition getProject (s : string) : option (Project.t * string) :=
  '(id, s) ← get s; '(clientId, s) ← get s; '(name, s) ← get s;
  '(description, s) ← get s; '(hourlyRate, s) ← get s; '(createdAt, s) ← get s;
  Some (Project.mk id clientId name description hourlyRate createdAt, s).

Definition putEntry (e : TimeEntry.t) (rest : string) : string :=
  put (TimeEntry.id e) (put (TimeEntry.projectId e) (put (TimeEntry.clientId e)
    (put (TimeEntry.description e) (put (TimeEntry.startTime e)
      (put (TimeEntry.endTime e) (put (TimeEntry.duration e)
        (put (TimeEntry.isRunning e) (put (TimeEntry.createdAt e) rest)))))))).

Definition getEntry (s : string) : option (TimeEntry.t * string) :=
  '(id, s) ← get s; '(projectId, s) ← get s; '(clientId, s) ← get s;
  '(description, s) ← get s; '(startTime, s) ← get s; '(endTime, s) ← get s;
  '(duration, s) ← get s; '(isRunning, s) ← get s; '(createdAt, s) ← get s;
  Some (TimeEntry.mk id projectId clientId description startTime endTime
          duration isRunning createdAt, s).

Section Arrays.

Context {A : Type} (putItem : A → string → string)
  (getItem : string → option (A * string)).

Definition putItems (l : list A) (rest : string) : string :=
  foldr putItem rest l.

Fixpoint getItems (n : nat) (s : string) : option (list A * string) :=
  match n with
  | O => Some ([], s)
  | S n' =>
      '(x, s) ← getItem s; '(l, s) ← getItems n' s; Some (x :: l, s)
  end.

(** An optional array: absent, or its length and its items. *)

Definition putArray (l : option (list A)) (rest : string) : string :=
  match l with
  | None => put false rest
  | Some l => put true (put (length l) (putItems l rest))
  end.

Definition getArray (s : string) : option (option (list A) * string) :=
  '(present, s) ← get s;
  if present : bool then
    '(n, s) ← get s; '(l, s) ← getItems n s; Some (Some l, s)
  else Some (None, s).

End Arrays.

Definition putValue (v : JSValue) (rest : string) : string :=
  match v with
  | JSOther => put false rest
  | JSObject o =>
      put true
        (putArray putClient (rawClients o)
           (putArray putProject (rawProjects o)
              (putArray putEntry (rawTimeEntries o) rest)))
  end.

Definition getValue (s : string) : option (JSValue * string) :=
  '(object, s) ← get s;
  if object : bool then
    '(cs, s) ← getArray getClient s;
    '(ps, s) ← getArray getProject s;
    '(es, s) ← getArray getEntry s;
    Some (JSObject (mkRawData cs ps es), s)
  else Some (JSOther, s).

Definition stringify (d : AppData) : string :=
  putValue (JSObject (rawOf d)) "".

Definition parse (s : string) : option JSValue :=
  match getValue s with
  | Some (v, EmptyString) => Some v
  | _ => None
  end.

(** *** Dates, in UTC *)

Local Open Scope Z_scope.

Definition daysFromCivil (y m d : Z) : Z :=
  let y := if decide (m ≤ 2) then y - 1 else y in
  let era := y / 400 in
  let yoe := y - era * 400 in
  let doy := (153 * (if decide (2 < m) then m - 3 else m + 9) + 2) / 5 + d - 1 in
  let doe := yoe * 365 + yoe / 4 - yoe / 100 + doy in
  era * 146097 + doe - 719468.

Definition civilFromDays (z : Z) : Z * Z * Z :=
  let z := z + 719468 in
  let era := z / 146097 in
  let doe := z - era * 146097 in
  let yoe := (doe - doe / 1460 + doe / 36524 - doe / 146096) / 365 in
  let doy := doe - (365 * yoe + yoe / 4 - yoe / 100) in
  let mp := (5 * doy + 2) / 153 in
  let d := doy - (153 * mp + 2) / 5 + 1 in
  let m := if decide (mp < 10) then mp + 3 else mp - 9 in
  let y := yoe + era * 400 in
  (if decide (m ≤ 2) then y + 1 else y, m, d).

Definition msPerDay : Z := 86400000.

Definition toISOString (ms : Z) : string :=
  let '(y, m, d) := civilFromDays (ms / msPerDay) in
  let t := ms `mod` msPerDay in
  padStart0 4%nat (pretty y) +:+ "-" +:+ padStart0 2%nat (pretty m) +:+ "-"
  +:+ padStart0 2%nat (pretty d) +:+ "T"
  +:+ padStart0 2%nat (pretty (t / 3600000)) +:+ ":"
  +:+ padStart0 2%nat (pretty ((t / 60000) `mod` 60)) +:+ ":"
  +:+ padStart0 2%nat (pretty ((t / 1000) `mod` 60)) +:+ "."
  +:+ padStart0 3%nat (pretty (t `mod` 1000)) +:+ "Z".

(** The numbers written in a string, in order: the fields of a date. *)

Fixpoint numbers (s : string) (current : option Z) : list Z :=
  match s with
  | EmptyString => match current with Some n => [n] | None => [] end
  | String c s' =>
      let k := Z.of_nat (nat_of_ascii c) - 48 in
      if decide (0 ≤ k ≤ 9) then numbers s' (Some (10 * default 0 current + k))
      else match current with
           | Some n => n :: numbers s' None
           | None => numbers s' None
           end
  end.

Definition getTime (s : string) : Z :=
  let f := numbers s None in
  let field i := default 0 (f !! i) in
  daysFromCivil (field 0%nat) (default 1 (f !! 1%nat)) (default 1 (f !! 2%nat))
    * msPerDay
  + field 3%nat * 3600000 + field 4%nat * 60000 + field 5%nat * 1000 + field 6%nat.

Definition toLocaleDateString (ms : Z) : string :=
  let '(y, m, d) := civilFromDays (ms / msPerDay) in
  pretty d +:+ "." +:+ pretty m +:+ "." +:+ pretty y.

Definition toLocaleTimeString (ms : Z) : string :=
  let t := ms `mod` msPerDay in
  padStart0 2%nat (pretty (t / 3600000)) +:+ ":"
  +:+ padStart0 2%nat (pretty ((t / 60000) `mod` 60)).

(** [(seconds / 3600).toFixed(2)].  The quotient of two numbers is the
    double nearest to the exact quotient, the one with the even mantissa
    on a tie; a positive double is [m * 2 ^ e] with a mantissa [m] of 53
    bits.  (No quotient of a whole number of seconds by 3600 is small
    enough to be subnormal.) *)

Definition roundHalfEven (num den : Z) : Z :=
  let q := num / den in
  let r := num `mod` den in
  if decide (2 * r < den) then q
  else if decide (den < 2 * r) then q + 1
  else if Z.even q then q else q + 1.

Definition scaled (num den e : Z) : Z * Z :=
  if decide (0 ≤ e) then (num, den * 2 ^ e) else (num * 2 ^ (- e), den).

Definition divide (num den : Z) : Z * Z :=
  let e := Z.log2 num - Z.log2 den - 52 in
  let e := if decide (fst (scaled num den e) < 2 ^ 52 * snd (scaled num den e))
           then e - 1 else e in
  (roundHalfEven (fst (scaled num den e)) (snd (scaled num den e)), e).

(** [x.toFixed(2)] takes the whole number [n] for which [n / 100] is
    nearest to the double [x], the larger one when two are as near, and
    writes it with two decimals; the sign of a negative [x] is written
    first and the digits are those of [-x]. *)

Definition hundredths (m e : Z) : Z :=
  if decide (0 ≤ e) then 100 * m * 2 ^ e
  else (200 * m + 2 ^ (- e)) / 2 ^ (1 - e).

Definition hoursToFixed2 (seconds : Z) : string :=
  let n :=
    if decide (seconds = 0) then 0
    else let '(m, e) := divide (Z.abs seconds) 3600 in hundredths m e in
  (if decide (seconds < 0) then "-" else "")
  +:+ pretty (n / 100) +:+ "." +:+ padStart0 2%nat (pretty (n `mod` 100)).

(** *** Storage: every write is accepted

    and, for the runs in which one is not, a store with a quota: a text
    longer than the limit is rejected. *)

Definition setItem_ok (s : string) : bool := true.

Definition quota (limit : nat) (s : string) : bool :=
  bool_decide (String.length s ≤ limit)%nat.

(** *** Clock and identifiers *)

Definition clock (n : nat) : Z := 1709287200000 + 60000 * Z.of_nat n.

Definition uuids (n : nat) : string := pretty n.

(** *** The assumptions hold *)

Local Close Scope Z_scope.

Lemma readLetters_letters p rest : readLetters (letters p rest) = Some (p, rest).
Proof. induction p as [p IH|p IH|]; simpl; by rewrite ?IH. Qed.

Lemma get_put `{Countable A} (x : A) rest : get (put x rest) = Some (x, rest).
Proof.
  unfold get, put. rewrite readLetters_letters. simpl.
  by rewrite decode_encode.
Qed.

Lemma getClient_put c rest : getClient (putClient c rest) = Some (c, rest).
Proof.
  unfold getClient, putClient. repeat (rewrite get_put; cbn -[get put]). by destruct c.
Qed.

Lemma getProject_put p rest : getProject (putProject p rest) = Some (p, rest).
Proof.
  unfold getProject, putProject. repeat (rewrite get_put; cbn -[get put]). by destruct p.
Qed.

Lemma getEntry_put e rest : getEntry (putEntry e rest) = Some (e, rest).
Proof.
  unfold getEntry, putEntry. repeat (rewrite get_put; cbn -[get put]). by destruct e.
Qed.

Lemma getItems_put {A} (putItem : A → string → string) getItem :
  (∀ x rest, getItem (putItem x rest) = Some (x, rest)) →
  ∀ l rest, getItems getItem (length l) (putItems putItem l rest) = Some (l, rest).
Proof.
  intros Hitem l rest. induction l as [|x l IH]; [done|].
  unfold putItems in *. cbn [length foldr getItems].
  rewrite Hitem. simpl. by rewrite IH.
Qed.

Lemma getArray_put {A} (putItem : A → string → string) getItem :
  (∀ x rest, getItem (putItem x rest) = Some (x, rest)) →
  ∀ l rest, getArray getItem (putArray putItem l rest) = Some (l, rest).
Proof.
  intros Hitem [l|] rest; unfold getArray, putArray.
  - rewrite get_put. cbn -[get put getItems putItems].
    rewrite get_put. cbn -[get put getItems putItems].
    by rewrite (getItems_put putItem getItem Hitem).
  - by rewrite get_put.
Qed.

Lemma getValue_put v rest : getValue (putValue v rest) = Some (v, rest).
Proof.
  destruct v as [[cs ps es]|]; unfold getValue, putValue.
  - rewrite get_put. cbn -[get put getArray putArray].
    rewrite (getArray_put putClient getClient getClient_put).
    cbn -[get put getArray putArray].
    rewrite (getArray_put putProject getProject getProject_put).
    cbn -[get put getArray putArray].
    by rewrite (getArray_put putEntry getEntry getEntry_put).
  - by rewrite get_put.
Qed.

Lemma parse_put v : parse (putValue v "") = Some v.
Proof. unfold parse. by rewrite getValue_put. Qed.

Lemma parse_stringify d : parse (stringify d) = Some (JSObject (rawOf d)).
Proof. apply parse_put. Qed.

Lemma stringify_nonempty d : stringify d ≠ "".
Proof. unfold stringify, putValue, put. by destruct (encode true). Qed.

Lemma setItem_accepts s : setItem_ok s = true.
Proof. reflexivity. Qed.

Lemma parse_empty : parse "" = None.
Proof. reflexivity. Qed.

Lemma uuids_inj m n : uuids m = uuids n → m = n.
Proof. apply (inj pretty). Qed.

End Browser.

(** ** The development at work

    The functions at the browser above, sample documents, and the
    theorems applied to them. *)

Abbreviation doc0 := (doc Browser.parse).
Abbreviation loadData0 := (loadData Browser.parse).
Abbreviation saveData0 := (saveData Browser.stringify Browser.setItem_ok).
Abbreviation call0 :=
  (call Browser.stringify Browser.parse Browser.setItem_ok Browser.getTime
     Browser.toISOString Browser.clock Browser.uuids).
Abbreviation worldsAfter0 :=
  (worldsAfter Browser.stringify Browser.parse Browser.setItem_ok
     Browser.getTime Browser.toISOString Browser.clock Browser.uuids).
Abbreviation reachableFrom0 :=
  (reachableFrom Browser.stringify Browser.parse Browser.setItem_ok
     Browser.getTime Browser.toISOString Browser.clock Browser.uuids).
Abbreviation permanentlyStopped0 :=
  (permanentlyStopped Browser.stringify Browser.parse Browser.setItem_ok
     Browser.getTime Browser.toISOString Browser.clock Browser.uuids).
Abbreviation apiReachable0 :=
  (apiReachable Browser.stringify Browser.parse Browser.setItem_ok
     Browser.getTime Browser.toISOString Browser.clock Browser.uuids).
Abbreviation resumeTimer0 :=
  (resumeTimer Browser.stringify Browser.parse Browser.setItem_ok
     Browser.getTime Browser.toISOString Browser.clock).
Abbreviation deleteClient0 :=
  (deleteClient Browser.stringify Browser.parse Browser.setItem_ok).

Definition acme : Client.t :=
  Client.mk "c1" "ACME" (Some "office@acme.example") None None None
    "2024-01-15T09:00:00.000Z".

Definition website : Project.t :=
  Project.mk "p1" "c1" "Website" None (Some (Q2Qc (171 # 2)))
    "2024-01-15T09:05:00.000Z".

(** A stopped entry: idle, with an [endTime]. *)

Definition design : TimeEntry.t :=
  TimeEntry.mk "t1" (Some "p1") (Some "c1") "design" "2024-03-01T10:00:00.000Z"
    (Some "2024-03-01T10:02:05.000Z") 125 false "2024-03-01T10:00:00.000Z".

Definition sample : AppData := mkAppData [acme] [website] [design].

(** A document in which a project and an entry still refer to a client
    that is gone. *)

Definition dangling : AppData := mkAppData [] [website] [design].

(** The world once a document has been saved. *)

Definition worldWith (d : AppData) : World := snd (saveData0 d (freshWorld None)).

Lemma doc0_worldWith d : doc0 (worldWith d) = d.
Proof.
  apply (doc_stored Browser.stringify Browser.parse
           Browser.parse_stringify Browser.stringify_nonempty).
  reflexivity.
Qed.

(** A stored object with the clients only, as an older version of the
    module might have left it. *)

Definition clientsOnly : string :=
  Browser.putValue (JSObject (mkRawData (Some [acme]) None None)) "".

Lemma saveData_loadData_roundtrip_witness :
  (∀ d, Browser.parse (Browser.stringify d) = Some (JSObject (rawOf d)))
  ∧ (∀ d, Browser.stringify d ≠ "")
  ∧ Browser.setItem_ok (Browser.stringify sample) = true
  ∧ fst (loadData0 (snd (saveData0 sample (freshWorld None))))
    = mkHandle sample false false false false.
Proof.
  split; [exact Browser.parse_stringify|].
  split; [exact Browser.stringify_nonempty|].
  split; [reflexivity|].
  exact (proj1 (saveData_loadData_roundtrip Browser.stringify Browser.parse
                  Browser.setItem_ok Browser.parse_stringify
                  Browser.stringify_nonempty sample (freshWorld None))
           eq_refl).
Defined.

(** C7, as stated, fails: [sample] is a valid document, but its text is
    longer than the store's quota; saveData swallows the rejection and
    loadData returns the empty document of before, not [sample]. *)
Lemma rejected_save_is_not_read_back :
  let limit := 100 in
  let w := snd (saveData Browser.stringify (Browser.quota limit) sample
                  (freshWorld None)) in
  limit < String.length (Browser.stringify sample)
  ∧ data (fst (loadData0 w)) = mkAppData [] [] []
  ∧ sample = mkAppData [acme] [website] [design].
Proof. vm_compute. repeat split. lia. Qed.

Lemma loadData_fills_missing_fields_witness :
  (∀ d, Browser.parse (Browser.stringify d) = Some (JSObject (rawOf d)))
  ∧ (∀ d, Browser.stringify d ≠ "")
  ∧ (∀ s, Browser.setItem_ok s = true)
  ∧ Browser.parse "" = None
  ∧ apiReachable0 (freshWorld (Some clientsOnly)) (freshWorld (Some clientsOnly))
  ∧ clients (data (fst (loadData0 (freshWorld (Some clientsOnly))))) = [acme]
  ∧ projects (data (fst (loadData0 (freshWorld (Some clientsOnly))))) = []
  ∧ timeEntries (data (fst (loadData0 (freshWorld (Some clientsOnly))))) = [].
Proof.
  split; [exact Browser.parse_stringify|].
  split; [exact Browser.stringify_nonempty|].
  split; [exact Browser.setItem_accepts|].
  split; [exact Browser.parse_empty|].
  split; [apply api_here|].
  refine (proj1 (proj2 (proj2 (proj2
            (loadData_fills_missing_fields Browser.stringify Browser.parse
               Browser.setItem_ok Browser.getTime Browser.toISOString
               Browser.clock Browser.uuids
               Browser.parse_stringify Browser.stringify_nonempty
               Browser.parse_empty
               (Some clientsOnly) (freshWorld (Some clientsOnly)))))
            (or_intror (conj Browser.setItem_accepts
                          (api_here _ _ _ _ _ _ _ _))))
            clientsOnly (mkRawData (Some [acme]) None None) eq_refl _).
  apply Browser.parse_put.
Defined.

(** C9, as stated, fails: the stored object has the clients only; the
    write of addProject exceeds the quota and is rejected, but the project
    was pushed onto the array of [defaultData] that the loaded object
    shares; the stored item still lacks the key, and loadData returns one
    project for it, not an empty array. *)
Lemma absent_field_reads_rejected_push :
  let limit := String.length clientsOnly in
  let w := snd (addProject Browser.stringify Browser.parse (Browser.quota limit)
                  Browser.toISOString Browser.clock Browser.uuids
                  (ProjectFields.mk "c1" "Shop" None None)
                  (freshWorld (Some clientsOnly))) in
  localStorage w = Some clientsOnly
  ∧ Browser.parse clientsOnly = Some (JSObject (mkRawData (Some [acme]) None None))
  ∧ Project.name <$> projects (data (fst (loadData0 w))) = ["Shop"].
Proof. vm_compute. repeat split. Qed.

Lemma single_timer_invariant_witness :
  length (running (doc0 (freshWorld None))) ≤ 1
  ∧ Forall (λ w', length (running (doc0 w')) ≤ 1)
      (worldsAfter0
         [StartTimer "p1" "c1" "design"; PauseTimer "0"; ResumeTimer "0";
          StartTimer "" "" ""; StopTimer "1"]
         (freshWorld None)).
Proof.
  split; [vm_compute; lia|].
  apply (proj1 (single_timer_invariant Browser.stringify Browser.parse
                  Browser.setItem_ok Browser.getTime Browser.toISOString
                  Browser.clock Browser.uuids
                  Browser.parse_stringify Browser.stringify_nonempty
                  Browser.setItem_accepts)).
  vm_compute; lia.
Defined.

(** A running entry and a paused one. *)

Definition meeting : TimeEntry.t :=
  TimeEntry.mk "r" (Some "p1") (Some "c1") "meeting" "2024-03-01T09:00:00.000Z"
    None 0 true "2024-03-01T09:00:00.000Z".

Definition sketch : TimeEntry.t :=
  TimeEntry.mk "p" (Some "p1") (Some "c1") "sketch" "2024-03-01T08:00:00.000Z"
    None 600 false "2024-03-01T08:00:00.000Z".

(** C1, as stated, fails: the stored document has one running entry and
    one paused entry, and the store has a quota.  resumeTimer of the
    paused entry first closes the running one, but that document, longer
    by an [endTime], exceeds the quota and the write is swallowed; the
    document it then reads back still has the entry running, and the one
    in which the paused entry runs as well fits and is stored. *)
Lemma rejected_write_leaves_two_timers_running :
  let limit := 1000 in
  let w := freshWorld (Some (Browser.stringify (mkAppData [] [] [meeting; sketch]))) in
  let w' := call Browser.stringify Browser.parse (Browser.quota limit)
              Browser.getTime Browser.toISOString Browser.clock Browser.uuids
              (ResumeTimer "p") w in
  Browser.quota limit (Browser.stringify (mkAppData [] [] [meeting; sketch])) = true
  ∧ running (doc0 w) = [meeting]
  ∧ TimeEntry.id <$> running (doc0 w') = ["r"; "p"]
  ∧ length (running (doc0 w')) = 2.
Proof. vm_compute. repeat split. Qed.

Lemma find_design :
  list_find (λ e, TimeEntry.id e = "t1") (timeEntries (doc0 (worldWith sample)))
  = Some (0, design).
Proof. rewrite doc0_worldWith. reflexivity. Qed.

Lemma resumeTimer_ignores_endTime_witness :
  TimeEntry.isRunning design = false
  ∧ ∃ w' e',
      resumeTimer0 "t1" (worldWith sample) = (Some e', w')
      ∧ TimeEntry.isRunning e' = true
      ∧ TimeEntry.duration e' = 125%Z
      ∧ TimeEntry.endTime e' = Some "2024-03-01T10:02:05.000Z"
      ∧ timeEntries (doc0 w') = [e'].
Proof.
  split; [reflexivity|].
  destruct (proj2 (resumeTimer_ignores_endTime Browser.stringify Browser.parse
                     Browser.setItem_ok Browser.getTime Browser.toISOString
                     Browser.clock
                     Browser.parse_stringify Browser.stringify_nonempty
                     (worldWith sample) "t1")
              0 design find_design eq_refl)
    as (w' & e' & Hres & _ & Hrun & Hdur & Hend & _ & _ & _ & _ & _ & Hdoc).
  destruct (Hdoc Browser.setItem_accepts) as (Hentries & _).
  exists w', e'. rewrite doc0_worldWith in Hentries. repeat split; done.
Defined.

(** C2, as stated, fails: the entry [t1] of [sample] is stopped (idle, with
    an [endTime]), and resumeTimer does not return null but resumes it,
    [endTime] and all. *)
Lemma resumeTimer_resumes_stopped_entry :
  ∃ index entry e',
    list_find (λ e, TimeEntry.id e = "t1") (timeEntries (doc0 (worldWith sample)))
      = Some (index, entry)
    ∧ TimeEntry.isRunning entry = false
    ∧ TimeEntry.endTime entry = Some "2024-03-01T10:02:05.000Z"
    ∧ fst (resumeTimer0 "t1" (worldWith sample)) = Some e'
    ∧ TimeEntry.isRunning e' = true
    ∧ TimeEntry.endTime e' = Some "2024-03-01T10:02:05.000Z".
Proof.
  destruct (resumeTimer_spec Browser.stringify Browser.parse Browser.setItem_ok
              Browser.getTime Browser.toISOString Browser.clock
              Browser.parse_stringify Browser.stringify_nonempty
              Browser.setItem_accepts
              "t1" (worldWith sample) 0 design find_design eq_refl)
    as (w' & Hres & _).
  exists 0, design. eexists. split; [exact find_design|].
  rewrite Hres. repeat split; reflexivity.
Qed.




(** ** The example scenarios of the specification, run *)

(** A clock that returns the given readings, in order. *)

Definition readings (l : list Z) (n : nat) : Z := default 0%Z (l !! n).

(** 2024-03-01T10:00:00.000Z *)

Definition t0 : Z := 1709287200000.

(** Scenario 1: start; pause after 125 seconds; resume; stop after 10 more
    seconds.  (A start reads the clock three times, a resume twice.) *)

Definition clock1 : nat → Z :=
  readings [t0; t0; t0; t0 + 125000; t0 + 200000; t0 + 200000; t0 + 210000]%Z.

Abbreviation call1 :=
  (call Browser.stringify Browser.parse Browser.setItem_ok Browser.getTime
     Browser.toISOString clock1 Browser.uuids).

Example scenario1_paused :
  timeEntries (doc0 (call1 (PauseTimer "0")
                       (call1 (StartTimer "p1" "c1" "design") (freshWorld None))))
  = [TimeEntry.mk "0" (Some "p1") (Some "c1") "design"
       "2024-03-01T10:00:00.000Z" None 125 false "2024-03-01T10:00:00.000Z"].
Proof. vm_compute. reflexivity. Qed.

Example scenario1_stopped :
  timeEntries
    (doc0 (call1 (StopTimer "0")
             (call1 (ResumeTimer "0")
                (call1 (PauseTimer "0")
                   (call1 (StartTimer "p1" "c1" "design") (freshWorld None))))))
  = [TimeEntry.mk "0" (Some "p1") (Some "c1") "design"
       "2024-03-01T10:03:20.000Z" (Some "2024-03-01T10:03:30.000Z") 135 false
       "2024-03-01T10:00:00.000Z"].
Proof. vm_compute. reflexivity. Qed.

(** Scenario 2: a second start closes the first timer. *)

Example scenario2_second_start :
  let w := call0 (StartTimer "p2" "c1" "review")
             (call0 (StartTimer "p1" "c1" "design") (freshWorld None)) in
  timeEntries (doc0 w)
  = [TimeEntry.mk "0" (Some "p1") (Some "c1") "design"
       "2024-03-01T10:01:00.000Z" (Some "2024-03-01T10:03:00.000Z") 120 false
       "2024-03-01T10:02:00.000Z";
     TimeEntry.mk "1" (Some "p2") (Some "c1") "review"
       "2024-03-01T10:04:00.000Z" None 0 true "2024-03-01T10:05:00.000Z"]
  ∧ TimeEntry.id <$> fst (getRunningTimer Browser.parse w) = Some "1".
Proof. vm_compute. split; reflexivity. Qed.

(** Scenario 3: deleting a client takes its project, the entry of that
    project and the entry assigned to the client directly. *)

Definition direct : TimeEntry.t :=
  TimeEntry.mk "t2" None (Some "c1") "call" "2024-03-02T09:00:00.000Z"
    (Some "2024-03-02T09:30:00.000Z") 1800 false "2024-03-02T09:00:00.000Z".

Definition other : TimeEntry.t :=
  TimeEntry.mk "t3" None None "" "2024-03-03T09:00:00.000Z" None 0 true
    "2024-03-03T09:00:00.000Z".

Example scenario3_cascade :
  let w := worldWith (mkAppData [acme] [website] [design; direct; other]) in
  fst (deleteClient0 "c1" w) = true
  ∧ doc0 (snd (deleteClient0 "c1" w)) = mkAppData [] [] [other].
Proof. vm_compute. split; reflexivity. Qed.

(** Scenario 4: an update of an unknown id returns null and stores
    nothing. *)

Example scenario4_not_found :
  updateTimeEntry Browser.stringify Browser.parse Browser.setItem_ok
    "nonexistent-id"
    (TimeEntryUpdates.mk None None (Some "x") None None None None)
    (worldWith sample)
  = (None, worldWith sample).
Proof. vm_compute. reflexivity. Qed.

(** The hours of the export are a double rounded to two decimals: 54
    seconds are 0.015 hours, a number the nearest double lies below, and
    so are the 3618 seconds of 1.005 hours; the double of 0.125 is exact
    and goes up. *)

Example hours_of_seconds :
  Browser.hoursToFixed2 <$> [0; 18; 54; 90; 125; 450; 1800; 3618; 5400; 86399]%Z
  = ["0.00"; "0.01"; "0.01"; "0.03"; "0.03"; "0.13"; "0.50"; "1.00"; "1.50";
     "24.00"].
Proof. vm_compute. reflexivity. Qed.

(** Scenario 5: two entries on different dates, the later one first; a
    double quote in a description is doubled. *)

Definition quoted : TimeEntry.t :=
  TimeEntry.mk "t4" (Some "p1") (Some "c1")
    (String dquote "fix" +:+ String dquote " the build")
    "2024-03-05T08:15:00.000Z" None 5400 false "2024-03-05T08:15:00.000Z".

Example scenario5_csv :
  fst (exportToCSV Browser.parse Browser.getTime Browser.toLocaleDateString
         Browser.toLocaleTimeString Browser.hoursToFixed2
         (worldWith (mkAppData [acme] [website] [design; quoted])))
  = join newline
      [csvLine headers;
       csvLine ["5.3.2024"; "ACME"; "Website";
                String dquote "fix" +:+ String dquote " the build";
                "08:15"; "-"; "1.50"; "1:30"];
       csvLine ["1.3.2024"; "ACME"; "Website"; "design";
                "10:00"; "10:02"; "0.03"; "0:02"]].
Proof. vm_compute. reflexivity. Qed.

Example scenario5_quoting :
  quoteCell (String dquote "fix" +:+ String dquote " the build")
  = String dquote (String dquote (String dquote "fix"))
    +:+ String dquote (String dquote " the build") +:+ String dquote "".
Proof. reflexivity. Qed.

(** ** A rejected write

    With a store that accepts nothing, the first addClient of a session
    stores nothing, yet the client has been pushed onto the array of
    [defaultData], which the next loadData hands out again: the document
    the next call sees is ahead of the store. *)

Example rejected_write_stays_in_defaultData :
  let fields := ClientFields.mk "ACME" None None None None in
  let w := snd (addClient Browser.stringify Browser.parse (λ _, false)
                  Browser.toISOString Browser.clock Browser.uuids fields
                  (freshWorld None)) in
  localStorage w = None
  ∧ clients (doc0 w)
    = [Client.mk "0" "ACME" None None None None "2024-03-01T10:00:00.000Z"].
Proof. vm_compute. split; reflexivity. Qed.

(** ** The further properties at work *)

Abbreviation addClient0 :=
  (addClient Browser.stringify Browser.parse Browser.setItem_ok
     Browser.toISOString Browser.clock Browser.uuids).
Abbreviation deleteTimeEntry0 :=
  (deleteTimeEntry Browser.stringify Browser.parse Browser.setItem_ok).
Abbreviation startTimer0 :=
  (startTimer Browser.stringify Browser.parse Browser.setItem_ok
     Browser.getTime Browser.toISOString Browser.clock Browser.uuids).
Abbreviation stopTimer0 :=
  (stopTimer Browser.stringify Browser.parse Browser.setItem_ok
     Browser.getTime Browser.toISOString Browser.clock).
Abbreviation pauseTimer0 :=
  (pauseTimer Browser.stringify Browser.parse Browser.setItem_ok
     Browser.getTime Browser.clock).
Abbreviation stopAllRunningTimers0 :=
  (stopAllRunningTimers Browser.stringify Browser.parse Browser.setItem_ok
     Browser.getTime Browser.toISOString Browser.clock).
Abbreviation apiCalls0 :=
  (apiCalls Browser.stringify Browser.parse Browser.setItem_ok
     Browser.getTime Browser.toISOString Browser.clock Browser.uuids).

Definition bolt : ClientFields.t := ClientFields.mk "Bolt" None None None None.

(** The sample document with a timer started on it: the new entry has
    the id 0 and is the second entry. *)

Definition timing : World := call0 (StartTimer "p1" "c1" "review") (worldWith sample).

Definition review : TimeEntry.t :=
  TimeEntry.mk "0" (Some "p1") (Some "c1") "review" "2024-03-01T10:01:00.000Z"
    None 0 true "2024-03-01T10:02:00.000Z".

Lemma find_review :
  list_find (λ e, TimeEntry.id e = "0") (timeEntries (doc0 timing))
  = Some (1, review).
Proof. vm_compute. reflexivity. Qed.

Lemma add_appends_witness :
  clients (doc0 (snd (addClient0 bolt (worldWith sample))))
  = [acme; Client.mk "0" "Bolt" None None None None "2024-03-01T10:00:00.000Z"].
Proof.
  pose proof (proj1 (add_appends Browser.stringify Browser.parse
                       Browser.setItem_ok Browser.toISOString
                       Browser.clock Browser.uuids
                       Browser.parse_stringify Browser.stringify_nonempty
                       (worldWith sample))
                bolt) as Hadd.
  cbv zeta in Hadd. destruct Hadd as (Hc & Hdoc).
  destruct (Hdoc Browser.setItem_accepts) as (Hcs & _).
  rewrite Hcs, Hc, doc0_worldWith. reflexivity.
Defined.

Lemma deleted_id_is_gone_witness :
  fst (deleteClient0 "c1" (snd (deleteClient0 "c1" (worldWith sample)))) = false.
Proof.
  exact (proj1 (proj2 (proj1 (deleted_id_is_gone Browser.stringify
                                Browser.parse Browser.setItem_ok
                                Browser.parse_stringify
                                Browser.stringify_nonempty
                                Browser.setItem_accepts
                                (worldWith sample) "c1")))).
Defined.

Lemma unusedId_sample : unusedId (Browser.uuids 0) (doc0 (worldWith sample)).
Proof. rewrite doc0_worldWith. repeat split; repeat constructor; done. Qed.

Lemma add_then_delete_restores_witness :
  unusedId (Browser.uuids 0) (doc0 (worldWith sample))
  ∧ doc0 (snd (deleteClient0 "0" (snd (addClient0 bolt (worldWith sample)))))
    = sample.
Proof.
  split; [exact unusedId_sample|].
  rewrite <- (doc0_worldWith sample) at 2.
  exact (proj2 (proj1 (add_then_delete_restores Browser.stringify
                         Browser.parse Browser.setItem_ok Browser.toISOString
                         Browser.clock Browser.uuids
                         Browser.parse_stringify Browser.stringify_nonempty
                         Browser.setItem_accepts
                         (worldWith sample) unusedId_sample)
                  bolt)).
Defined.

Lemma ids_stay_distinct_witness :
  let w0 := freshWorld None in
  let w := apiCalls0
             [AddClient bolt; AddClient bolt; Timer (StartTimer "" "" "");
              DeleteClient "0"; Timer (StartTimer "" "" "")] w0 in
  idsInv Browser.parse Browser.uuids w0
  ∧ NoDup (Client.id <$> clients (doc0 w))
  ∧ NoDup (Project.id <$> projects (doc0 w))
  ∧ NoDup (TimeEntry.id <$> timeEntries (doc0 w)).
Proof.
  intros w0 w.
  assert (idsInv Browser.parse Browser.uuids w0) as Hinv.
  { unfold idsInv, distinctIds. change (doc0 w0) with emptyData. simpl.
    repeat split; constructor. }
  split; [exact Hinv|].
  apply (ids_stay_distinct Browser.stringify Browser.parse Browser.setItem_ok
           Browser.getTime Browser.toISOString Browser.clock Browser.uuids
           Browser.parse_stringify Browser.stringify_nonempty
           Browser.uuids_inj Browser.setItem_accepts w0 w Hinv).
  subst w. unfold apiCalls. cbn [foldl].
  repeat apply api_call. apply api_here.
Defined.

Lemma paused_entry_cannot_be_stopped_witness :
  list_find (λ e, TimeEntry.id e = "0") (timeEntries (doc0 timing))
    = Some (1, review)
  ∧ TimeEntry.isRunning review = true
  ∧ stopTimer0 "0" (snd (pauseTimer0 "0" timing))
    = (None, snd (pauseTimer0 "0" timing)).
Proof.
  split; [exact find_review|]. split; [reflexivity|].
  exact (proj1 (paused_entry_cannot_be_stopped Browser.stringify Browser.parse
                  Browser.setItem_ok Browser.getTime Browser.toISOString
                  Browser.clock
                  Browser.parse_stringify Browser.stringify_nonempty
                  Browser.setItem_accepts
                  timing "0" 1 review find_review eq_refl)).
Defined.

Lemma stopAllRunningTimers_closes_all_witness :
  running (doc0 (snd (stopAllRunningTimers0 timing))) = []
  ∧ length (timeEntries (doc0 (snd (stopAllRunningTimers0 timing))))
    = length (timeEntries (doc0 timing)).
Proof.
  destruct (stopAllRunningTimers_closes_all Browser.stringify Browser.parse
              Browser.setItem_ok Browser.getTime Browser.toISOString
              Browser.clock
              Browser.parse_stringify Browser.stringify_nonempty
              Browser.setItem_accepts timing) as (H1 & H2 & _).
  by split.
Defined.

Lemma getRunningTimer_after_start_witness :
  getRunningTimer Browser.parse timing = (Some review, timing).
Proof.
  exact (proj2 (getRunningTimer_after_start Browser.stringify Browser.parse
                  Browser.setItem_ok Browser.getTime Browser.toISOString
                  Browser.clock Browser.uuids
                  Browser.parse_stringify Browser.stringify_nonempty
                  (worldWith sample))
           "p1" "c1" "review" Browser.setItem_accepts).
Defined.

Lemma startTimer_entry_witness :
  fst (startTimer0 "p1" "c1" "review" (worldWith sample)) = review
  ∧ last (timeEntries (doc0 timing)) = Some review.
Proof.
  destruct (startTimer_entry Browser.stringify Browser.parse
              Browser.setItem_ok Browser.getTime Browser.toISOString
              Browser.clock Browser.uuids
              Browser.parse_stringify Browser.stringify_nonempty
              (worldWith sample) "p1" "c1" "review")
    as (H1 & _ & _ & Hdoc).
  destruct (Hdoc Browser.setItem_accepts) as (H2 & _).
  split; [exact H1|]. etransitivity; [exact H2|]. by rewrite H1.
Defined.

Lemma paused_time_is_not_counted_witness :
  let w3 := call0 (ResumeTimer "0") (call0 (PauseTimer "0") timing) in
  Forall (λ e, TimeEntry.id e ≠ "0") (timeEntries (doc0 (worldWith sample)))
  ∧ Browser.getTime (Browser.toISOString (Browser.clock 1)) = Browser.clock 1
  ∧ Browser.getTime (Browser.toISOString (Browser.clock 5)) = Browser.clock 5
  ∧ ∃ e, fst (stopTimer0 "0" w3) = Some e ∧ TimeEntry.duration e = 180%Z.
Proof.
  intros w3.
  assert (Forall (λ e, TimeEntry.id e ≠ Browser.uuids 0)
            (timeEntries (doc0 (worldWith sample)))) as Hfresh.
  { rewrite doc0_worldWith. by repeat constructor. }
  split; [exact Hfresh|]. split; [by vm_compute|]. split; [by vm_compute|].
  destruct (paused_time_is_not_counted Browser.stringify Browser.parse
              Browser.setItem_ok Browser.getTime Browser.toISOString
              Browser.clock Browser.uuids
              Browser.parse_stringify Browser.stringify_nonempty
              Browser.setItem_accepts
              (worldWith sample) "p1" "c1" "review" Hfresh
              ltac:(by vm_compute) ltac:(by vm_compute))
    as (e & He & Hd & _).
  exists e. split; [exact He|]. rewrite Hd. by vm_compute.
Defined.

Lemma rejected_writes_are_lost_witness :
  let w := apiCalls Browser.stringify Browser.parse (λ _, false)
             Browser.getTime Browser.toISOString Browser.clock Browser.uuids
             [AddClient bolt; DeleteClient "c1"; Timer (StartTimer "" "" "")]
             (worldWith sample) in
  localStorage (worldWith sample) = Some (Browser.stringify sample)
  ∧ localStorage w = Some (Browser.stringify sample)
  ∧ doc0 w = sample.
Proof.
  intros w. split; [reflexivity|].
  destruct (rejected_writes_are_lost Browser.stringify Browser.parse
              (λ _, false) Browser.getTime Browser.toISOString Browser.clock
              Browser.uuids
              Browser.parse_stringify Browser.stringify_nonempty
              sample
              [AddClient bolt; DeleteClient "c1"; Timer (StartTimer "" "" "")]
              (worldWith sample) (λ _, eq_refl) eq_refl) as (H1 & H2 & _).
  by split.
Defined.

Lemma addClient_writes_defaultData_witness :
  let w' := snd (addClient Browser.stringify Browser.parse (λ _, false)
                   Browser.toISOString Browser.clock Browser.uuids bolt
                   (freshWorld None)) in
  localStorage (freshWorld None) = None
  ∧ clients (defaultData w')
    = [Client.mk "0" "Bolt" None None None None "2024-03-01T10:00:00.000Z"]
  ∧ localStorage w' = None
  ∧ clients (doc0 w')
    = [Client.mk "0" "Bolt" None None None None "2024-03-01T10:00:00.000Z"].
Proof.
  intros w'. split; [reflexivity|].
  destruct (addClient_writes_defaultData Browser.stringify Browser.parse
              (λ _, false) Browser.toISOString Browser.clock Browser.uuids
              bolt (freshWorld None) eq_refl) as (H1 & H2).
  split; [exact H1|]. exact (H2 eq_refl).
Defined.

Lemma csv_text_determines_table_witness :
  let rows := [headers; ["a"; "b"]] in
  let rows' := [headers; ["a;b"]] in
  Forall (λ row, row ≠ []) rows
  ∧ Forall (λ row, row ≠ []) rows'
  ∧ (join newline (csvLine <$> rows) = join newline (csvLine <$> rows') →
     rows = rows').
Proof.
  intros rows rows'.
  assert (Forall (λ row : list string, row ≠ []) rows) as H1
    by (repeat constructor; done).
  assert (Forall (λ row : list string, row ≠ []) rows') as H2
    by (repeat constructor; done).
  split; [exact H1|]. split; [exact H2|].
  exact (csv_text_determines_table rows rows' H1 H2).
Defined.

Lemma formatDurationShort_hours_minutes_witness :
  formatDurationShort 3665 = "1h 1m".
Proof.
  exact (formatDurationShort_hours_minutes 1 1 5
           ltac:(lia) ltac:(lia) ltac:(lia)).
Defined.

Lemma formatDuration_clock_witness :
  formatDuration 3665 = "01:01:05".
Proof.
  exact (proj1 (formatDuration_clock 1 1 5 ltac:(lia) ltac:(lia) ltac:(lia))).
Defined.


(** ** The timer panel at work *)

Abbreviation panel0 :=
  (panel Browser.stringify Browser.parse Browser.setItem_ok Browser.getTime
     Browser.toISOString Browser.clock Browser.uuids).
Abbreviation panelRun0 :=
  (panelRun Browser.stringify Browser.parse Browser.setItem_ok Browser.getTime
     Browser.toISOString Browser.clock Browser.uuids).
Abbreviation handleStopTimer0 :=
  (handleStopTimer Browser.stringify Browser.parse Browser.setItem_ok
     Browser.getTime Browser.toISOString Browser.clock).
Abbreviation tick0 := (tick Browser.getTime Browser.clock).
Abbreviation inSync0 := (inSync Browser.parse).
Abbreviation idsInv0 := (idsInv Browser.parse Browser.uuids).

(** The panel of a first visit, then with the timer started, then with
    the form filled in and the timer paused. *)

Definition firstVisit : App.t * World :=
  (App.mk emptyData App.idle None 0 (Some "") (Some "") "", freshWorld None).

Definition timerOn : App.t * World := panelRun0 [ClickStart] firstVisit.

Definition timerPaused : App.t * World :=
  panelRun0 [ClickStart; Edit (Some "") (Some "p1") ""; ClickPause] firstVisit.

Lemma idsInv_firstVisit : idsInv0 (snd firstVisit).
Proof.
  unfold idsInv, distinctIds. change (doc0 (snd firstVisit)) with emptyData.
  simpl. repeat split; constructor.
Qed.

Lemma inSync_timerOn : inSync0 (fst timerOn) (snd timerOn).
Proof. vm_compute. eexists. split; reflexivity. Qed.

Lemma inSync_timerPaused : inSync0 (fst timerPaused) (snd timerPaused).
Proof.
  vm_compute. eexists _, _. split; [reflexivity|]. split; [reflexivity|].
  split; [apply list_elem_of_singleton|]; reflexivity.
Qed.

Lemma NoDup_timerOn :
  NoDup (TimeEntry.id <$> timeEntries (doc0 (snd timerOn))).
Proof. vm_compute. apply NoDup_singleton. Qed.

Lemma NoDup_timerPaused :
  NoDup (TimeEntry.id <$> timeEntries (doc0 (snd timerPaused))).
Proof. vm_compute. apply NoDup_singleton. Qed.

Lemma handleStopTimer_closes_running_entry_witness :
  let stopped := handleStopTimer0 (fst timerOn) (snd timerOn) in
  NoDup (TimeEntry.id <$> timeEntries (doc0 (snd timerOn)))
  ∧ App.timerState (fst timerOn) = App.running
  ∧ inSync0 (fst timerOn) (snd timerOn)
  ∧ App.timerState (fst stopped) = App.idle
  ∧ running (doc0 (snd stopped)) = [].
Proof.
  intros stopped.
  split; [exact NoDup_timerOn|]. split; [reflexivity|].
  split; [exact inSync_timerOn|].
  destruct (handleStopTimer_closes_running_entry Browser.stringify
              Browser.parse Browser.setItem_ok Browser.getTime
              Browser.toISOString Browser.clock
              Browser.parse_stringify Browser.stringify_nonempty
              Browser.setItem_accepts
              (fst timerOn) (snd timerOn)
              NoDup_timerOn eq_refl inSync_timerOn)
    as (H1 & _ & _ & H2 & _).
  by split.
Defined.

Lemma handleStopTimer_leaves_paused_entry_open_witness :
  let stopped := handleStopTimer0 (fst timerPaused) (snd timerPaused) in
  NoDup (TimeEntry.id <$> timeEntries (doc0 (snd timerPaused)))
  ∧ App.timerState (fst timerPaused) = App.paused
  ∧ inSync0 (fst timerPaused) (snd timerPaused)
  ∧ App.timerState (fst stopped) = App.idle
  ∧ App.currentEntry (fst stopped) = None
  ∧ running (doc0 (snd stopped)) = [].
Proof.
  intros stopped.
  split; [exact NoDup_timerPaused|]. split; [reflexivity|].
  split; [exact inSync_timerPaused|].
  destruct (handleStopTimer_leaves_paused_entry_open Browser.stringify
              Browser.parse Browser.setItem_ok Browser.getTime
              Browser.toISOString Browser.clock
              Browser.parse_stringify Browser.stringify_nonempty
              Browser.setItem_accepts
              (fst timerPaused) (snd timerPaused)
              NoDup_timerPaused eq_refl inSync_timerPaused)
    as (H1 & H2 & H3 & _).
  by repeat split.
Defined.

Lemma tick_shows_stop_duration_witness :
  NoDup (TimeEntry.id <$> timeEntries (doc0 (snd timerOn)))
  ∧ App.timerState (fst timerOn) = App.running
  ∧ inSync0 (fst timerOn) (snd timerOn)
  ∧ ∃ e e',
      App.currentEntry (fst timerOn) = Some e
      ∧ App.elapsedTime (fst (tick0 (fst timerOn) (snd timerOn)))
        = ((Browser.clock (clockReads (snd timerOn))
            - Browser.getTime (TimeEntry.startTime e)) / 1000
           + TimeEntry.duration e)%Z
      ∧ fst (stopTimer0 (TimeEntry.id e) (snd timerOn)) = Some e'
      ∧ App.elapsedTime (fst (tick0 (fst timerOn) (snd timerOn)))
        = TimeEntry.duration e'.
Proof.
  split; [exact NoDup_timerOn|]. split; [reflexivity|].
  split; [exact inSync_timerOn|].
  exact (tick_shows_stop_duration Browser.stringify Browser.parse
           Browser.setItem_ok Browser.getTime Browser.toISOString
           Browser.clock
           (fst timerOn) (snd timerOn)
           NoDup_timerOn eq_refl inSync_timerOn).
Defined.

Lemma panel_stays_in_sync_witness :
  let evs := [ClickStart; Tick; Edit (Some "c1") (Some "p1") "design";
              ClickPause; ClickResume; Tick; ClickStop; ClickStart] in
  let s := panelRun0 evs firstVisit in
  idsInv0 (snd firstVisit)
  ∧ inSync0 (fst firstVisit) (snd firstVisit)
  ∧ inSync0 (fst s) (snd s)
  ∧ length (running (doc0 (snd s))) ≤ 1.
Proof.
  intros evs s.
  assert (inSync0 (fst firstVisit) (snd firstVisit)) as Hsync
    by (by vm_compute).
  split; [exact idsInv_firstVisit|]. split; [exact Hsync|].
  destruct (panel_stays_in_sync Browser.stringify Browser.parse
              Browser.setItem_ok Browser.getTime Browser.toISOString
              Browser.clock Browser.uuids
              Browser.parse_stringify Browser.stringify_nonempty
              Browser.uuids_inj Browser.setItem_accepts
              evs (fst firstVisit) (snd firstVisit)
              idsInv_firstVisit Hsync) as (H1 & H2 & _).
  by split.
Defined.

(** Start, select a project, pause, stop: the panel is idle, and the
    entry is left idle without an [endTime]; the empty description has
    become 'Keine Beschreibung' and the empty client is gone. *)

Example stop_while_paused :
  let stopped := handleStopTimer0 (fst timerPaused) (snd timerPaused) in
  App.timerState (fst stopped) = App.idle
  ∧ timeEntries (doc0 (snd stopped))
    = [TimeEntry.mk "0" (Some "p1") None "Keine Beschreibung"
         "2024-03-01T10:01:00.000Z" None 120 false
         "2024-03-01T10:02:00.000Z"].
Proof. vm_compute. split; reflexivity. Qed.


Abbreviation mount0 := (mount Browser.parse).

Lemma mount_shows_the_running_timer_witness :
  length (running (doc0 (snd timerOn))) ≤ 1
  ∧ snd (mount0 (snd timerOn)) = snd timerOn
  ∧ inSync0 (fst (mount0 (snd timerOn))) (snd timerOn).
Proof.
  assert (length (running (doc0 (snd timerOn))) ≤ 1) as Hlen
    by (vm_compute; lia).
  split; [exact Hlen|].
  destruct (mount_shows_the_running_timer Browser.parse (snd timerOn) Hlen)
    as (H1 & _ & H2 & _).
  by split.
Defined.

(** A reload while the timer is paused: the panel comes back idle, and
    the paused entry, idle and without [endTime], is not among the
    recent entries. *)

Example reload_while_paused :
  App.timerState (fst (mount0 (snd timerPaused))) = App.idle
  ∧ recentEntries Browser.getTime (doc0 (snd timerPaused)) = [].
Proof. vm_compute. split; reflexivity. Qed.

(** Of the entries of a document, the stopped ones are listed, latest
    end first. *)

Example recent_of_three :
  recentEntries Browser.getTime (mkAppData [acme] [website] [design; direct; other])
  = [direct; design].
Proof. vm_compute. reflexivity. Qed.

(** The order is that of the ends, not of the starts: a long entry that
    started first and ended last is listed first.  An idle entry whose
    [endTime] is the empty string is not listed. *)

Definition workshop : TimeEntry.t :=
  TimeEntry.mk "t5" None (Some "c1") "workshop" "2024-03-01T08:00:00.000Z"
    (Some "2024-03-01T17:00:00.000Z") 32400 false "2024-03-01T08:00:00.000Z".

Definition blank : TimeEntry.t :=
  TimeEntry.mk "t6" None None "" "2024-03-04T09:00:00.000Z" (Some "") 0 false
    "2024-03-04T09:00:00.000Z".

Example recent_by_end :
  recentEntries Browser.getTime (mkAppData [] [] [workshop; design; blank])
  = [workshop; design].
Proof. vm_compute. reflexivity. Qed.


(** ** More runs *)

Abbreviation deleteProject0 :=
  (deleteProject Browser.stringify Browser.parse Browser.setItem_ok).
Abbreviation csvRow0 :=
  (csvRow Browser.getTime Browser.toLocaleDateString
     Browser.toLocaleTimeString Browser.hoursToFixed2).

(** Deleting a project takes its entries and leaves the client and the
    entry assigned to the client alone. *)

Example deleteProject_cascade_run :
  let w := worldWith (mkAppData [acme] [website] [design; direct; other]) in
  fst (deleteProject0 "p1" w) = true
  ∧ doc0 (snd (deleteProject0 "p1" w)) = mkAppData [acme] [] [direct; other].
Proof. vm_compute. split; reflexivity. Qed.

Example deleteTimeEntry_run :
  fst (deleteTimeEntry0 "t1" (worldWith sample)) = true
  ∧ doc0 (snd (deleteTimeEntry0 "t1" (worldWith sample)))
    = mkAppData [acme] [website] [].
Proof. vm_compute. split; reflexivity. Qed.

(** Stopping the timer started on the sample document at 10:01, at the
    clock reading 10:03. *)

Example stopTimer_run :
  fst (stopTimer0 "0" timing)
  = Some (TimeEntry.mk "0" (Some "p1") (Some "c1") "review"
            "2024-03-01T10:01:00.000Z" (Some "2024-03-01T10:03:00.000Z") 120
            false "2024-03-01T10:02:00.000Z").
Proof. vm_compute. reflexivity. Qed.

(** An entry whose client is gone is exported under 'Unbekannt'; two
    entries of one day keep their order, whatever their times. *)

Definition evening : TimeEntry.t :=
  TimeEntry.mk "t5" None None "notes" "2024-03-01T18:00:00.000Z"
    (Some "2024-03-01T18:30:00.000Z") 1800 false "2024-03-01T18:00:00.000Z".

Example csvRow_unknown_client :
  csvRow0 dangling design
  = ["1.3.2024"; "Unbekannt"; "Website"; "design"; "10:00"; "10:02";
     "0.03"; "0:02"].
Proof. vm_compute. reflexivity. Qed.

Example same_day_order :
  fst (exportToCSV Browser.parse Browser.getTime Browser.toLocaleDateString
         Browser.toLocaleTimeString Browser.hoursToFixed2
         (worldWith (mkAppData [acme] [website] [evening; quoted; design])))
  = join newline
      (csvLine
         <$> [headers;
              csvRow0 sample quoted; csvRow0 sample evening;
              csvRow0 sample design]).
Proof. vm_compute. reflexivity. Qed.
